(** * Thermal-Dashboard: cycle solvers and the ideal-gas path sampler

    A shallow embedding of [core/process_paths.py], of the solvers under
    [cycles/] and of what the air-standard pages of [app.py] compute before
    they draw, with the properties of the written specification, and further
    properties read off the code, stated and proved over it.

    Numbers.  The Python code computes with binary64 floats.  They are
    idealised here as real numbers: [+], [-], [*] are the field operations,
    [np.exp] is [exp], [np.log] is [ln] and [x ** y] is [Rpower x y].
    Division of two Python floats raises [ZeroDivisionError] on a zero
    divisor and is modelled by [fdiv]; division of numpy values never raises
    and is the total [/].  The real power agrees with [**] up to rounding
    for a positive base whose power stays in the range of binary64; outside
    of it the power of two Python floats raises, which [fpow] does not
    model, and next to a cancelling difference a float result is far from
    the real one.  The properties that depend on either are stated for the
    inputs that the section on rounding names.

    Failure.  Every [raise] of the source, and every exception a library call
    can throw, is a value of [error]; a function that can fail returns a
    [result].

    Collaborators.  The steam tables ([iapws]) and the refrigerant library
    ([CoolProp]) are not part of the repository: a solver takes the provider
    as an argument, and the Rankine solvers also log the queries they make. *)

From Stdlib Require Import String Reals Lra Lia Bool Arith ZArith List.
Import ListNotations.
Local Open Scope R_scope.

(** ** Errors and the result monad *)

Inductive error : Type :=
| ValueError (msg : string)      (* raise ValueError(msg), also raised by pandas *)
| ZeroDivisionError              (* float division by zero *)
| IndexError                     (* .iloc[0] on an empty selection *)
| ProviderError.                 (* exception thrown by a property library *)

Inductive result (A : Type) : Type :=
| Ok (a : A)
| Err (e : error).
Arguments Ok {A} a.
Arguments Err {A} e.

Definition bind {A B : Type} (m : result A) (k : A -> result B) : result B :=
  match m with
  | Ok a => k a
  | Err e => Err e
  end.

Declare Scope result_scope.
Delimit Scope result_scope with result.
Notation "x <- m ;; k" := (bind m (fun x => k))
  (at level 61, m at next level, right associativity) : result_scope.
Notation "' pat <- m ;; k" := (bind m (fun x => match x with pat => k end))
  (at level 61, pat pattern, m at next level, right associativity) : result_scope.
Local Open Scope result_scope.


(** ** Float primitives *)

(** [x / y] on two Python floats. *)
Definition fdiv (x y : R) : result R :=
  if Req_dec_T y 0 then Err ZeroDivisionError else Ok (x / y).

(** [x ** y] for a positive base [x], as long as the power stays in the
    range of binary64. *)
Definition fpow (x y : R) : R := Rpower x y.

(** [np.linspace(a, b, n)]: [n] evenly spaced samples, [step = (b - a) / (n - 1)],
    the samples are [a + i * step] and the last one is overwritten by [b]. *)
Definition linspace (a b : R) (n : nat) : list R :=
  match n with
  | O => []
  | S O => [a]
  | S (S m) =>
      map (fun i => a + INR i * ((b - a) / INR (S m))) (seq 0 (S m)) ++ [b]
  end.

(** [np.full_like(arr, x)]. *)
Definition full_like (arr : list R) (x : R) : list R :=
  map (fun _ => x) arr.

(** ** core/process_paths.py: the process laws *)

(** The table a process law returns: one list per column. *)
Record path_df : Type := mk_path_df {
  P_kPa : list R;
  v_m3_per_kg : list R;
  T_K : list R;
  s_kJ_per_kgK : list R
}.

Definition nrows (df : path_df) : nat := length (P_kPa df).

Definition _cv_from_gamma_R (gamma Rgas : R) : result (R * R) :=
  cv <- fdiv Rgas (gamma - 1) ;;
  let cp := gamma * cv in
  Ok (cp, cv).

Definition path_isentropic_ideal
    (Pa Va Ta Pb Vb gamma Rgas : R) (n : nat) (s_a : R) : path_df :=
  let V := linspace Va Vb n in
  let Cpv := Pa * fpow Va gamma in
  let P := map (fun v => Cpv / fpow v gamma) V in
  let T := map (fun v => Ta * fpow (Va / v) (gamma - 1)) V in
  let s := full_like T s_a in
  mk_path_df P V T s.

Definition path_const_v_ideal
    (Vconst Ta Tb Rgas : R) (n : nat) (s_a gamma : R) : result path_df :=
  ' (cp, cv) <- _cv_from_gamma_R gamma Rgas ;;
  let T := linspace Ta Tb n in
  let P := map (fun t => (Rgas * t) / Vconst) T in
  let s := map (fun t => s_a + cv * ln (t / Ta)) T in
  let V := full_like T Vconst in
  Ok (mk_path_df P V T s).

Definition path_const_p_ideal
    (Pconst Ta Tb Rgas : R) (n : nat) (s_a gamma : R) : result path_df :=
  ' (cp, cv) <- _cv_from_gamma_R gamma Rgas ;;
  let T := linspace Ta Tb n in
  let V := map (fun t => (Rgas * t) / Pconst) T in
  let s := map (fun t => s_a + cp * ln (t / Ta)) T in
  let P := full_like T Pconst in
  Ok (mk_path_df P V T s).

Definition path_isothermal_ideal
    (Tconst Va Vb Rgas : R) (n : nat) (s_a : R) : path_df :=
  let V := linspace Va Vb n in
  let P := map (fun v => (Rgas * Tconst) / v) V in
  let s := map (fun v => s_a + Rgas * ln (v / Va)) V in
  let T := full_like V Tconst in
  mk_path_df P V T s.

(** ** core/process_paths.py: the path sampler *)

(** One row of a solver's state table.  [cell_s] and [cell_s_rel] are the
    cells under the columns [s_kJ_per_kgK] and [s_rel_kJ_per_kgK]; a cell is
    read only when the table has the column. *)
Record state_row : Type := mk_state_row {
  State : Z;
  cell_P_kPa : R;
  cell_T_K : R;
  cell_v_m3_per_kg : R;
  cell_s : R;
  cell_s_rel : R
}.

(** A state table: which entropy columns it has, and its rows. *)
Record states_df : Type := mk_states_df {
  has_s_kJ_per_kgK : bool;
  has_s_rel_kJ_per_kgK : bool;
  rows : list state_row
}.

(** The path sampler's result: the samples and the name of the entropy column. *)
Record sampled_path : Type := mk_sampled_path {
  samples : path_df;
  entropy_column : string
}.

Definition leg : Type := (string * Z * Z)%type.

(** [choose entropy column name that exists] *)
Definition choose_scol (states : states_df) : option string :=
  if has_s_kJ_per_kgK states then Some "s_kJ_per_kgK"%string
  else if has_s_rel_kJ_per_kgK states then Some "s_rel_kJ_per_kgK"%string
  else None.

(** [a[scol]] *)
Definition entropy_cell (a : state_row) (scol : string) : R :=
  if (scol =? "s_kJ_per_kgK")%string then cell_s a else cell_s_rel a.

(** [states_df.loc[states_df["State"] == k].iloc[0]] *)
Definition row (states : states_df) (k : Z) : result state_row :=
  match find (fun r => Z.eqb (State r) k) (rows states) with
  | Some r => Ok r
  | None => Err IndexError
  end.

(** [float(a[scol]) if scol else 0.0] *)
Definition entropy_anchor (scol : option string) (a : state_row) : R :=
  match scol with
  | Some c => entropy_cell a c
  | None => 0
  end.

(** The body of the loop of [smooth_path_ideal] up to the dispatch: the
    segment [seg] of one leg, before its first point is dropped. *)
Definition leg_segment (states : states_df) (scol : option string)
    (gamma Rgas : R) (l : leg) : result path_df :=
  let '(kind, i, j) := l in
  a <- row states i ;;
  b <- row states j ;;
  let s_a := entropy_anchor scol a in
  if (kind =? "isen")%string then
    Ok (path_isentropic_ideal (cell_P_kPa a) (cell_v_m3_per_kg a) (cell_T_K a)
          (cell_P_kPa b) (cell_v_m3_per_kg b) gamma Rgas 90 s_a)
  else if (kind =? "cv")%string then
    path_const_v_ideal (cell_v_m3_per_kg a) (cell_T_K a) (cell_T_K b)
      Rgas 70 s_a gamma
  else if (kind =? "cp")%string then
    path_const_p_ideal (cell_P_kPa a) (cell_T_K a) (cell_T_K b)
      Rgas 70 s_a gamma
  else if (kind =? "isoth")%string then
    Ok (path_isothermal_ideal (cell_T_K a) (cell_v_m3_per_kg a)
          (cell_v_m3_per_kg b) Rgas 90 s_a)
  else Err (ValueError ("Unknown leg kind: " ++ kind)).

(** [seg.iloc[1:]] *)
Definition iloc_from_1 (seg : path_df) : path_df :=
  mk_path_df (tl (P_kPa seg)) (tl (v_m3_per_kg seg)) (tl (T_K seg))
    (tl (s_kJ_per_kgK seg)).

(** The loop [for idx, leg in enumerate(legs)], started at index [idx] with
    the segments [out] collected so far. *)
Fixpoint sample_legs (states : states_df) (scol : option string)
    (gamma Rgas : R) (idx : nat) (legs : list leg) (out : list path_df)
    : result (list path_df) :=
  match legs with
  | [] => Ok out
  | l :: rest =>
      seg <- leg_segment states scol gamma Rgas l ;;
      let seg := if (0 <? idx)%nat then iloc_from_1 seg else seg in
      sample_legs states scol gamma Rgas (S idx) rest (out ++ [seg])
  end.

(** [pd.concat(out, ignore_index=True)] *)
Definition pd_concat (out : list path_df) : result path_df :=
  match out with
  | [] => Err (ValueError "No objects to concatenate")
  | _ :: _ =>
      Ok (mk_path_df (concat (map P_kPa out)) (concat (map v_m3_per_kg out))
            (concat (map T_K out)) (concat (map s_kJ_per_kgK out)))
  end.

Definition smooth_path_ideal (states : states_df) (legs : list leg)
    (gamma Rgas : R) : result sampled_path :=
  let scol := choose_scol states in
  out <- sample_legs states scol gamma Rgas 0 legs [] ;;
  df <- pd_concat out ;;
  match scol with
  | Some c =>
      if negb (c =? "s_kJ_per_kgK")%string
      then Ok (mk_sampled_path df c)
      else Ok (mk_sampled_path df "s_kJ_per_kgK")
  | None => Ok (mk_sampled_path df "s_kJ_per_kgK")
  end.

(** ** cycles/: the air-standard solvers *)

(** A row of a table whose entropy column is [s_rel_kJ_per_kgK]. *)
Definition rel_row (k : Z) (P T v s : R) : state_row :=
  mk_state_row k P T v 0 s.

(** A row of a table whose entropy column is [s_kJ_per_kgK]. *)
Definition abs_row (k : Z) (P T v s : R) : state_row :=
  mk_state_row k P T v s 0.

(** *** cycles/carnot.py *)

Inductive carnot_metrics : Type :=
| Heat_engine (Q_in_kJ_per_kg Q_out_kJ_per_kg W_net_kJ_per_kg eta_th : R)
| Refrigerator (Q_cold_kJ_per_kg W_in_kJ_per_kg COP_R : R)
| Heat_pump (Q_hot_kJ_per_kg W_in_kJ_per_kg COP_HP : R).

Definition carnot_cycle (Th_K Tc_K delta_s_kJkgK : R) (mode : string)
    (gamma R_kJkgK v1 : R) : result (states_df * carnot_metrics) :=
  if Rle_dec Th_K Tc_K then Err (ValueError "Th must be > Tc for Carnot cycle.")
  else if Rle_dec delta_s_kJkgK 0 then Err (ValueError "Δs must be > 0")
  else
    let s1 := 0 in
    let s2 := delta_s_kJkgK in
    e <- fdiv delta_s_kJkgK R_kJkgK ;;
    let v2 := v1 * exp e in
    t <- fdiv Th_K Tc_K ;;
    q <- fdiv 1 (gamma - 1) ;;
    let factor := fpow t q in
    let v3 := v2 * factor in
    let v4 := v1 * factor in
    P1 <- fdiv (R_kJkgK * Th_K) v1 ;;
    let P2 := (R_kJkgK * Th_K) / v2 in
    let P3 := (R_kJkgK * Tc_K) / v3 in
    P4 <- fdiv (R_kJkgK * Tc_K) v4 ;;
    let states := mk_states_df true false
      [abs_row 1 P1 Th_K v1 s1; abs_row 2 P2 Th_K v2 s2;
       abs_row 3 P3 Tc_K v3 s2; abs_row 4 P4 Tc_K v4 s1] in
    let Qh := Th_K * (s2 - s1) in
    let Qc := Tc_K * (s2 - s1) in
    let Wnet := Qh - Qc in
    if (mode =? "engine")%string then
      eta <- (x <- fdiv Tc_K Th_K ;; Ok (1 - x)) ;;
      Ok (states, Heat_engine Qh Qc Wnet eta)
    else if (mode =? "refrigerator")%string then
      cop <- fdiv Qc Wnet ;;
      Ok (states, Refrigerator Qc Wnet cop)
    else if (mode =? "heat_pump")%string then
      cop <- fdiv Qh Wnet ;;
      Ok (states, Heat_pump Qh Wnet cop)
    else Err (ValueError "mode must be one of: engine, refrigerator, heat_pump").

(** *** cycles/brayton.py *)

Record brayton_metrics : Type := mk_brayton_metrics {
  brayton_Wc_kJ_per_kg : R;
  brayton_Wt_kJ_per_kg : R;
  brayton_Wnet_kJ_per_kg : R;
  brayton_Qin_kJ_per_kg : R;
  brayton_eta_th : R;
  brayton_back_work_ratio : R
}.

(** The solver's locals: the metrics record carries what the returned
    dictionary holds, [brayton_locals] adds the rejected heat [Qout], which
    the function computes and does not return. *)
Record brayton_locals : Type := mk_brayton_locals {
  brayton_states : states_df;
  brayton_returned : brayton_metrics;
  brayton_Qout : R
}.

Definition brayton_body (P1_kPa T1_K rp T3_K gamma cp_kJkgK R_kJkgK : R)
    : result brayton_locals :=
  if Rle_dec rp 1 then Err (ValueError "Pressure ratio rp must be > 1")
  else
    let P2 := P1_kPa * rp in
    let P3 := P2 in
    let P4 := P1_kPa in
    exp_ <- fdiv (gamma - 1) gamma ;;
    let T2 := T1_K * fpow rp exp_ in
    inv_rp <- fdiv 1 rp ;;
    let T4 := T3_K * fpow inv_rp exp_ in
    v1 <- fdiv (R_kJkgK * T1_K) P1_kPa ;;
    v2 <- fdiv (R_kJkgK * T2) P2 ;;
    v3 <- fdiv (R_kJkgK * T3_K) P3 ;;
    v4 <- fdiv (R_kJkgK * T4) P4 ;;
    let s1 := 0 in
    t21 <- fdiv T2 T1_K ;;
    p21 <- fdiv P2 P1_kPa ;;
    let s2 := s1 + cp_kJkgK * ln t21 - R_kJkgK * ln p21 in
    t32 <- fdiv T3_K T2 ;;
    let s3 := s2 + cp_kJkgK * ln t32 in
    t43 <- fdiv T4 T3_K ;;
    p43 <- fdiv P4 P3 ;;
    let s4 := s3 + cp_kJkgK * ln t43 - R_kJkgK * ln p43 in
    let Wc := cp_kJkgK * (T2 - T1_K) in
    let Wt := cp_kJkgK * (T3_K - T4) in
    let Wnet := Wt - Wc in
    let Qin := cp_kJkgK * (T3_K - T2) in
    let Qout := cp_kJkgK * (T4 - T1_K) in
    eta <- (x <- fdiv Qout Qin ;; Ok (1 - x)) ;;
    let states := mk_states_df false true
      [rel_row 1 P1_kPa T1_K v1 s1; rel_row 2 P2 T2 v2 s2;
       rel_row 3 P3 T3_K v3 s3; rel_row 4 P4 T4 v4 s4] in
    bwr <- fdiv Wc Wt ;;
    Ok (mk_brayton_locals states
          (mk_brayton_metrics Wc Wt Wnet Qin eta bwr) Qout).

Definition brayton_ideal (P1_kPa T1_K rp T3_K gamma cp_kJkgK R_kJkgK : R)
    : result (states_df * brayton_metrics) :=
  l <- brayton_body P1_kPa T1_K rp T3_K gamma cp_kJkgK R_kJkgK ;;
  Ok (brayton_states l, brayton_returned l).

(** *** cycles/otto.py *)

Record otto_metrics : Type := mk_otto_metrics {
  otto_eta_th : R;
  otto_Qin_kJ_per_kg : R;
  otto_Qout_kJ_per_kg : R;
  otto_Wnet_kJ_per_kg : R;
  otto_compression_ratio_r : R
}.

Definition otto_cycle (T1_K P1_kPa r T3_K gamma R_kJkgK : R)
    : result (states_df * otto_metrics) :=
  if Rle_dec r 1 then Err (ValueError "Compression ratio r must be > 1")
  else if Rle_dec T3_K T1_K then Err (ValueError "T3 must be > T1")
  else
    cv <- fdiv R_kJkgK (gamma - 1) ;;
    let cp := gamma * cv in
    v1 <- fdiv (R_kJkgK * T1_K) P1_kPa ;;
    v2 <- fdiv v1 r ;;
    let T2 := T1_K * fpow r (gamma - 1) in
    let P2 := P1_kPa * fpow r gamma in
    let v3 := v2 in
    P3 <- fdiv (R_kJkgK * T3_K) v3 ;;
    let v4 := v1 in
    T4 <- fdiv T3_K (fpow r (gamma - 1)) ;;
    P4 <- fdiv P3 (fpow r gamma) ;;
    let Qin := cv * (T3_K - T2) in
    let Qout := cv * (T4 - T1_K) in
    let Wnet := Qin - Qout in
    eta <- (x <- fdiv Qout Qin ;; Ok (1 - x)) ;;
    let s1 := 0 in
    let s2 := s1 in
    t32 <- fdiv T3_K T2 ;;
    let s3 := s2 + cv * ln t32 in
    let s4 := s3 in
    let states := mk_states_df false true
      [rel_row 1 P1_kPa T1_K v1 s1; rel_row 2 P2 T2 v2 s2;
       rel_row 3 P3 T3_K v3 s3; rel_row 4 P4 T4 v4 s4] in
    Ok (states, mk_otto_metrics eta Qin Qout Wnet r).

(** *** cycles/diesel.py *)

Record diesel_metrics : Type := mk_diesel_metrics {
  diesel_eta_th : R;
  diesel_Qin_kJ_per_kg : R;
  diesel_Qout_kJ_per_kg : R;
  diesel_Wnet_kJ_per_kg : R;
  diesel_compression_ratio_r : R;
  diesel_cutoff_ratio_rc : R
}.

Definition diesel_cycle (T1_K P1_kPa r rc gamma R_kJkgK : R)
    : result (states_df * diesel_metrics) :=
  if Rle_dec r 1 then Err (ValueError "Compression ratio r must be > 1")
  else if Rle_dec rc 1 then Err (ValueError "Cutoff ratio rc must be > 1")
  else
    cv <- fdiv R_kJkgK (gamma - 1) ;;
    let cp := gamma * cv in
    v1 <- fdiv (R_kJkgK * T1_K) P1_kPa ;;
    v2 <- fdiv v1 r ;;
    let T2 := T1_K * fpow r (gamma - 1) in
    let P2 := P1_kPa * fpow r gamma in
    let v3 := rc * v2 in
    let T3 := T2 * rc in
    let P3 := P2 in
    let v4 := v1 in
    v34 <- fdiv v3 v4 ;;
    let T4 := T3 * fpow v34 (gamma - 1) in
    let P4 := P3 * fpow v34 gamma in
    let Qin := cp * (T3 - T2) in
    let Qout := cv * (T4 - T1_K) in
    let Wnet := Qin - Qout in
    eta <- (x <- fdiv Qout Qin ;; Ok (1 - x)) ;;
    let s1 := 0 in
    let s2 := s1 in
    t32 <- fdiv T3 T2 ;;
    let s3 := s2 + cp * ln t32 in
    let s4 := s3 in
    let states := mk_states_df false true
      [rel_row 1 P1_kPa T1_K v1 s1; rel_row 2 P2 T2 v2 s2;
       rel_row 3 P3 T3 v3 s3; rel_row 4 P4 T4 v4 s4] in
    Ok (states, mk_diesel_metrics eta Qin Qout Wnet r rc).

(** *** cycles/dual.py *)

Record dual_metrics : Type := mk_dual_metrics {
  dual_eta_th : R;
  dual_Qin_kJ_per_kg : R;
  dual_Qout_kJ_per_kg : R;
  dual_Wnet_kJ_per_kg : R;
  dual_compression_ratio_r : R;
  dual_alpha_P3_over_P2 : R;
  dual_cutoff_ratio_rc : R
}.

Definition dual_cycle (T1_K P1_kPa r alpha rc gamma R_kJkgK : R)
    : result (states_df * dual_metrics) :=
  if Rle_dec r 1 then Err (ValueError "Compression ratio r must be > 1")
  else if Rle_dec alpha 1 then Err (ValueError "alpha (P3/P2) must be > 1")
  else if Rle_dec rc 1 then Err (ValueError "rc (v4/v3) must be > 1")
  else
    cv <- fdiv R_kJkgK (gamma - 1) ;;
    let cp := gamma * cv in
    v1 <- fdiv (R_kJkgK * T1_K) P1_kPa ;;
    v2 <- fdiv v1 r ;;
    let T2 := T1_K * fpow r (gamma - 1) in
    let P2 := P1_kPa * fpow r gamma in
    let P3 := alpha * P2 in
    let T3 := alpha * T2 in
    let v3 := v2 in
    let v4 := rc * v3 in
    let T4 := rc * T3 in
    let P4 := P3 in
    let v5 := v1 in
    v45 <- fdiv v4 v5 ;;
    let T5 := T4 * fpow v45 (gamma - 1) in
    let P5 := P4 * fpow v45 gamma in
    let Qin_cv := cv * (T3 - T2) in
    let Qin_cp := cp * (T4 - T3) in
    let Qin := Qin_cv + Qin_cp in
    let Qout := cv * (T5 - T1_K) in
    let Wnet := Qin - Qout in
    eta <- (x <- fdiv Qout Qin ;; Ok (1 - x)) ;;
    let s1 := 0 in
    let s2 := s1 in
    t32 <- fdiv T3 T2 ;;
    let s3 := s2 + cv * ln t32 in
    t43 <- fdiv T4 T3 ;;
    let s4 := s3 + cp * ln t43 in
    let s5 := s4 in
    let states := mk_states_df false true
      [rel_row 1 P1_kPa T1_K v1 s1; rel_row 2 P2 T2 v2 s2;
       rel_row 3 P3 T3 v3 s3; rel_row 4 P4 T4 v4 s4;
       rel_row 5 P5 T5 v5 s5] in
    Ok (states, mk_dual_metrics eta Qin Qout Wnet r alpha rc).

(** ** cycles/rankine_basic.py and cycles/rankine_reheat.py *)

(** The steam-table library [iapws] is an external collaborator.  A state
    object [IAPWS97(...)] exposes the attributes [h], [s], [T], [v], and a
    quality attribute [x] that may hold a number, hold [None], hold a NaN, or
    fail when it is read.  The constructor itself may raise. *)
Module iapws.

Inductive quality_attr : Type :=
| x_raises
| x_None
| x_nan
| x_value (q : R).

Record IAPWS97 : Type := mk_IAPWS97 {
  h : R;
  s : R;
  T : R;
  v : R;
  x : quality_attr
}.

(** The keyword pairs the solvers construct a state from. *)
Inductive query : Type :=
| P_x (P x : R)
| P_h (P h : R)
| P_T (P T : R)
| P_s (P s : R).

Definition provider : Type := query -> result IAPWS97.

End iapws.

(** Computations that query the provider: the result, and the queries made
    so far, in order. *)
Definition lookups (A : Type) : Type :=
  list iapws.query -> result A * list iapws.query.

Definition retL {A : Type} (a : A) : lookups A := fun log => (Ok a, log).

Definition raiseL {A : Type} (e : error) : lookups A := fun log => (Err e, log).

Definition liftL {A : Type} (m : result A) : lookups A := fun log => (m, log).

Definition bindL {A B : Type} (m : lookups A) (k : A -> lookups B) : lookups B :=
  fun log =>
    match m log with
    | (Ok a, log') => k a log'
    | (Err e, log') => (Err e, log')
    end.

Declare Scope lookups_scope.
Delimit Scope lookups_scope with L.
Notation "x <- m ;; k" := (bindL m (fun x => k))
  (at level 61, m at next level, right associativity) : lookups_scope.
Notation "' pat <- m ;; k" := (bindL m (fun x => match x with pat => k end))
  (at level 61, pat pattern, m at next level, right associativity) : lookups_scope.

(** [IAPWS97(...)]: one query to the provider. *)
Definition IAPWS97 (prov : iapws.provider) (q : iapws.query)
    : lookups iapws.IAPWS97 :=
  fun log => (prov q, log ++ [q]).

(** Run a solver from an empty query log. *)
Definition run {A : Type} (m : lookups A) : result A * list iapws.query := m [].

(** [_safe_quality] (the two Rankine modules define it identically). *)
Definition _safe_quality (st : iapws.IAPWS97) : option R :=
  match iapws.x st with
  | iapws.x_raises => None
  | iapws.x_None => None
  | iapws.x_nan => None
  | iapws.x_value q => Some q
  end.

(** [np.geomspace(a, b, n)]: [10 ** linspace(log10 a, log10 b, n)], with the
    two end points overwritten by [a] and [b]. *)
Definition log10 (y : R) : R := ln y / ln 10.

Definition geomspace (a b : R) (n : nat) : list R :=
  match n with
  | O => []
  | S O => [a]
  | S (S m) =>
      a :: map (fun t => Rpower 10 t)
             (removelast (tl (linspace (log10 a) (log10 b) n))) ++ [b]
  end.

(** A row of a real-fluid state table. *)
Record fluid_row : Type := mk_fluid_row {
  fluid_State : Z;
  fluid_P_kPa : R;
  fluid_T_K : R;
  fluid_h_kJ_per_kg : R;
  fluid_s_kJ_per_kgK : R;
  fluid_v_m3_per_kg : R;
  x_quality : option R
}.

(** The saturation dome table of the Rankine solvers. *)
Record dome_df : Type := mk_dome_df {
  dome_T_K : list R;
  dome_s_f : list R;
  dome_s_g : list R
}.

(** The loop [for P in Ps] that fills [Ts], [sf] and [sg]. *)
Fixpoint dome_loop (prov : iapws.provider) (Ps : list R) (Ts sf sg : list R)
    : lookups dome_df :=
  match Ps with
  | [] => retL (mk_dome_df Ts sf sg)
  | P :: rest =>
      (f <- IAPWS97 prov (iapws.P_x P 0) ;;
       g <- IAPWS97 prov (iapws.P_x P 1) ;;
       dome_loop prov rest (Ts ++ [iapws.T f]) (sf ++ [iapws.s f])
         (sg ++ [iapws.s g]))%L
  end.

Record rankine_metrics : Type := mk_rankine_metrics {
  rankine_wp_kJ_per_kg : R;
  rankine_wt_kJ_per_kg : R;
  rankine_Wnet_kJ_per_kg : R;
  rankine_Qin_kJ_per_kg : R;
  rankine_eta_th : R;
  turbine_exit_quality_x : option R
}.

Definition rankine_ideal (prov : iapws.provider) (Pc_kPa Pb_kPa : R)
    (T3_C : option R) : lookups (list fluid_row * rankine_metrics * dome_df) :=
  if (if Rle_dec Pc_kPa 0 then true else if Rle_dec Pb_kPa 0 then true else false)
  then raiseL (ValueError "Pressures must be > 0")
  else if Rle_dec Pb_kPa Pc_kPa
  then raiseL (ValueError "Boiler pressure must be > condenser pressure")
  else
   (let Pc := Pc_kPa / 1000 in
    let Pb := Pb_kPa / 1000 in
    st1 <- IAPWS97 prov (iapws.P_x Pc 0) ;;
    let h1 := iapws.h st1 in let s1 := iapws.s st1 in
    let T1 := iapws.T st1 in let v1 := iapws.v st1 in
    let dP_kPa := Pb_kPa - Pc_kPa in
    let wp := v1 * dP_kPa in
    let h2 := h1 + wp in
    st2 <- IAPWS97 prov (iapws.P_h Pb h2) ;;
    let T2 := iapws.T st2 in let s2 := iapws.s st2 in let v2 := iapws.v st2 in
    st3 <- match T3_C with
           | None => IAPWS97 prov (iapws.P_x Pb 1)
           | Some t => IAPWS97 prov (iapws.P_T Pb (t + 273.15))
           end ;;
    let h3 := iapws.h st3 in let s3 := iapws.s st3 in
    let T3 := iapws.T st3 in let v3 := iapws.v st3 in
    st4 <- IAPWS97 prov (iapws.P_s Pc s3) ;;
    let h4 := iapws.h st4 in let s4 := iapws.s st4 in
    let T4 := iapws.T st4 in let v4 := iapws.v st4 in
    let wt := h3 - h4 in
    let wnet := wt - wp in
    let qin := h3 - h2 in
    let qout := h4 - h1 in
    eta <- liftL (fdiv wnet qin) ;;
    let states :=
      [mk_fluid_row 1 Pc_kPa T1 h1 s1 v1 (_safe_quality st1);
       mk_fluid_row 2 Pb_kPa T2 h2 s2 v2 (_safe_quality st2);
       mk_fluid_row 3 Pb_kPa T3 h3 s3 v3 (_safe_quality st3);
       mk_fluid_row 4 Pc_kPa T4 h4 s4 v4 (_safe_quality st4)] in
    let metrics :=
      mk_rankine_metrics wp wt wnet qin eta (_safe_quality st4) in
    let Ps := geomspace Pc Pb 80 in
    dome <- dome_loop prov Ps [] [] [] ;;
    retL (states, metrics, dome))%L.

Record reheat_metrics : Type := mk_reheat_metrics {
  reheat_wp_kJ_per_kg : R;
  reheat_wt_hp_kJ_per_kg : R;
  reheat_wt_lp_kJ_per_kg : R;
  reheat_wt_total_kJ_per_kg : R;
  reheat_Wnet_kJ_per_kg : R;
  reheat_Qin_boiler_kJ_per_kg : R;
  reheat_Qin_reheat_kJ_per_kg : R;
  reheat_Qin_total_kJ_per_kg : R;
  reheat_eta_th : R;
  turbine_exit_quality_x6 : option R
}.

Definition rankine_reheat_ideal (prov : iapws.provider)
    (Pc_kPa Pb_kPa Pr_kPa T3_C T5_C : R)
    : lookups (list fluid_row * reheat_metrics * dome_df) :=
  if (if Rle_dec Pc_kPa 0 then true else if Rle_dec Pb_kPa 0 then true
      else if Rle_dec Pr_kPa 0 then true else false)
  then raiseL (ValueError "Pressures must be > 0")
  else if negb (if Rgt_dec Pb_kPa Pr_kPa
                then (if Rgt_dec Pr_kPa Pc_kPa then true else false)
                else false)
  then raiseL (ValueError "Need Pb > Pr > Pc")
  else
   (let Pc := Pc_kPa / 1000 in
    let Pb := Pb_kPa / 1000 in
    let Pr := Pr_kPa / 1000 in
    st1 <- IAPWS97 prov (iapws.P_x Pc 0) ;;
    let h1 := iapws.h st1 in let s1 := iapws.s st1 in
    let T1 := iapws.T st1 in let v1 := iapws.v st1 in
    let wp := v1 * (Pb_kPa - Pc_kPa) in
    let h2 := h1 + wp in
    st2 <- IAPWS97 prov (iapws.P_h Pb h2) ;;
    let T2 := iapws.T st2 in let s2 := iapws.s st2 in let v2 := iapws.v st2 in
    st3 <- IAPWS97 prov (iapws.P_T Pb (T3_C + 273.15)) ;;
    let h3 := iapws.h st3 in let s3 := iapws.s st3 in
    let T3 := iapws.T st3 in let v3 := iapws.v st3 in
    st4 <- IAPWS97 prov (iapws.P_s Pr s3) ;;
    let h4 := iapws.h st4 in let s4 := iapws.s st4 in
    let T4 := iapws.T st4 in let v4 := iapws.v st4 in
    st5 <- IAPWS97 prov (iapws.P_T Pr (T5_C + 273.15)) ;;
    let h5 := iapws.h st5 in let s5 := iapws.s st5 in
    let T5 := iapws.T st5 in let v5 := iapws.v st5 in
    st6 <- IAPWS97 prov (iapws.P_s Pc s5) ;;
    let h6 := iapws.h st6 in let s6 := iapws.s st6 in
    let T6 := iapws.T st6 in let v6 := iapws.v st6 in
    let wt_hp := h3 - h4 in
    let wt_lp := h5 - h6 in
    let wt := wt_hp + wt_lp in
    let wnet := wt - wp in
    let qin_boiler := h3 - h2 in
    let qin_reheat := h5 - h4 in
    let qin_total := qin_boiler + qin_reheat in
    eta <- liftL (fdiv wnet qin_total) ;;
    let states :=
      [mk_fluid_row 1 Pc_kPa T1 h1 s1 v1 (_safe_quality st1);
       mk_fluid_row 2 Pb_kPa T2 h2 s2 v2 (_safe_quality st2);
       mk_fluid_row 3 Pb_kPa T3 h3 s3 v3 (_safe_quality st3);
       mk_fluid_row 4 Pr_kPa T4 h4 s4 v4 (_safe_quality st4);
       mk_fluid_row 5 Pr_kPa T5 h5 s5 v5 (_safe_quality st5);
       mk_fluid_row 6 Pc_kPa T6 h6 s6 v6 (_safe_quality st6)] in
    let metrics :=
      mk_reheat_metrics wp wt_hp wt_lp wt wnet qin_boiler qin_reheat
        qin_total eta (_safe_quality st6) in
    let Ps := geomspace Pc Pb 90 in
    dome <- dome_loop prov Ps [] [] [] ;;
    retL (states, metrics, dome))%L.

(** ** cycles/refrigeration_vcr.py *)

(** The refrigerant library [CoolProp] is an external collaborator.
    [PropsSI out n1 v1 n2 v2 fluid] is the call
    [PropsSI(out, n1, v1, n2, v2, fluid)] for an output other than ["Q"], and
    [PropsSI_Q P H fluid] is [PropsSI("Q", "P", P, "H", H, fluid)], whose
    value may be [None] or a NaN ([None] here).  Either may raise. *)
Record coolprop : Type := mk_coolprop {
  PropsSI : string -> string -> R -> string -> R -> string -> result R;
  PropsSI_Q : R -> R -> string -> result (option R)
}.

Definition _try_quality (cp : coolprop) (fluid : string) (P_Pa H_Jkg : R)
    : option R :=
  match PropsSI_Q cp P_Pa H_Jkg fluid with
  | Ok (Some q) => Some q
  | Ok None => None
  | Err _ => None
  end.

Record vcr_metrics : Type := mk_vcr_metrics {
  vcr_fluid : string;
  vcr_Pe_kPa : R;
  vcr_Pc_kPa : R;
  vcr_pressure_ratio : R;
  vcr_w_comp_kJ_per_kg : R;
  vcr_q_in_kJ_per_kg : R;
  vcr_q_out_kJ_per_kg : R;
  vcr_COP_R : R;
  vcr_x4_quality : option R
}.

(** The saturation-curve table. *)
Record sat_df : Type := mk_sat_df {
  sat_T_K : list R;
  sat_P_kPa : list R;
  sat_h_f : list R;
  sat_h_g : list R;
  sat_s_f : list R;
  sat_s_g : list R
}.

(** The five lists the saturation loop appends to. *)
Record sat_lists : Type := mk_sat_lists {
  Pline : list R;
  hf : list R;
  hg : list R;
  sf : list R;
  sg : list R
}.

(** One iteration of [for T in Tline]: the appends made before the first
    lookup that raises are kept, [except Exception: continue] skips the rest. *)
Definition sat_step (cp : coolprop) (fluid : string) (acc : sat_lists) (T : R)
    : sat_lists :=
  match PropsSI cp "P" "T" T "Q" 0 fluid with
  | Err _ => acc
  | Ok P =>
    let acc := mk_sat_lists (Pline acc ++ [P / 1000]) (hf acc) (hg acc) (sf acc) (sg acc) in
    match PropsSI cp "H" "T" T "Q" 0 fluid with
    | Err _ => acc
    | Ok y =>
      let acc := mk_sat_lists (Pline acc) (hf acc ++ [y / 1000]) (hg acc) (sf acc) (sg acc) in
      match PropsSI cp "H" "T" T "Q" 1 fluid with
      | Err _ => acc
      | Ok y =>
        let acc := mk_sat_lists (Pline acc) (hf acc) (hg acc ++ [y / 1000]) (sf acc) (sg acc) in
        match PropsSI cp "S" "T" T "Q" 0 fluid with
        | Err _ => acc
        | Ok y =>
          let acc := mk_sat_lists (Pline acc) (hf acc) (hg acc) (sf acc ++ [y / 1000]) (sg acc) in
          match PropsSI cp "S" "T" T "Q" 1 fluid with
          | Err _ => acc
          | Ok y =>
            mk_sat_lists (Pline acc) (hf acc) (hg acc) (sf acc) (sg acc ++ [y / 1000])
          end
        end
      end
    end
  end.

Definition sat_loop (cp : coolprop) (fluid : string) (Tline : list R)
    : sat_lists :=
  fold_left (sat_step cp fluid) Tline (mk_sat_lists [] [] [] [] []).

(** [pd.DataFrame({...})] on six columns: pandas refuses columns of
    different lengths. *)
Definition sat_DataFrame (T_K P_kPa h_f h_g s_f s_g : list R) : result sat_df :=
  let n := length T_K in
  if ((length P_kPa =? n) && (length h_f =? n) && (length h_g =? n)
      && (length s_f =? n) && (length s_g =? n))%nat
  then Ok (mk_sat_df T_K P_kPa h_f h_g s_f s_g)
  else Err (ValueError "All arrays must be of the same length").

Definition kPa (P : R) : R := P / 1000.
Definition kJ (H : R) : R := H / 1000.
Definition kJk (S : R) : R := S / 1000.

Definition vcr_ideal (cp : coolprop) (fluid : string)
    (Tevap_C Tcond_C superheat_C subcool_C : R)
    : result (list fluid_row * vcr_metrics * sat_df) :=
  let Te := Tevap_C + 273.15 in
  let Tc := Tcond_C + 273.15 in
  if Rle_dec Tc Te then Err (ValueError "Tcond must be > Tevap")
  else
    Pe <- PropsSI cp "P" "T" Te "Q" 1 fluid ;;
    Pc <- PropsSI cp "P" "T" Tc "Q" 0 fluid ;;
    let T1 := Te + superheat_C in
    H1 <- PropsSI cp "H" "P" Pe "T" T1 fluid ;;
    S1 <- PropsSI cp "S" "P" Pe "T" T1 fluid ;;
    V1 <- PropsSI cp "V" "P" Pe "T" T1 fluid ;;
    let Q1 := _try_quality cp fluid Pe H1 in
    H2 <- PropsSI cp "H" "P" Pc "S" S1 fluid ;;
    T2 <- PropsSI cp "T" "P" Pc "H" H2 fluid ;;
    S2 <- PropsSI cp "S" "P" Pc "H" H2 fluid ;;
    V2 <- PropsSI cp "V" "P" Pc "H" H2 fluid ;;
    let Q2 := _try_quality cp fluid Pc H2 in
    let T3 := Tc - subcool_C in
    H3 <- PropsSI cp "H" "P" Pc "T" T3 fluid ;;
    S3 <- PropsSI cp "S" "P" Pc "T" T3 fluid ;;
    V3 <- PropsSI cp "V" "P" Pc "T" T3 fluid ;;
    let Q3 := _try_quality cp fluid Pc H3 in
    let H4 := H3 in
    T4 <- PropsSI cp "T" "P" Pe "H" H4 fluid ;;
    S4 <- PropsSI cp "S" "P" Pe "H" H4 fluid ;;
    V4 <- PropsSI cp "V" "P" Pe "H" H4 fluid ;;
    let Q4 := _try_quality cp fluid Pe H4 in
    let states :=
      [mk_fluid_row 1 (kPa Pe) T1 (kJ H1) (kJk S1) V1 Q1;
       mk_fluid_row 2 (kPa Pc) T2 (kJ H2) (kJk S2) V2 Q2;
       mk_fluid_row 3 (kPa Pc) T3 (kJ H3) (kJk S3) V3 Q3;
       mk_fluid_row 4 (kPa Pe) T4 (kJ H4) (kJk S4) V4 Q4] in
    let w_comp := kJ (H2 - H1) in
    let q_in := kJ (H1 - H4) in
    let q_out := kJ (H2 - H3) in
    cop_r <- fdiv q_in w_comp ;;
    ratio <- fdiv Pc Pe ;;
    let metrics :=
      mk_vcr_metrics fluid (kPa Pe) (kPa Pc) ratio w_comp q_in q_out cop_r Q4 in
    let Tline := linspace Te Tc 80 in
    let acc := sat_loop cp fluid Tline in
    sat <- sat_DataFrame (firstn (length (Pline acc)) Tline) (Pline acc)
             (hf acc) (hg acc) (sf acc) (sg acc) ;;
    Ok (states, metrics, sat).

(** ** app.py: the air-standard pages *)

(** The leg list [legs] that the Brayton, Otto, Diesel and Dual pages pass
    to the path sampler. *)
Definition page_legs : list leg :=
  [("isen"%string, 1%Z, 2%Z); ("cv"%string, 2%Z, 3%Z);
   ("isen"%string, 3%Z, 4%Z); ("cv"%string, 4%Z, 1%Z)].

(** What a page computes before it draws: the state table and the metrics
    of the solver, called with its default gas constant, and the path
    sampled from the table with [R = 0.287]. *)
Definition brayton_page (P1 T1 rp T3 gamma : R)
    : result (states_df * brayton_metrics * sampled_path) :=
  ' (states, metrics) <- brayton_ideal P1 T1 rp T3 gamma 1.004 0.287 ;;
  path <- smooth_path_ideal states page_legs gamma 0.287 ;;
  Ok (states, metrics, path).

Definition otto_page (P1 T1 r T3 gamma : R)
    : result (states_df * otto_metrics * sampled_path) :=
  ' (states, metrics) <- otto_cycle T1 P1 r T3 gamma 0.287 ;;
  path <- smooth_path_ideal states page_legs gamma 0.287 ;;
  Ok (states, metrics, path).

Definition diesel_page (P1 T1 r rc gamma : R)
    : result (states_df * diesel_metrics * sampled_path) :=
  ' (states, metrics) <- diesel_cycle T1 P1 r rc gamma 0.287 ;;
  path <- smooth_path_ideal states page_legs gamma 0.287 ;;
  Ok (states, metrics, path).

Definition dual_page (P1 T1 r alpha rc gamma : R)
    : result (states_df * dual_metrics * sampled_path) :=
  ' (states, metrics) <- dual_cycle T1 P1 r alpha rc gamma 0.287 ;;
  path <- smooth_path_ideal states page_legs gamma 0.287 ;;
  Ok (states, metrics, path).

(** ** Notions used to state the properties *)

Definition leg_kind (l : leg) : string := fst (fst l).
Definition leg_start (l : leg) : Z := snd (fst l).
Definition leg_end (l : leg) : Z := snd l.

(** The four kinds the dispatch of [smooth_path_ideal] knows. *)
Definition recognized (kind : string) : bool :=
  ((kind =? "isen") || (kind =? "cv") || (kind =? "cp") || (kind =? "isoth"))%string.

(** The "unsupported process" error, [ValueError(f"Unknown leg kind: {kind}")]. *)
Definition unsupported_process (e : error) : Prop :=
  exists kind : string, e = ValueError ("Unknown leg kind: " ++ kind).

(** Both labels of a leg name a row of the table. *)
Definition resolves (states : states_df) (l : leg) : Prop :=
  (exists a, row states (leg_start l) = Ok a) /\
  (exists b, row states (leg_end l) = Ok b).

(** The segments as the loop collects them: the first one whole, every
    later one without its first row. *)
Definition deduplicated (segs : list path_df) : list path_df :=
  match segs with
  | [] => []
  | seg :: rest => seg :: map iloc_from_1 rest
  end.

(** Every column of a table has [n] entries. *)
Definition has_rows (df : path_df) (n : nat) : Prop :=
  length (P_kPa df) = n /\ length (v_m3_per_kg df) = n /\
  length (T_K df) = n /\ length (s_kJ_per_kgK df) = n.

(** The first row of a table is [(P, v, T, s)]. *)
Definition first_sample (df : path_df) (P v T s : R) : Prop :=
  exists Ps vs Ts ss,
    P_kPa df = P :: Ps /\ v_m3_per_kg df = v :: vs /\
    T_K df = T :: Ts /\ s_kJ_per_kgK df = s :: ss.

(** A state point with positive pressure, volume and temperature. *)
Definition positive_state (a : state_row) : Prop :=
  0 < cell_P_kPa a /\ 0 < cell_v_m3_per_kg a /\ 0 < cell_T_K a.

(** A state point on the ideal-gas law [P v = R T]. *)
Definition on_ideal_gas_law (Rgas : R) (a : state_row) : Prop :=
  cell_P_kPa a * cell_v_m3_per_kg a = Rgas * cell_T_K a.

(** The reading of the anchor rule with a running entropy: the anchor of
    each leg after the first is the entropy of the last sample of the leg
    before it. *)
Definition anchor_carried_forward (states : states_df) (legs : list leg)
    (gamma Rgas : R) : Prop :=
  forall idx l1 l2 seg1 a2,
    nth_error legs idx = Some l1 ->
    nth_error legs (S idx) = Some l2 ->
    leg_segment states (choose_scol states) gamma Rgas l1 = Ok seg1 ->
    row states (leg_start l2) = Ok a2 ->
    entropy_anchor (choose_scol states) a2 = last (s_kJ_per_kgK seg1) 0.

(** Concrete tables for the examples below. *)
Definition heated_at_constant_volume : states_df :=
  mk_states_df true false
    [mk_state_row 1 100 300 1 0 0; mk_state_row 2 200 600 1 (-1) 0].

Definition off_the_gas_law : states_df :=
  mk_states_df false false [mk_state_row 1 100 300 1 0 0].



(** A stand-in provider for the examples: every query is answered, and only
    a state found from pressure and entropy carries a quality, 0.8. *)
Definition toy_steam : iapws.provider :=
  fun q =>
    match q with
    | iapws.P_x P x => Ok (iapws.mk_IAPWS97 (100 + 2000 * x) (1 + 6 * x) 320 0.001 iapws.x_None)
    | iapws.P_h P h => Ok (iapws.mk_IAPWS97 h 1 321 0.001 iapws.x_None)
    | iapws.P_T P T => Ok (iapws.mk_IAPWS97 3000 7 T 0.03 iapws.x_None)
    | iapws.P_s P s => Ok (iapws.mk_IAPWS97 2000 s 320 10 (iapws.x_value 0.8))
    end.


(** The saturation properties at one grid temperature, in kPa, kJ/kg and
    kJ/(kg K): [(P, h_f, h_g, s_f, s_g)] when the five lookups all succeed. *)
Definition sat_row : Type := (R * R * R * R * R)%type.

Definition sat_properties (cp : coolprop) (fluid : string) (T : R) : option sat_row :=
  match PropsSI cp "P" "T" T "Q" 0 fluid,
        PropsSI cp "H" "T" T "Q" 0 fluid,
        PropsSI cp "H" "T" T "Q" 1 fluid,
        PropsSI cp "S" "T" T "Q" 0 fluid,
        PropsSI cp "S" "T" T "Q" 1 fluid with
  | Ok P, Ok h0, Ok h1, Ok s0, Ok s1 =>
      Some (P / 1000, h0 / 1000, h1 / 1000, s0 / 1000, s1 / 1000)
  | _, _, _, _, _ => None
  end.

Definition lookup_succeeds (cp : coolprop) (fluid : string) (T : R) : bool :=
  match sat_properties cp fluid T with Some _ => true | None => false end.

(** The rows of a saturation table, without the temperature column. *)
Fixpoint zip5 (P h0 h1 s0 s1 : list R) : list sat_row :=
  match P, h0, h1, s0, s1 with
  | p :: P', a :: h0', b :: h1', c :: s0', d :: s1' =>
      (p, a, b, c, d) :: zip5 P' h0' h1' s0' s1'
  | _, _, _, _, _ => []
  end.

Definition sat_rows (sat : sat_df) : list sat_row :=
  zip5 (sat_P_kPa sat) (sat_h_f sat) (sat_h_g sat) (sat_s_f sat) (sat_s_g sat).

(** The successful grid points of a list, with their saturation properties. *)
Definition good_rows (cp : coolprop) (fluid : string) (l : list R) : list sat_row :=
  flat_map (fun T => match sat_properties cp fluid T with
                     | Some r => [r]
                     | None => []
                     end) l.

(** A stand-in refrigerant library for the examples: every lookup is
    answered, except the saturation pressure at a temperature in [lo, hi]. *)
Definition toy_refrigerant (lo hi : R) : coolprop :=
  mk_coolprop
    (fun out n1 v1 n2 v2 fluid =>
       if (out =? "P")%string then
         if Rle_dec lo v1 then
           if Rle_dec v1 hi then Err ProviderError else Ok (1000 * v1)
         else Ok (1000 * v1)
       else if (out =? "H")%string then Ok (v1 + 1000 * v2)
       else Ok (v1 + v2))
    (fun P H fluid => Ok None).

(** The five lists after the rows [rows] have been appended to them. *)
Definition append_rows (acc : sat_lists) (rows : list sat_row) : sat_lists :=
  mk_sat_lists
    (Pline acc ++ map (fun r : sat_row => let '(p, _, _, _, _) := r in p) rows)
    (hf acc ++ map (fun r : sat_row => let '(_, a, _, _, _) := r in a) rows)
    (hg acc ++ map (fun r : sat_row => let '(_, _, b, _, _) := r in b) rows)
    (sf acc ++ map (fun r : sat_row => let '(_, _, _, c, _) := r in c) rows)
    (sg acc ++ map (fun r : sat_row => let '(_, _, _, _, d) := r in d) rows).

(** ** Further notions: samples, and what a leg needs to be sampled *)

(** The samples of a path, row by row: [(P, v, T, s)]. *)
Fixpoint zip4 (P v T s : list R) : list (R * R * R * R) :=
  match P, v, T, s with
  | p :: P', x :: v', t :: T', e :: s' => (p, x, t, e) :: zip4 P' v' T' s'
  | _, _, _, _ => []
  end.

Definition path_samples (df : path_df) : list (R * R * R * R) :=
  zip4 (P_kPa df) (v_m3_per_kg df) (T_K df) (s_kJ_per_kgK df).

(** A leg the sampler can sample: its labels resolve, its kind is one of the
    four, and it is not a constant-volume or constant-pressure leg at
    [gamma = 1]. *)
Definition samplable (states : states_df) (gamma : R) (l : leg) : Prop :=
  resolves states l /\
  recognized (leg_kind l) = true /\
  (gamma = 1 -> leg_kind l <> "cv"%string /\ leg_kind l <> "cp"%string).

(** The column-wise tail of a path: the path without its first sample. *)
Definition without_first (df : path_df) : path_df := iloc_from_1 df.

(** Column-wise concatenation of two paths. *)
Definition path_app (p q : path_df) : path_df :=
  mk_path_df (P_kPa p ++ P_kPa q) (v_m3_per_kg p ++ v_m3_per_kg q)
    (T_K p ++ T_K q) (s_kJ_per_kgK p ++ s_kJ_per_kgK q).

(** The queries the dome loop makes over the pressures [Ps], in order. *)
Definition dome_queries (Ps : list R) : list iapws.query :=
  flat_map (fun P => [iapws.P_x P 0; iapws.P_x P 1]) Ps.

(** The dome table built from the saturated-liquid states [fs] and the
    saturated-vapour states [gs]. *)
Definition dome_of (fs gs : list iapws.IAPWS97) : dome_df :=
  mk_dome_df (map iapws.T fs) (map iapws.s fs) (map iapws.s gs).

(** [prov] answers the queries [mk P] for [P] in [Ps] with the states [sts]. *)
Definition answers (prov : iapws.provider) (mk : R -> iapws.query)
    (Ps : list R) (sts : list iapws.IAPWS97) : Prop :=
  Forall2 (fun P st => prov (mk P) = Ok st) Ps sts.

(** The library [cp] with every quality lookup raising. *)
Definition without_Q (cp : coolprop) : coolprop :=
  mk_coolprop (PropsSI cp) (fun _ _ _ => Err ProviderError).

(** A table row with its quality cell emptied. *)
Definition no_quality (r : fluid_row) : fluid_row :=
  mk_fluid_row (fluid_State r) (fluid_P_kPa r) (fluid_T_K r) (fluid_h_kJ_per_kg r)
    (fluid_s_kJ_per_kgK r) (fluid_v_m3_per_kg r) None.

(** A grid temperature at which the saturation pressure is found and one of
    the four lookups after it raises. *)
Definition fails_part_way (cp : coolprop) (fluid : string) (T : R) : Prop :=
  (exists P, PropsSI cp "P" "T" T "Q" 0 fluid = Ok P) /\
  sat_properties cp fluid T = None.

(** A refrigerant library that answers every lookup except the entropy of
    the saturated vapour. *)
Definition toy_without_sg : coolprop :=
  mk_coolprop
    (fun out n1 v1 n2 v2 fluid =>
       if ((out =? "S") && (n2 =? "Q"))%string then
         if Req_dec_T v2 1 then Err ProviderError else Ok (v1 + v2)
       else if (out =? "H")%string then Ok (v1 + 1000 * v2)
       else Ok (v1 + v2))
    (fun P H fluid => Ok None).

(** The metrics with the quality of state 4 emptied. *)
Definition no_x4_quality (m : vcr_metrics) : vcr_metrics :=
  mk_vcr_metrics (vcr_fluid m) (vcr_Pe_kPa m) (vcr_Pc_kPa m) (vcr_pressure_ratio m)
    (vcr_w_comp_kJ_per_kg m) (vcr_q_in_kJ_per_kg m) (vcr_q_out_kJ_per_kg m)
    (vcr_COP_R m) None.

(** A refrigerant library that is down: every lookup raises. *)
Definition coolprop_down : coolprop :=
  mk_coolprop (fun _ _ _ _ _ _ => Err ProviderError) (fun _ _ _ => Err ProviderError).

(** A row of a table with relative entropy, as a sample [(P, v, T, s)]. *)
Definition state_point (a : state_row) : R * R * R * R :=
  (cell_P_kPa a, cell_v_m3_per_kg a, cell_T_K a, cell_s_rel a).

(** The sample at volume [v] of the isentropic leg that starts at [a], and
    the sample at temperature [t] of the constant-volume leg that starts at
    [a], both with the entropy anchor [s_a]. *)
Definition isen_point (a : state_row) (s_a gamma v : R) : R * R * R * R :=
  (cell_P_kPa a * fpow (cell_v_m3_per_kg a) gamma / fpow v gamma, v,
   cell_T_K a * fpow (cell_v_m3_per_kg a / v) (gamma - 1), s_a).

Definition cv_point (a : state_row) (s_a gamma Rgas t : R) : R * R * R * R :=
  (Rgas * t / cell_v_m3_per_kg a, cell_v_m3_per_kg a, t,
   s_a + Rgas / (gamma - 1) * ln (t / cell_T_K a)).

(** ** Where the float computation is within rounding of the real one *)

(** The definitions above compute over the reals.  The code computes in
    binary64: a power of two Python floats raises [OverflowError] when its
    result is out of range and [ZeroDivisionError] for a zero base under a
    negative exponent; a sum, product or quotient that leaves the range
    becomes an infinity or a zero without raising; and the difference of two
    nearly equal values loses its leading digits.  A property that says that
    no further error occurs, or that a computed number has a closed form, is
    stated for inputs on which none of this happens.  The predicates below
    name these inputs. *)

(** A positive number of moderate magnitude. *)
Definition moderate (x : R) : Prop := 1 / 1000000 <= x <= 1000000.

(** An exponent under which the power of a moderate base stays far inside
    the range of binary64. *)
Definition small_exponent (y : R) : Prop := -10 <= y <= 10.

(** [b] lies at least one percent above [a]: for a positive [a] the
    difference [b - a] keeps its digits. *)
Definition clear_above (a b : R) : Prop := 1.01 * a <= b.

(** The power [Va ** gamma] of an isentropic leg is a power of two Python
    floats; it is in range on a leg that starts at a moderate volume, under
    a small exponent. *)
Definition isentropic_power_in_range (states : states_df) (gamma : R) (l : leg)
    : Prop :=
  leg_kind l = "isen"%string ->
  small_exponent gamma /\
  forall a, row states (leg_start l) = Ok a -> moderate (cell_v_m3_per_kg a).


(** Inputs of the Brayton solver of moderate magnitude, with the pressure
    ratio and [gamma] clear above 1 and the turbine-inlet temperature clear
    above the compressor-exit temperature. *)
Definition brayton_in_range (T1 rp T3 gamma cp : R) : Prop :=
  moderate T1 /\ moderate T3 /\ moderate cp /\
  clear_above 1 rp /\ rp <= 1000000 /\ clear_above 1 gamma /\ gamma <= 10 /\
  clear_above (T1 * fpow rp ((gamma - 1) / gamma)) T3.

(** Inputs of the Diesel and of the Dual solver of moderate magnitude, with
    the cutoff ratio (and the pressure ratio [alpha]) clear above 1 and
    [gamma] at least 1. *)
Definition diesel_in_range (T1 P1 r rc gamma Rg : R) : Prop :=
  moderate T1 /\ moderate P1 /\ moderate Rg /\ r <= 1000000 /\
  clear_above 1 rc /\ rc <= 1000000 /\ 1 <= gamma <= 10.

Definition dual_in_range (T1 P1 r alpha rc gamma Rg : R) : Prop :=
  diesel_in_range T1 P1 r rc gamma Rg /\ clear_above 1 alpha /\ alpha <= 1000000.

(** The power [(Th / Tc) ** (1 / (gamma - 1))] of the Carnot solver is in
    range for a temperature ratio of at most 100 under a [gamma] clear
    above 1. *)
Definition carnot_power_in_range (Th Tc gamma : R) : Prop :=
  0 < Tc /\ Th <= 100 * Tc /\ clear_above 1 gamma.

(** Inputs of the Carnot solver of moderate magnitude, with the hot
    temperature clear above the cold one. *)
Definition carnot_in_range (Th Tc ds gamma : R) : Prop :=
  moderate Tc /\ moderate ds /\ clear_above Tc Th /\
  carnot_power_in_range Th Tc gamma.

(** The sample count of a leg: the [n] its process law is called with. *)
Definition leg_samples (l : leg) : nat :=
  if ((leg_kind l =? "isen") || (leg_kind l =? "isoth"))%string then 90 else 70.

(** * Properties *)

(** ** Float primitives and the result monad *)

Lemma fdiv_ok (x y : R) : y <> 0 -> fdiv x y = Ok (x / y).
Proof.
  intro Hy. unfold fdiv. destruct (Req_dec_T y 0) as [E | _]; [contradiction | reflexivity].
Qed.

Lemma fdiv_inv (x y z : R) : fdiv x y = Ok z -> y <> 0 /\ z = x / y.
Proof.
  unfold fdiv. destruct (Req_dec_T y 0) as [E | N]; intro H.
  - discriminate H.
  - injection H as <-. split; [exact N | reflexivity].
Qed.

Lemma fdiv_err (x y : R) (e : error) : fdiv x y = Err e -> e = ZeroDivisionError /\ y = 0.
Proof.
  unfold fdiv. destruct (Req_dec_T y 0) as [E | N]; intro H.
  - injection H as <-. split; [reflexivity | exact E].
  - discriminate H.
Qed.

Lemma bind_ok {A B : Type} (m : result A) (k : A -> result B) (b : B) :
  bind m k = Ok b -> exists a, m = Ok a /\ k a = Ok b.
Proof.
  destruct m as [a | e]; simpl; intro H; [exists a; split; [reflexivity | exact H] | discriminate H].
Qed.

(** ** [linspace] *)

Lemma linspace_length (a b : R) (n : nat) : length (linspace a b n) = n.
Proof.
  destruct n as [| [| m]]; simpl; try reflexivity.
  rewrite length_app, length_map, length_seq. simpl. lia.
Qed.

Lemma full_like_length (l : list R) (x : R) : length (full_like l x) = length l.
Proof. apply length_map. Qed.

Lemma full_like_all (l : list R) (x : R) : Forall (fun y => y = x) (full_like l x).
Proof.
  unfold full_like. induction l as [| y l IH]; simpl; constructor; [reflexivity | exact IH].
Qed.

(** ** The process laws (C5) *)

Lemma path_const_v_ideal_inv Vconst Ta Tb Rgas n s_a gamma df :
  path_const_v_ideal Vconst Ta Tb Rgas n s_a gamma = Ok df ->
  gamma - 1 <> 0 /\
  df = mk_path_df (map (fun t => (Rgas * t) / Vconst) (linspace Ta Tb n))
         (full_like (linspace Ta Tb n) Vconst)
         (linspace Ta Tb n)
         (map (fun t => s_a + (Rgas / (gamma - 1)) * ln (t / Ta)) (linspace Ta Tb n)).
Proof.
  unfold path_const_v_ideal, _cv_from_gamma_R. intro H.
  destruct (fdiv Rgas (gamma - 1)) as [cv | e] eqn:E; simpl in H; [| discriminate H].
  apply fdiv_inv in E. destruct E as [Hg ->].
  injection H as <-. split; [exact Hg | reflexivity].
Qed.

Lemma path_const_p_ideal_inv Pconst Ta Tb Rgas n s_a gamma df :
  path_const_p_ideal Pconst Ta Tb Rgas n s_a gamma = Ok df ->
  gamma - 1 <> 0 /\
  df = mk_path_df (full_like (linspace Ta Tb n) Pconst)
         (map (fun t => (Rgas * t) / Pconst) (linspace Ta Tb n))
         (linspace Ta Tb n)
         (map (fun t => s_a + (gamma * (Rgas / (gamma - 1))) * ln (t / Ta))
              (linspace Ta Tb n)).
Proof.
  unfold path_const_p_ideal, _cv_from_gamma_R. intro H.
  destruct (fdiv Rgas (gamma - 1)) as [cv | e] eqn:E; simpl in H; [| discriminate H].
  apply fdiv_inv in E. destruct E as [Hg ->].
  injection H as <-. split; [exact Hg | reflexivity].
Qed.

Lemma path_const_v_ideal_ok Vconst Ta Tb Rgas n s_a gamma :
  gamma <> 1 -> exists df, path_const_v_ideal Vconst Ta Tb Rgas n s_a gamma = Ok df.
Proof.
  intro Hg. unfold path_const_v_ideal, _cv_from_gamma_R.
  rewrite fdiv_ok by lra. simpl. eexists; reflexivity.
Qed.

Lemma path_const_p_ideal_ok Pconst Ta Tb Rgas n s_a gamma :
  gamma <> 1 -> exists df, path_const_p_ideal Pconst Ta Tb Rgas n s_a gamma = Ok df.
Proof.
  intro Hg. unfold path_const_p_ideal, _cv_from_gamma_R.
  rewrite fdiv_ok by lra. simpl. eexists; reflexivity.
Qed.

(** C5.  On every process-law leg the held quantity has the same value at
    each of the leg's [n] samples: the entropy column of an isentropic leg is
    [s_a] throughout, the volume column of a constant-volume leg is [Vconst],
    the pressure column of a constant-pressure leg is [Pconst], and the
    temperature column of an isothermal leg is [Tconst]. *)
Theorem process_law_holds_its_quantity_fixed :
  (forall Pa Va Ta Pb Vb gamma Rgas n s_a,
      let df := path_isentropic_ideal Pa Va Ta Pb Vb gamma Rgas n s_a in
      length (s_kJ_per_kgK df) = n /\
      Forall (fun s => s = s_a) (s_kJ_per_kgK df)) /\
  (forall Vconst Ta Tb Rgas n s_a gamma df,
      path_const_v_ideal Vconst Ta Tb Rgas n s_a gamma = Ok df ->
      length (v_m3_per_kg df) = n /\
      Forall (fun v => v = Vconst) (v_m3_per_kg df)) /\
  (forall Pconst Ta Tb Rgas n s_a gamma df,
      path_const_p_ideal Pconst Ta Tb Rgas n s_a gamma = Ok df ->
      length (P_kPa df) = n /\
      Forall (fun p => p = Pconst) (P_kPa df)) /\
  (forall Tconst Va Vb Rgas n s_a,
      let df := path_isothermal_ideal Tconst Va Vb Rgas n s_a in
      length (T_K df) = n /\
      Forall (fun t => t = Tconst) (T_K df)).
Proof.
  repeat split.
  - simpl. now rewrite full_like_length, length_map, linspace_length.
  - simpl. apply full_like_all.
  - apply path_const_v_ideal_inv in H. destruct H as [_ ->]. simpl.
    now rewrite full_like_length, linspace_length.
  - apply path_const_v_ideal_inv in H. destruct H as [_ ->]. simpl.
    apply full_like_all.
  - apply path_const_p_ideal_inv in H. destruct H as [_ ->]. simpl.
    now rewrite full_like_length, linspace_length.
  - apply path_const_p_ideal_inv in H. destruct H as [_ ->]. simpl.
    apply full_like_all.
  - simpl. now rewrite full_like_length, linspace_length.
  - simpl. apply full_like_all.
Qed.

Lemma process_law_holds_its_quantity_fixed_witness :
  (exists df, path_const_v_ideal 1 300 600 0.287 70 0 1.4 = Ok df /\
              length (v_m3_per_kg df) = 70%nat /\
              Forall (fun v => v = 1) (v_m3_per_kg df)) /\
  (exists df, path_const_p_ideal 100 300 600 0.287 70 0 1.4 = Ok df /\
              length (P_kPa df) = 70%nat /\
              Forall (fun p => p = 100) (P_kPa df)).
Proof.
  split.
  - destruct (path_const_v_ideal_ok 1 300 600 0.287 70 0 1.4) as [df E]; [lra |].
    exists df. split; [exact E |].
    exact (proj1 (proj2 process_law_holds_its_quantity_fixed) _ _ _ _ _ _ _ _ E).
  - destruct (path_const_p_ideal_ok 100 300 600 0.287 70 0 1.4) as [df E]; [lra |].
    exists df. split; [exact E |].
    exact (proj1 (proj2 (proj2 process_law_holds_its_quantity_fixed)) _ _ _ _ _ _ _ _ E).
Defined.

(** ** Inverting a successful run *)

(** [unbind H] takes [H : m = Ok _], with [m] a chain of binds, apart: every
    division on the way leaves its quotient in place and the fact that its
    divisor is not zero in the context. *)
Ltac unbind H :=
  cbv beta zeta in H;
  lazymatch type of H with
  | bind (fdiv _ _) _ = Ok _ =>
      let x := fresh "x" in
      let Hx := fresh "Hx" in
      let Hn := fresh "Hnz" in
      apply bind_ok in H; destruct H as (x & Hx & H);
      apply fdiv_inv in Hx; destruct Hx as [Hn Hx]; subst x;
      unbind H
  | bind _ _ = Ok _ =>
      let x := fresh "x" in
      let Hx := fresh "Hx" in
      apply bind_ok in H; destruct H as (x & Hx & H);
      unbind Hx; unbind H
  | Ok _ = Ok _ => inversion H; subst; clear H
  | _ => idtac
  end.

(** Facts that keep divisors away from zero. *)
Lemma fpow_pos (x y : R) : 0 < fpow x y.
Proof. unfold fpow, Rpower. apply exp_pos. Qed.

Lemma fpow_neq_0 (x y : R) : fpow x y <> 0.
Proof. pose proof (fpow_pos x y). lra. Qed.

Lemma Rdiv_neq_0 (a b : R) : a <> 0 -> b <> 0 -> a / b <> 0.
Proof.
  intros Ha Hb. unfold Rdiv. apply Rmult_integral_contrapositive_currified.
  - exact Ha.
  - now apply Rinv_neq_0_compat.
Qed.

Lemma Rmult_neq_0 (a b : R) : a <> 0 -> b <> 0 -> a * b <> 0.
Proof. apply Rmult_integral_contrapositive_currified. Qed.

Lemma Rminus_neq_0 (a b : R) : a <> b -> a - b <> 0.
Proof. lra. Qed.

Lemma Rmult_neq_0_l (a b : R) : a * b <> 0 -> a <> 0.
Proof. intros H E. apply H. rewrite E. ring. Qed.

Lemma Rmult_neq_0_r (a b : R) : a * b <> 0 -> b <> 0.
Proof. intros H E. apply H. rewrite E. ring. Qed.

Lemma Rdiv_neq_0_num (a b : R) : a / b <> 0 -> a <> 0.
Proof. intros H E. apply H. rewrite E. unfold Rdiv. ring. Qed.

Create HintDb nonzero.
#[local] Hint Resolve fpow_neq_0 Rdiv_neq_0 Rmult_neq_0 Rminus_neq_0 : nonzero.
#[local] Hint Extern 1 (_ <> _) => lra : nonzero.


Lemma fpow_1_r (x : R) : 0 < x -> fpow x 1 = x.
Proof. intro H. unfold fpow. now apply Rpower_1. Qed.

Lemma fpow_plus (x y z : R) : fpow x (y + z) = fpow x y * fpow x z.
Proof. unfold fpow. apply Rpower_plus. Qed.

Lemma fpow_succ (x y : R) : 0 < x -> fpow x y = x * fpow x (y - 1).
Proof.
  intro H. replace y with (1 + (y - 1)) at 1 by ring.
  rewrite fpow_plus, fpow_1_r by exact H. reflexivity.
Qed.

Lemma fpow_inv (x y : R) : 0 < x -> fpow (/ x) y = / fpow x y.
Proof.
  intro H. unfold fpow, Rpower. rewrite ln_Rinv by exact H.
  replace (y * - ln x) with (- (y * ln x)) by ring. apply exp_Ropp.
Qed.

Lemma fpow_mult (x y z : R) : 0 < x -> 0 < y -> fpow (x * y) z = fpow x z * fpow y z.
Proof. intros Hx Hy. unfold fpow. symmetry. now apply Rpower_mult_distr. Qed.

Lemma fpow_div (x y z : R) : 0 < x -> 0 < y -> fpow (x / y) z = fpow x z / fpow y z.
Proof.
  intros Hx Hy. unfold Rdiv. rewrite fpow_mult, fpow_inv; auto.
  now apply Rinv_0_lt_compat.
Qed.

Lemma ln_fpow (x y : R) : ln (fpow x y) = y * ln x.
Proof. unfold fpow, Rpower. apply ln_exp. Qed.

Lemma fpow_gt_1 (x y : R) : 1 < x -> 0 < y -> 1 < fpow x y.
Proof.
  intros Hx Hy. unfold fpow. rewrite <- (Rpower_O x) by lra.
  apply Rpower_lt; assumption.
Qed.


Lemma ln_pos (x : R) : 1 < x -> 0 < ln x.
Proof. intro H. rewrite <- ln_1. apply ln_increasing; lra. Qed.

Lemma fpow_recip (x y : R) : 0 < x -> fpow (1 / x) y = / fpow x y.
Proof. intro H. unfold Rdiv. rewrite Rmult_1_l. now apply fpow_inv. Qed.

(** [8 ** 0.4 < 3], through [8 ** 0.4 < 8 ** 0.5 = sqrt 8 < sqrt 9]. *)
Lemma fpow_8_04_lt_3 : fpow 8 (1.4 - 1) < 3.
Proof.
  unfold fpow. apply Rlt_trans with (Rpower 8 (/ 2)).
  - apply Rpower_lt; lra.
  - rewrite Rpower_sqrt by lra.
    replace 3 with (sqrt 9).
    + apply sqrt_lt_1; lra.
    + replace 9 with (3 * 3) by lra. apply sqrt_square. lra.
Qed.

(** ** The air-standard solvers return on non-degenerate inputs *)

Lemma otto_cycle_ok T1 P1 r T3 gamma Rg :
  1 < r -> T1 < T3 -> gamma <> 1 -> Rg <> 0 -> P1 <> 0 -> T1 <> 0 ->
  T3 <> T1 * fpow r (gamma - 1) ->
  exists st m, otto_cycle T1 P1 r T3 gamma Rg = Ok (st, m).
Proof.
  intros Hr HT Hg HR HP HT1 Hq. unfold otto_cycle.
  destruct (Rle_dec r 1); [lra |]. destruct (Rle_dec T3 T1); [lra |].
  repeat (rewrite fdiv_ok by auto 8 with nonzero; cbn [bind]).
  eexists _, _. reflexivity.
Qed.

Lemma brayton_body_ok P1 T1 rp T3 gamma cp Rg :
  1 < rp -> gamma <> 0 -> P1 <> 0 -> T1 <> 0 -> T3 <> 0 -> Rg <> 0 -> cp <> 0 ->
  T3 <> T1 * fpow rp ((gamma - 1) / gamma) ->
  T3 <> T3 * fpow (1 / rp) ((gamma - 1) / gamma) ->
  exists l, brayton_body P1 T1 rp T3 gamma cp Rg = Ok l.
Proof.
  intros Hr Hg HP HT1 HT3 HR Hcp Hq Hw. unfold brayton_body.
  destruct (Rle_dec rp 1); [lra |].
  repeat (rewrite fdiv_ok by auto 8 with nonzero; cbn [bind]).
  eexists. reflexivity.
Qed.

Lemma carnot_cycle_engine_ok Th Tc ds gamma Rg v1 :
  Tc < Th -> 0 < ds -> Tc <> 0 -> Th <> 0 -> gamma <> 1 -> Rg <> 0 -> v1 <> 0 ->
  exists st m, carnot_cycle Th Tc ds "engine" gamma Rg v1 = Ok (st, m).
Proof.
  intros HT Hds HTc HTh Hg HR Hv. unfold carnot_cycle.
  destruct (Rle_dec Th Tc); [lra |]. destruct (Rle_dec ds 0); [lra |].
  repeat (rewrite fdiv_ok by auto 8 with nonzero; cbn [bind]).
  cbn. repeat (rewrite fdiv_ok by auto 8 with nonzero; cbn [bind]).
  eexists _, _. reflexivity.
Qed.

Lemma diesel_cycle_ok T1 P1 r rc gamma Rg :
  1 < r -> 1 < rc -> gamma <> 1 -> gamma <> 0 -> Rg <> 0 -> P1 <> 0 -> T1 <> 0 ->
  exists st m, diesel_cycle T1 P1 r rc gamma Rg = Ok (st, m).
Proof.
  intros Hr Hrc Hg Hg0 HR HP HT1. unfold diesel_cycle.
  destruct (Rle_dec r 1); [lra |]. destruct (Rle_dec rc 1); [lra |].
  assert (Hq : T1 * fpow r (gamma - 1) * rc - T1 * fpow r (gamma - 1) <> 0).
  { replace (T1 * fpow r (gamma - 1) * rc - T1 * fpow r (gamma - 1))
      with (T1 * fpow r (gamma - 1) * (rc - 1)) by ring.
    auto 8 with nonzero. }
  repeat (rewrite fdiv_ok by auto 8 with nonzero; cbn [bind]).
  eexists _, _. reflexivity.
Qed.

Lemma dual_cycle_ok T1 P1 r alpha rc gamma Rg :
  1 < r -> 1 < alpha -> 1 < rc -> 1 < gamma -> 0 < Rg -> P1 <> 0 -> 0 < T1 ->
  exists st m, dual_cycle T1 P1 r alpha rc gamma Rg = Ok (st, m).
Proof.
  intros Hr Ha Hrc Hg HR HP HT1. unfold dual_cycle.
  destruct (Rle_dec r 1); [lra |]. destruct (Rle_dec alpha 1); [lra |].
  destruct (Rle_dec rc 1); [lra |].
  pose proof (fpow_pos r (gamma - 1)) as HF.
  set (F := fpow r (gamma - 1)) in *.
  assert (HT2 : 0 < T1 * F) by (apply Rmult_lt_0_compat; lra).
  assert (Hcv : 0 < Rg / (gamma - 1)) by (apply Rdiv_lt_0_compat; lra).
  assert (Hq : Rg / (gamma - 1) * (alpha * (T1 * F) - T1 * F)
               + gamma * (Rg / (gamma - 1)) * (rc * (alpha * (T1 * F)) - alpha * (T1 * F)) <> 0).
  { assert (0 < Rg / (gamma - 1) * (alpha * (T1 * F) - T1 * F)).
    { apply Rmult_lt_0_compat; [lra | nra]. }
    assert (0 < gamma * (Rg / (gamma - 1)) * (rc * (alpha * (T1 * F)) - alpha * (T1 * F))).
    { apply Rmult_lt_0_compat; [nra |].
      replace (rc * (alpha * (T1 * F)) - alpha * (T1 * F))
        with (alpha * (T1 * F) * (rc - 1)) by ring.
      apply Rmult_lt_0_compat; [nra | lra]. }
    lra. }
  repeat (rewrite fdiv_ok by auto 8 with nonzero; cbn [bind]).
  eexists _, _. reflexivity.
Qed.

Lemma fpow_lt_1 (x y : R) : 0 < x < 1 -> 0 < y -> fpow x y < 1.
Proof.
  intros Hx Hy. unfold fpow, Rpower. rewrite <- exp_0. apply exp_increasing.
  assert (ln x < 0) by (rewrite <- ln_1; apply ln_increasing; lra).
  nra.
Qed.

(** [10 ** (0.4 / 1.4) < 4], through [sqrt 10 < sqrt 16]. *)
Lemma fpow_10_lt_4 : fpow 10 ((1.4 - 1) / 1.4) < 4.
Proof.
  unfold fpow. apply Rlt_trans with (Rpower 10 (/ 2)).
  - apply Rpower_lt; lra.
  - rewrite Rpower_sqrt by lra.
    replace 4 with (sqrt 16).
    + apply sqrt_lt_1; lra.
    + replace 16 with (4 * 4) by lra. apply sqrt_square. lra.
Qed.

(** ** Energy balance (C1) *)

Lemma carnot_balance Th Tc ds mode gamma Rg v1 st m :
  carnot_cycle Th Tc ds mode gamma Rg v1 = Ok (st, m) ->
  match m with
  | Heat_engine Qin Qout Wnet _ =>
      Wnet = Qin - Qout /\ Qin = Th * (ds - 0) /\ Qout = Tc * (ds - 0)
  | Refrigerator Qcold Win _ =>
      Win = Th * (ds - 0) - Qcold /\ Qcold = Tc * (ds - 0)
  | Heat_pump Qhot Win _ =>
      Win = Qhot - Tc * (ds - 0) /\ Qhot = Th * (ds - 0)
  end.
Proof.
  unfold carnot_cycle. intro H.
  destruct (Rle_dec Th Tc); [discriminate H |].
  destruct (Rle_dec ds 0); [discriminate H |].
  unbind H.
  destruct (mode =? "engine")%string.
  { unbind H. repeat split. }
  destruct (mode =? "refrigerator")%string.
  { unbind H. repeat split. }
  destruct (mode =? "heat_pump")%string.
  { unbind H. repeat split. }
  discriminate H.
Qed.

Lemma brayton_balance P1 T1 rp T3 gamma cp Rg st m :
  brayton_ideal P1 T1 rp T3 gamma cp Rg = Ok (st, m) ->
  exists l a4,
    brayton_body P1 T1 rp T3 gamma cp Rg = Ok l /\
    brayton_returned l = m /\
    row st 4 = Ok a4 /\
    brayton_Qout l = cp * (cell_T_K a4 - T1) /\
    brayton_Wnet_kJ_per_kg m = brayton_Wt_kJ_per_kg m - brayton_Wc_kJ_per_kg m /\
    brayton_Wnet_kJ_per_kg m = brayton_Qin_kJ_per_kg m - brayton_Qout l.
Proof.
  unfold brayton_ideal. intro H.
  apply bind_ok in H. destruct H as (l & Hl & H). inversion H; subst; clear H.
  exists l. pose proof Hl as Hl'. unfold brayton_body in Hl.
  destruct (Rle_dec rp 1); [discriminate Hl |].
  unbind Hl. cbn.
  eexists. split; [exact Hl' |].
  split; [reflexivity |]. split; [reflexivity |].
  cbn. repeat split; ring.
Qed.

Lemma otto_balance T1 P1 r T3 gamma Rg st m :
  otto_cycle T1 P1 r T3 gamma Rg = Ok (st, m) ->
  otto_Wnet_kJ_per_kg m = otto_Qin_kJ_per_kg m - otto_Qout_kJ_per_kg m.
Proof.
  unfold otto_cycle. intro H.
  destruct (Rle_dec r 1); [discriminate H |].
  destruct (Rle_dec T3 T1); [discriminate H |].
  unbind H. reflexivity.
Qed.

Lemma diesel_balance T1 P1 r rc gamma Rg st m :
  diesel_cycle T1 P1 r rc gamma Rg = Ok (st, m) ->
  diesel_Wnet_kJ_per_kg m = diesel_Qin_kJ_per_kg m - diesel_Qout_kJ_per_kg m.
Proof.
  unfold diesel_cycle. intro H.
  destruct (Rle_dec r 1); [discriminate H |].
  destruct (Rle_dec rc 1); [discriminate H |].
  unbind H. reflexivity.
Qed.

Lemma dual_balance T1 P1 r alpha rc gamma Rg st m :
  dual_cycle T1 P1 r alpha rc gamma Rg = Ok (st, m) ->
  dual_Wnet_kJ_per_kg m = dual_Qin_kJ_per_kg m - dual_Qout_kJ_per_kg m.
Proof.
  unfold dual_cycle. intro H.
  destruct (Rle_dec r 1); [discriminate H |].
  destruct (Rle_dec alpha 1); [discriminate H |].
  destruct (Rle_dec rc 1); [discriminate H |].
  unbind H. reflexivity.
Qed.

(** C1.  Whenever an air-standard solver returns, its metrics balance:
    the net work is the heat taken in minus the heat rejected.  For Carnot the
    work entry is [Qh - Qc] in each of the three modes, with
    [Qh = Th * (s2 - s1)] and [Qc = Tc * (s2 - s1)]; for Brayton the net work
    is turbine work minus compressor work and equals [Qin - Qout], where
    [Qout = cp * (T4 - T1)] is the rejected heat the solver computes; for
    Otto, Diesel and Dual the returned [Wnet] is [Qin - Qout]. *)
Theorem air_standard_energy_balance :
  (forall Th Tc ds mode gamma Rg v1 st m,
      carnot_cycle Th Tc ds mode gamma Rg v1 = Ok (st, m) ->
      match m with
      | Heat_engine Qin Qout Wnet _ =>
          Wnet = Qin - Qout /\ Qin = Th * (ds - 0) /\ Qout = Tc * (ds - 0)
      | Refrigerator Qcold Win _ =>
          Win = Th * (ds - 0) - Qcold /\ Qcold = Tc * (ds - 0)
      | Heat_pump Qhot Win _ =>
          Win = Qhot - Tc * (ds - 0) /\ Qhot = Th * (ds - 0)
      end) /\
  (forall P1 T1 rp T3 gamma cp Rg st m,
      brayton_ideal P1 T1 rp T3 gamma cp Rg = Ok (st, m) ->
      exists l a4,
        brayton_body P1 T1 rp T3 gamma cp Rg = Ok l /\
        brayton_returned l = m /\
        row st 4 = Ok a4 /\
        brayton_Qout l = cp * (cell_T_K a4 - T1) /\
        brayton_Wnet_kJ_per_kg m = brayton_Wt_kJ_per_kg m - brayton_Wc_kJ_per_kg m /\
        brayton_Wnet_kJ_per_kg m = brayton_Qin_kJ_per_kg m - brayton_Qout l) /\
  (forall T1 P1 r T3 gamma Rg st m,
      otto_cycle T1 P1 r T3 gamma Rg = Ok (st, m) ->
      otto_Wnet_kJ_per_kg m = otto_Qin_kJ_per_kg m - otto_Qout_kJ_per_kg m) /\
  (forall T1 P1 r rc gamma Rg st m,
      diesel_cycle T1 P1 r rc gamma Rg = Ok (st, m) ->
      diesel_Wnet_kJ_per_kg m = diesel_Qin_kJ_per_kg m - diesel_Qout_kJ_per_kg m) /\
  (forall T1 P1 r alpha rc gamma Rg st m,
      dual_cycle T1 P1 r alpha rc gamma Rg = Ok (st, m) ->
      dual_Wnet_kJ_per_kg m = dual_Qin_kJ_per_kg m - dual_Qout_kJ_per_kg m).
Proof.
  split; [exact carnot_balance |].
  split; [exact brayton_balance |].
  split; [exact otto_balance |].
  split; [exact diesel_balance | exact dual_balance].
Qed.

(** The five solvers at their default inputs. *)
Lemma air_standard_energy_balance_witness :
  (exists st m, carnot_cycle 600 300 1 "engine" 1.4 0.287 1 = Ok (st, m) /\
     match m with
     | Heat_engine Qin Qout Wnet _ => Wnet = Qin - Qout
     | _ => False
     end) /\
  (exists st m, brayton_ideal 100 300 10 1400 1.4 1.004 0.287 = Ok (st, m) /\
     brayton_Wnet_kJ_per_kg m = brayton_Wt_kJ_per_kg m - brayton_Wc_kJ_per_kg m) /\
  (exists st m, otto_cycle 300 100 8 1800 1.4 0.287 = Ok (st, m) /\
     otto_Wnet_kJ_per_kg m = otto_Qin_kJ_per_kg m - otto_Qout_kJ_per_kg m) /\
  (exists st m, diesel_cycle 300 100 18 2 1.4 0.287 = Ok (st, m) /\
     diesel_Wnet_kJ_per_kg m = diesel_Qin_kJ_per_kg m - diesel_Qout_kJ_per_kg m) /\
  (exists st m, dual_cycle 300 100 14 1.5 1.3 1.4 0.287 = Ok (st, m) /\
     dual_Wnet_kJ_per_kg m = dual_Qin_kJ_per_kg m - dual_Qout_kJ_per_kg m).
Proof.
  destruct air_standard_energy_balance as (HC & HB & HO & HD & HU).
  repeat split.
  - destruct (carnot_cycle_engine_ok 600 300 1 1.4 0.287 1) as (st & m & E); try lra.
    exists st, m. split; [exact E |].
    pose proof (HC _ _ _ _ _ _ _ _ _ E) as Hm.
    unfold carnot_cycle in E.
    destruct (Rle_dec 600 300); [discriminate E |].
    destruct (Rle_dec 1 0); [discriminate E |].
    unbind E. cbn in E. unbind E. exact (proj1 Hm).
  - destruct (brayton_body_ok 100 300 10 1400 1.4 1.004 0.287) as (l & E); try lra.
    + pose proof fpow_10_lt_4. lra.
    + pose proof (fpow_lt_1 (1 / 10) ((1.4 - 1) / 1.4)). lra.
    + exists (brayton_states l), (brayton_returned l).
      assert (E' : brayton_ideal 100 300 10 1400 1.4 1.004 0.287
                   = Ok (brayton_states l, brayton_returned l)).
      { unfold brayton_ideal. rewrite E. reflexivity. }
      split; [exact E' |].
      destruct (HB _ _ _ _ _ _ _ _ _ E') as (l' & a4 & _ & _ & _ & _ & Hw & _).
      exact Hw.
  - destruct (otto_cycle_ok 300 100 8 1800 1.4 0.287) as (st & m & E); try lra.
    + pose proof fpow_8_04_lt_3. lra.
    + exists st, m. split; [exact E | exact (HO _ _ _ _ _ _ _ _ E)].
  - destruct (diesel_cycle_ok 300 100 18 2 1.4 0.287) as (st & m & E); try lra.
    exists st, m. split; [exact E | exact (HD _ _ _ _ _ _ _ _ E)].
  - destruct (dual_cycle_ok 300 100 14 1.5 1.3 1.4 0.287) as (st & m & E); try lra.
    exists st, m. split; [exact E | exact (HU _ _ _ _ _ _ _ _ _ E)].
Defined.

(** ** Otto efficiency (C2) *)








(** ** The reference volume (C6) *)

Lemma scale_cancels (rc v r : R) : v <> 0 -> r <> 0 -> rc * (v / r) / v = rc / r.
Proof. intros. field. split; assumption. Qed.

Lemma carnot_reference_volume Th Tc ds mode gamma Rg v1 st m :
  carnot_cycle Th Tc ds mode gamma Rg v1 = Ok (st, m) ->
  (exists a, row st 1 = Ok a /\ cell_T_K a = Th /\ cell_v_m3_per_kg a = v1 /\
             cell_P_kPa a = Rg * Th / v1 /\ on_ideal_gas_law Rg a) /\
  (forall v1' st' m',
      carnot_cycle Th Tc ds mode gamma Rg v1' = Ok (st', m') -> m' = m).
Proof.
  unfold carnot_cycle. intro H.
  destruct (Rle_dec Th Tc) as [| HT]; [discriminate H |].
  destruct (Rle_dec ds 0); [discriminate H |].
  unbind H. assert (Hv1 : v1 <> 0) by assumption. split.
  - assert (Hst : exists r2 r3 r4,
              st = mk_states_df true false
                     [abs_row 1 (Rg * Th / v1) Th v1 0; r2; r3; r4]).
    { destruct (mode =? "engine")%string; [unbind H; eauto 8 |].
      destruct (mode =? "refrigerator")%string; [unbind H; eauto 8 |].
      destruct (mode =? "heat_pump")%string; [unbind H; eauto 8 | discriminate H]. }
    destruct Hst as (r2 & r3 & r4 & ->).
    eexists. split; [reflexivity |]. cbn. repeat split.
    unfold on_ideal_gas_law. cbn. field. exact Hv1.
  - intros v1' st' m' H'. unbind H'.
    destruct (mode =? "engine")%string; [unbind H; unbind H'; reflexivity |].
    destruct (mode =? "refrigerator")%string; [unbind H; unbind H'; reflexivity |].
    destruct (mode =? "heat_pump")%string; [unbind H; unbind H'; reflexivity |].
    discriminate H.
Qed.

Lemma brayton_reference_volume P1 T1 rp T3 gamma cp Rg st m :
  brayton_ideal P1 T1 rp T3 gamma cp Rg = Ok (st, m) ->
  (exists a, row st 1 = Ok a /\ cell_T_K a = T1 /\ cell_P_kPa a = P1 /\
             cell_v_m3_per_kg a = Rg * T1 / P1) /\
  (forall P1' st' m',
      brayton_ideal P1' T1 rp T3 gamma cp Rg = Ok (st', m') ->
      m' = m /\
      brayton_eta_th m' = brayton_eta_th m /\
      brayton_back_work_ratio m' = brayton_back_work_ratio m).
Proof.
  unfold brayton_ideal, brayton_body. intro H.
  destruct (Rle_dec rp 1); [discriminate H |].
  unbind H. split.
  - eexists. split; [reflexivity |]. cbn. repeat split.
  - intros P1' st' m' H'. unbind H'. repeat split.
Qed.

Lemma otto_reference_volume T1 P1 r T3 gamma Rg st m :
  otto_cycle T1 P1 r T3 gamma Rg = Ok (st, m) ->
  (exists a, row st 1 = Ok a /\ cell_T_K a = T1 /\ cell_P_kPa a = P1 /\
             cell_v_m3_per_kg a = Rg * T1 / P1) /\
  (forall P1' st' m',
      otto_cycle T1 P1' r T3 gamma Rg = Ok (st', m') -> m' = m).
Proof.
  unfold otto_cycle. intro H.
  destruct (Rle_dec r 1); [discriminate H |].
  destruct (Rle_dec T3 T1); [discriminate H |].
  unbind H. split.
  - eexists. split; [reflexivity |]. cbn. repeat split.
  - intros P1' st' m' H'. unbind H'. reflexivity.
Qed.

Lemma diesel_reference_volume T1 P1 r rc gamma Rg st m :
  diesel_cycle T1 P1 r rc gamma Rg = Ok (st, m) ->
  (exists a, row st 1 = Ok a /\ cell_T_K a = T1 /\ cell_P_kPa a = P1 /\
             cell_v_m3_per_kg a = Rg * T1 / P1) /\
  (forall P1' st' m',
      diesel_cycle T1 P1' r rc gamma Rg = Ok (st', m') -> m' = m).
Proof.
  unfold diesel_cycle. intro H.
  destruct (Rle_dec r 1); [discriminate H |].
  destruct (Rle_dec rc 1); [discriminate H |].
  unbind H. split.
  - eexists. split; [reflexivity |]. cbn. repeat split.
  - intros P1' st' m' H'. unbind H'.
    rewrite !scale_cancels by assumption. reflexivity.
Qed.

Lemma dual_reference_volume T1 P1 r alpha rc gamma Rg st m :
  dual_cycle T1 P1 r alpha rc gamma Rg = Ok (st, m) ->
  (exists a, row st 1 = Ok a /\ cell_T_K a = T1 /\ cell_P_kPa a = P1 /\
             cell_v_m3_per_kg a = Rg * T1 / P1) /\
  (forall P1' st' m',
      dual_cycle T1 P1' r alpha rc gamma Rg = Ok (st', m') -> m' = m).
Proof.
  unfold dual_cycle. intro H.
  destruct (Rle_dec r 1); [discriminate H |].
  destruct (Rle_dec alpha 1); [discriminate H |].
  destruct (Rle_dec rc 1); [discriminate H |].
  unbind H. split.
  - eexists. split; [reflexivity |]. cbn. repeat split.
  - intros P1' st' m' H'. unbind H'.
    rewrite !scale_cancels by assumption. reflexivity.
Qed.

Lemma brayton_ideal_defaults_ok P1 :
  P1 <> 0 -> exists st m, brayton_ideal P1 300 10 1400 1.4 1.004 0.287 = Ok (st, m).
Proof.
  intro HP.
  destruct (brayton_body_ok P1 300 10 1400 1.4 1.004 0.287) as (l & E); try lra.
  - pose proof fpow_10_lt_4. lra.
  - pose proof (fpow_lt_1 (1 / 10) ((1.4 - 1) / 1.4)). lra.
  - exists (brayton_states l), (brayton_returned l).
    unfold brayton_ideal. rewrite E. reflexivity.
Qed.

(** C6 (amended).  Brayton, Otto, Diesel and Dual compute the reference
    volume of state 1 from the ideal-gas law and their inputs,
    [v1 = R * T1 / P1].  Carnot takes the scale [v1] as an input and derives
    the pressure [P1 = R * Th / v1] from it, so that its state 1 lies on the
    same law.  Choosing another scale (another [P1], for Carnot another
    [v1]) leaves the metrics, and so the efficiency, the coefficient of
    performance and the back-work ratio, as they were; Diesel and Dual,
    whose expansion ratio is computed from the volumes, are taken on inputs
    in range. *)
Theorem reference_volume_obeys_ideal_gas_law_and_is_only_a_scale :
  (forall Th Tc ds mode gamma Rg v1 st m,
      carnot_cycle Th Tc ds mode gamma Rg v1 = Ok (st, m) ->
      (exists a, row st 1 = Ok a /\ cell_T_K a = Th /\ cell_v_m3_per_kg a = v1 /\
                 cell_P_kPa a = Rg * Th / v1 /\ on_ideal_gas_law Rg a) /\
      (forall v1' st' m',
          carnot_cycle Th Tc ds mode gamma Rg v1' = Ok (st', m') -> m' = m)) /\
  (forall P1 T1 rp T3 gamma cp Rg st m,
      brayton_ideal P1 T1 rp T3 gamma cp Rg = Ok (st, m) ->
      (exists a, row st 1 = Ok a /\ cell_T_K a = T1 /\ cell_P_kPa a = P1 /\
                 cell_v_m3_per_kg a = Rg * T1 / P1) /\
      (forall P1' st' m',
          brayton_ideal P1' T1 rp T3 gamma cp Rg = Ok (st', m') ->
          m' = m /\
          brayton_eta_th m' = brayton_eta_th m /\
          brayton_back_work_ratio m' = brayton_back_work_ratio m)) /\
  (forall T1 P1 r T3 gamma Rg st m,
      otto_cycle T1 P1 r T3 gamma Rg = Ok (st, m) ->
      (exists a, row st 1 = Ok a /\ cell_T_K a = T1 /\ cell_P_kPa a = P1 /\
                 cell_v_m3_per_kg a = Rg * T1 / P1) /\
      (forall P1' st' m',
          otto_cycle T1 P1' r T3 gamma Rg = Ok (st', m') -> m' = m)) /\
  (forall T1 P1 r rc gamma Rg st m,
      diesel_cycle T1 P1 r rc gamma Rg = Ok (st, m) ->
      (exists a, row st 1 = Ok a /\ cell_T_K a = T1 /\ cell_P_kPa a = P1 /\
                 cell_v_m3_per_kg a = Rg * T1 / P1) /\
      (forall P1' st' m',
          diesel_in_range T1 P1 r rc gamma Rg ->
          diesel_in_range T1 P1' r rc gamma Rg ->
          diesel_cycle T1 P1' r rc gamma Rg = Ok (st', m') -> m' = m)) /\
  (forall T1 P1 r alpha rc gamma Rg st m,
      dual_cycle T1 P1 r alpha rc gamma Rg = Ok (st, m) ->
      (exists a, row st 1 = Ok a /\ cell_T_K a = T1 /\ cell_P_kPa a = P1 /\
                 cell_v_m3_per_kg a = Rg * T1 / P1) /\
      (forall P1' st' m',
          dual_in_range T1 P1 r alpha rc gamma Rg ->
          dual_in_range T1 P1' r alpha rc gamma Rg ->
          dual_cycle T1 P1' r alpha rc gamma Rg = Ok (st', m') -> m' = m)).
Proof.
  split; [exact carnot_reference_volume |].
  split; [exact brayton_reference_volume |].
  split; [exact otto_reference_volume |].
  split.
  - intros T1 P1 r rc gamma Rg st m H.
    destruct (diesel_reference_volume _ _ _ _ _ _ _ _ H) as [Hrow Hinv].
    split; [exact Hrow |]. intros P1' st' m' _ _. apply Hinv.
  - intros T1 P1 r alpha rc gamma Rg st m H.
    destruct (dual_reference_volume _ _ _ _ _ _ _ _ _ H) as [Hrow Hinv].
    split; [exact Hrow |]. intros P1' st' m' _ _. apply Hinv.
Qed.

(** Each solver at its defaults, against another scale: [v1 = 2] for Carnot,
    [P1 = 250] for the others. *)
Lemma reference_volume_obeys_ideal_gas_law_and_is_only_a_scale_witness :
  (exists st m st' m',
      carnot_cycle 600 300 1 "engine" 1.4 0.287 1 = Ok (st, m) /\
      carnot_cycle 600 300 1 "engine" 1.4 0.287 2 = Ok (st', m') /\
      (exists a, row st 1 = Ok a /\ cell_v_m3_per_kg a = 1 /\
                 cell_P_kPa a = 0.287 * 600 / 1) /\
      m' = m) /\
  (exists st m st' m',
      brayton_ideal 100 300 10 1400 1.4 1.004 0.287 = Ok (st, m) /\
      brayton_ideal 250 300 10 1400 1.4 1.004 0.287 = Ok (st', m') /\
      (exists a, row st 1 = Ok a /\ cell_v_m3_per_kg a = 0.287 * 300 / 100) /\
      m' = m) /\
  (exists st m st' m',
      otto_cycle 300 100 8 1800 1.4 0.287 = Ok (st, m) /\
      otto_cycle 300 250 8 1800 1.4 0.287 = Ok (st', m') /\
      (exists a, row st 1 = Ok a /\ cell_v_m3_per_kg a = 0.287 * 300 / 100) /\
      m' = m) /\
  (exists st m st' m',
      diesel_cycle 300 100 18 2 1.4 0.287 = Ok (st, m) /\
      diesel_cycle 300 250 18 2 1.4 0.287 = Ok (st', m') /\
      (exists a, row st 1 = Ok a /\ cell_v_m3_per_kg a = 0.287 * 300 / 100) /\
      m' = m) /\
  (exists st m st' m',
      dual_cycle 300 100 14 1.5 1.3 1.4 0.287 = Ok (st, m) /\
      dual_cycle 300 250 14 1.5 1.3 1.4 0.287 = Ok (st', m') /\
      (exists a, row st 1 = Ok a /\ cell_v_m3_per_kg a = 0.287 * 300 / 100) /\
      m' = m).
Proof.
  destruct reference_volume_obeys_ideal_gas_law_and_is_only_a_scale
    as (HC & HB & HO & HD & HU).
  split; [| split; [| split; [| split]]].
  - destruct (carnot_cycle_engine_ok 600 300 1 1.4 0.287 1) as (st & m & E); try lra.
    destruct (carnot_cycle_engine_ok 600 300 1 1.4 0.287 2) as (st' & m' & E'); try lra.
    exists st, m, st', m'.
    destruct (HC _ _ _ _ _ _ _ _ _ E) as [(a & Ha & _ & Hv & HP & _) Hinv].
    split; [exact E |]. split; [exact E' |].
    split; [exists a; repeat split; assumption |].
    exact (Hinv _ _ _ E').
  - destruct (brayton_ideal_defaults_ok 100) as (st & m & E); [lra |].
    destruct (brayton_ideal_defaults_ok 250) as (st' & m' & E'); [lra |].
    exists st, m, st', m'.
    destruct (HB _ _ _ _ _ _ _ _ _ E) as [(a & Ha & _ & _ & Hv) Hinv].
    split; [exact E |]. split; [exact E' |].
    split; [exists a; split; assumption |].
    exact (proj1 (Hinv _ _ _ E')).
  - destruct (otto_cycle_ok 300 100 8 1800 1.4 0.287) as (st & m & E); try lra.
    { pose proof fpow_8_04_lt_3. lra. }
    destruct (otto_cycle_ok 300 250 8 1800 1.4 0.287) as (st' & m' & E'); try lra.
    { pose proof fpow_8_04_lt_3. lra. }
    exists st, m, st', m'.
    destruct (HO _ _ _ _ _ _ _ _ E) as [(a & Ha & _ & _ & Hv) Hinv].
    split; [exact E |]. split; [exact E' |].
    split; [exists a; split; assumption |].
    exact (Hinv _ _ _ E').
  - destruct (diesel_cycle_ok 300 100 18 2 1.4 0.287) as (st & m & E); try lra.
    destruct (diesel_cycle_ok 300 250 18 2 1.4 0.287) as (st' & m' & E'); try lra.
    exists st, m, st', m'.
    destruct (HD _ _ _ _ _ _ _ _ E) as [(a & Ha & _ & _ & Hv) Hinv].
    split; [exact E |]. split; [exact E' |].
    split; [exists a; split; assumption |].
    apply (Hinv 250 st' m'); [| | exact E'];
      unfold diesel_in_range, moderate, clear_above; lra.
  - destruct (dual_cycle_ok 300 100 14 1.5 1.3 1.4 0.287) as (st & m & E); try lra.
    destruct (dual_cycle_ok 300 250 14 1.5 1.3 1.4 0.287) as (st' & m' & E'); try lra.
    exists st, m, st', m'.
    destruct (HU _ _ _ _ _ _ _ _ _ E) as [(a & Ha & _ & _ & Hv) Hinv].
    split; [exact E |]. split; [exact E' |].
    split; [exists a; split; assumption |].
    apply (Hinv 250 st' m'); [| | exact E'];
      unfold dual_in_range, diesel_in_range, moderate, clear_above; lra.
Defined.

(** C6, as stated, fails for Carnot, which has no inlet pressure to pick a
    volume from: with the same temperatures and the same gas constant, the
    volume of state 1 is 1 or 2 as the caller passes it, and it is the
    pressure of state 1 that the solver derives from the law. *)
Lemma carnot_takes_its_reference_volume_as_an_input :
  exists st m st' m' a a',
    carnot_cycle 600 300 1 "engine" 1.4 0.287 1 = Ok (st, m) /\
    carnot_cycle 600 300 1 "engine" 1.4 0.287 2 = Ok (st', m') /\
    row st 1 = Ok a /\ row st' 1 = Ok a' /\
    cell_T_K a = 600 /\ cell_T_K a' = 600 /\
    cell_v_m3_per_kg a = 1 /\ cell_v_m3_per_kg a' = 2 /\
    cell_P_kPa a = 0.287 * 600 / 1 /\ cell_P_kPa a' = 0.287 * 600 / 2 /\
    cell_v_m3_per_kg a <> cell_v_m3_per_kg a'.
Proof.
  destruct (carnot_cycle_engine_ok 600 300 1 1.4 0.287 1) as (st & m & E); try lra.
  destruct (carnot_cycle_engine_ok 600 300 1 1.4 0.287 2) as (st' & m' & E'); try lra.
  destruct (carnot_reference_volume _ _ _ _ _ _ _ _ _ E)
    as [(a & Ha & HT & Hv & HP & _) _].
  destruct (carnot_reference_volume _ _ _ _ _ _ _ _ _ E')
    as [(a' & Ha' & HT' & Hv' & HP' & _) _].
  exists st, m, st', m', a, a'.
  repeat (split; [assumption |]). rewrite Hv, Hv'. lra.
Qed.

(** ** Rejected boundary conditions (C7) *)

Lemma brayton_rp_1 P1 T1 T3 gamma cp Rg :
  brayton_ideal P1 T1 1 T3 gamma cp Rg
  = Err (ValueError "Pressure ratio rp must be > 1").
Proof.
  unfold brayton_ideal, brayton_body.
  destruct (Rle_dec 1 1) as [_ | N]; [reflexivity | exfalso; lra].
Qed.

Lemma rankine_boiler_below_condenser prov Pc Pb T3_C :
  Pb <= Pc ->
  run (rankine_ideal prov Pc Pb T3_C) = (Err (ValueError "Pressures must be > 0"), [])
  \/ run (rankine_ideal prov Pc Pb T3_C)
     = (Err (ValueError "Boiler pressure must be > condenser pressure"), []).
Proof.
  intro H. unfold run, rankine_ideal.
  destruct (Rle_dec Pc 0); [left; reflexivity |].
  destruct (Rle_dec Pb 0); [left; reflexivity |].
  destruct (Rle_dec Pb Pc); [right; reflexivity | contradiction].
Qed.

Lemma reheat_above_boiler prov Pc Pb Pr T3_C T5_C :
  Pr >= Pb ->
  run (rankine_reheat_ideal prov Pc Pb Pr T3_C T5_C)
  = (Err (ValueError "Pressures must be > 0"), [])
  \/ run (rankine_reheat_ideal prov Pc Pb Pr T3_C T5_C)
     = (Err (ValueError "Need Pb > Pr > Pc"), []).
Proof.
  intro H. unfold run, rankine_reheat_ideal.
  destruct (Rle_dec Pc 0); [left; reflexivity |].
  destruct (Rle_dec Pb 0); [left; reflexivity |].
  destruct (Rle_dec Pr 0); [left; reflexivity |].
  destruct (Rgt_dec Pb Pr); [exfalso; lra | right; reflexivity].
Qed.

(** C7.  Brayton with [rp = 1] fails with its invalid-parameters error
    whatever the other inputs are, also those on which a later division
    would fail; basic Rankine with [Pb_kPa <= Pc_kPa] and Rankine-Reheat with
    [Pr_kPa >= Pb_kPa] fail with an invalid-parameters error, and the log of
    provider queries is empty at that point: no property was looked up and no
    state, metric or dome is returned. *)
Theorem invalid_boundaries_are_rejected_before_any_lookup :
  (forall P1 T1 T3 gamma cp Rg,
      brayton_ideal P1 T1 1 T3 gamma cp Rg
      = Err (ValueError "Pressure ratio rp must be > 1")) /\
  (forall prov Pc Pb T3_C,
      Pb <= Pc ->
      run (rankine_ideal prov Pc Pb T3_C)
      = (Err (ValueError "Pressures must be > 0"), [])
      \/ run (rankine_ideal prov Pc Pb T3_C)
         = (Err (ValueError "Boiler pressure must be > condenser pressure"), [])) /\
  (forall prov Pc Pb Pr T3_C T5_C,
      Pr >= Pb ->
      run (rankine_reheat_ideal prov Pc Pb Pr T3_C T5_C)
      = (Err (ValueError "Pressures must be > 0"), [])
      \/ run (rankine_reheat_ideal prov Pc Pb Pr T3_C T5_C)
         = (Err (ValueError "Need Pb > Pr > Pc"), [])).
Proof.
  split; [exact brayton_rp_1 |].
  split; [exact rankine_boiler_below_condenser | exact reheat_above_boiler].
Qed.

(** A boiler at 5 kPa under a condenser at 10 kPa, and a reheat at 9000 kPa
    over a boiler at 8000 kPa, against a provider that would raise. *)
Lemma invalid_boundaries_are_rejected_before_any_lookup_witness :
  run (rankine_ideal (fun _ => Err ProviderError) 10 5 None)
  = (Err (ValueError "Boiler pressure must be > condenser pressure"), [])
  /\ run (rankine_reheat_ideal (fun _ => Err ProviderError) 10 8000 9000 450 450)
     = (Err (ValueError "Need Pb > Pr > Pc"), []).
Proof.
  destruct invalid_boundaries_are_rejected_before_any_lookup as (_ & HR & HH).
  split.
  - destruct (HR (fun _ => Err ProviderError) 10 5 None) as [E | E]; [lra | | exact E].
    exfalso. unfold run, rankine_ideal in E.
    destruct (Rle_dec 10 0); [lra |]. destruct (Rle_dec 5 0); [lra |].
    destruct (Rle_dec 5 10); [discriminate E | lra].
  - destruct (HH (fun _ => Err ProviderError) 10 8000 9000 450 450) as [E | E];
      [lra | | exact E].
    exfalso. unfold run, rankine_reheat_ideal in E.
    destruct (Rle_dec 10 0); [lra |]. destruct (Rle_dec 8000 0); [lra |].
    destruct (Rle_dec 9000 0); [lra |].
    destruct (Rgt_dec 8000 9000); [lra | discriminate E].
Defined.

(** ** The path sampler *)

Lemma linspace_cons (a b : R) (n : nat) :
  (2 <= n)%nat -> exists rest, linspace a b n = a :: rest.
Proof.
  destruct n as [| [| m]]; try lia. intros _.
  unfold linspace. rewrite <- cons_seq. cbn [map app].
  eexists. f_equal. cbn [INR]. ring.
Qed.

Lemma fpow_1_l (y : R) : fpow 1 y = 1.
Proof. unfold fpow, Rpower. rewrite ln_1, Rmult_0_r. apply exp_0. Qed.

(** What a successful [leg_segment] has done. *)
Lemma leg_segment_inv states scol gamma Rgas l seg :
  leg_segment states scol gamma Rgas l = Ok seg ->
  exists a b,
    row states (leg_start l) = Ok a /\ row states (leg_end l) = Ok b /\
    let s_a := entropy_anchor scol a in
    ((leg_kind l = "isen"%string /\
      seg = path_isentropic_ideal (cell_P_kPa a) (cell_v_m3_per_kg a) (cell_T_K a)
              (cell_P_kPa b) (cell_v_m3_per_kg b) gamma Rgas 90 s_a) \/
     (leg_kind l = "cv"%string /\
      path_const_v_ideal (cell_v_m3_per_kg a) (cell_T_K a) (cell_T_K b)
        Rgas 70 s_a gamma = Ok seg) \/
     (leg_kind l = "cp"%string /\
      path_const_p_ideal (cell_P_kPa a) (cell_T_K a) (cell_T_K b)
        Rgas 70 s_a gamma = Ok seg) \/
     (leg_kind l = "isoth"%string /\
      seg = path_isothermal_ideal (cell_T_K a) (cell_v_m3_per_kg a)
              (cell_v_m3_per_kg b) Rgas 90 s_a)).
Proof.
  destruct l as [[kind i] j]. unfold leg_segment, leg_start, leg_end, leg_kind.
  cbn [fst snd]. intro H.
  apply bind_ok in H. destruct H as (a & Ha & H).
  apply bind_ok in H. destruct H as (b & Hb & H).
  exists a, b. split; [exact Ha |]. split; [exact Hb |]. cbv zeta in *.
  destruct (kind =? "isen")%string eqn:E1.
  { apply String.eqb_eq in E1. inversion H. left. split; [exact E1 | reflexivity]. }
  destruct (kind =? "cv")%string eqn:E2.
  { apply String.eqb_eq in E2. right; left. split; assumption. }
  destruct (kind =? "cp")%string eqn:E3.
  { apply String.eqb_eq in E3. right; right; left. split; assumption. }
  destruct (kind =? "isoth")%string eqn:E4.
  { apply String.eqb_eq in E4. inversion H. right; right; right.
    split; [exact E4 | reflexivity]. }
  discriminate H.
Qed.

Ltac count_rows :=
  unfold has_rows, path_isentropic_ideal, path_isothermal_ideal, full_like;
  cbn [P_kPa v_m3_per_kg T_K s_kJ_per_kgK];
  rewrite ?length_map, ?linspace_length; auto.

Lemma leg_segment_rows states scol gamma Rgas l seg :
  leg_segment states scol gamma Rgas l = Ok seg ->
  has_rows seg 90 \/ has_rows seg 70.
Proof.
  intro H. apply leg_segment_inv in H.
  destruct H as (a & b & _ & _ & [[_ ->] | [[_ H] | [[_ H] | [_ ->]]]]).
  - left. count_rows.
  - right. apply path_const_v_ideal_inv in H. destruct H as [_ ->].
    count_rows.
  - right. apply path_const_p_ideal_inv in H. destruct H as [_ ->].
    count_rows.
  - left. count_rows.
Qed.

(** The first row of a leg's segment. *)
Ltac head_eq :=
  first
    [ reflexivity
    | apply (f_equal2 (@cons R)); [| reflexivity];
      match goal with
      | |- context [?x / ?x] => replace (x / x) with 1 by (field; lra)
      end;
      rewrite ?fpow_1_l, ?ln_1; ring ].

Lemma leg_segment_first states scol gamma Rgas l seg a :
  leg_segment states scol gamma Rgas l = Ok seg ->
  row states (leg_start l) = Ok a ->
  positive_state a ->
  exists P v,
    first_sample seg P v (cell_T_K a) (entropy_anchor scol a) /\
    (leg_kind l = "isen"%string \/ on_ideal_gas_law Rgas a ->
     P = cell_P_kPa a /\ v = cell_v_m3_per_kg a).
Proof.
  intros H Ha (HP & Hv & HT). apply leg_segment_inv in H.
  destruct H as (a' & b & Ha' & _ & H). rewrite Ha in Ha'. injection Ha' as <-.
  cbv zeta in H. unfold first_sample.
  destruct H as [[Hk ->] | [[Hk H] | [[Hk H] | [Hk ->]]]].
  - destruct (linspace_cons (cell_v_m3_per_kg a) (cell_v_m3_per_kg b) 90) as [rest E]; [lia |].
    unfold path_isentropic_ideal. rewrite E. cbn.
    do 2 eexists. split; [do 4 eexists; repeat split; head_eq |].
    intros _. split; [| reflexivity].
    field. apply fpow_neq_0.
  - apply path_const_v_ideal_inv in H. destruct H as [Hg ->].
    destruct (linspace_cons (cell_T_K a) (cell_T_K b) 70) as [rest E]; [lia |].
    rewrite E. cbn.
    do 2 eexists. split; [do 4 eexists; repeat split; head_eq |].
    intros [Hc | Hgas]; [rewrite Hk in Hc; discriminate Hc |].
    split; [| reflexivity]. unfold on_ideal_gas_law in Hgas.
    rewrite <- Hgas. field. lra.
  - apply path_const_p_ideal_inv in H. destruct H as [Hg ->].
    destruct (linspace_cons (cell_T_K a) (cell_T_K b) 70) as [rest E]; [lia |].
    rewrite E. cbn.
    do 2 eexists. split; [do 4 eexists; repeat split; head_eq |].
    intros [Hc | Hgas]; [rewrite Hk in Hc; discriminate Hc |].
    split; [reflexivity |].
    replace (Rgas * cell_T_K a) with (cell_P_kPa a * cell_v_m3_per_kg a) by exact Hgas.
    field. lra.
  - destruct (linspace_cons (cell_v_m3_per_kg a) (cell_v_m3_per_kg b) 90) as [rest E]; [lia |].
    unfold path_isothermal_ideal. rewrite E. cbn.
    do 2 eexists. split; [do 4 eexists; repeat split; head_eq |].
    intros [Hc | Hgas]; [rewrite Hk in Hc; discriminate Hc |].
    split; [| reflexivity]. unfold on_ideal_gas_law in Hgas.
    rewrite <- Hgas. field. lra.
Qed.

(** The loop. *)
Lemma sample_legs_inv states scol gamma Rgas legs :
  forall idx out res,
    sample_legs states scol gamma Rgas idx legs out = Ok res ->
    exists segs,
      Forall2 (fun l seg => leg_segment states scol gamma Rgas l = Ok seg) legs segs /\
      res = out ++ (if (0 <? idx)%nat then map iloc_from_1 segs else deduplicated segs).
Proof.
  induction legs as [| l rest IH]; intros idx out res H; cbn in H.
  - injection H as <-. exists []. split; [constructor |].
    destruct (0 <? idx)%nat; cbn; now rewrite app_nil_r.
  - apply bind_ok in H. destruct H as (seg & Hseg & H).
    apply IH in H. destruct H as (segs & Hsegs & ->). cbn [Nat.ltb Nat.leb].
    exists (seg :: segs). split; [constructor; assumption |].
    rewrite <- app_assoc. cbn [app]. destruct idx; reflexivity.
Qed.

Lemma sample_legs_err states scol gamma Rgas legs :
  forall idx out e,
    sample_legs states scol gamma Rgas idx legs out = Err e ->
    exists l, In l legs /\ leg_segment states scol gamma Rgas l = Err e.
Proof.
  induction legs as [| l rest IH]; intros idx out e H; cbn in H.
  - discriminate H.
  - destruct (leg_segment states scol gamma Rgas l) as [seg | e'] eqn:E; cbn in H.
    + apply IH in H. destruct H as (l' & Hin & Hl'). exists l'. split; [now right | exact Hl'].
    + injection H as <-. exists l. split; [now left | exact E].
Qed.

(** The first leg that fails decides the error. *)
Lemma sample_legs_first_failure states scol gamma Rgas l e :
  forall before after idx out,
    Forall (fun l' => exists seg, leg_segment states scol gamma Rgas l' = Ok seg) before ->
    leg_segment states scol gamma Rgas l = Err e ->
    sample_legs states scol gamma Rgas idx (before ++ l :: after) out = Err e.
Proof.
  induction before as [| l' before IH]; intros after idx out Hb Hl; cbn.
  - rewrite Hl. reflexivity.
  - inversion Hb as [| ? ? [seg Hseg] Hb']; subst. rewrite Hseg. cbn. now apply IH.
Qed.

Lemma smooth_path_ideal_inv states legs gamma Rgas p :
  smooth_path_ideal states legs gamma Rgas = Ok p ->
  exists segs,
    legs <> [] /\
    Forall2 (fun l seg => leg_segment states (choose_scol states) gamma Rgas l = Ok seg)
      legs segs /\
    samples p =
      mk_path_df (concat (map P_kPa (deduplicated segs)))
        (concat (map v_m3_per_kg (deduplicated segs)))
        (concat (map T_K (deduplicated segs)))
        (concat (map s_kJ_per_kgK (deduplicated segs))).
Proof.
  unfold smooth_path_ideal. intro H.
  apply bind_ok in H. destruct H as (out & Hout & H).
  apply sample_legs_inv in Hout. destruct Hout as (segs & Hsegs & ->).
  cbn [Nat.ltb Nat.leb app] in H.
  apply bind_ok in H. destruct H as (df & Hdf & H).
  exists segs. split.
  - intros ->. inversion Hsegs; subst. discriminate Hdf.
  - split; [exact Hsegs |].
    assert (Hs : samples p = df).
    { destruct (choose_scol states) as [c |];
        [destruct (negb (c =? "s_kJ_per_kgK")%string) |];
        injection H as <-; reflexivity. }
    rewrite Hs. unfold pd_concat in Hdf.
    destruct (deduplicated segs); [discriminate Hdf | now injection Hdf as <-].
Qed.

Lemma smooth_path_ideal_err states legs gamma Rgas e :
  smooth_path_ideal states legs gamma Rgas = Err e ->
  (exists l, In l legs /\
             leg_segment states (choose_scol states) gamma Rgas l = Err e) \/
  (legs = [] /\ e = ValueError "No objects to concatenate").
Proof.
  unfold smooth_path_ideal. intro H.
  destruct (sample_legs states (choose_scol states) gamma Rgas 0 legs []) as [out | e'] eqn:E;
    cbn [bind] in H.
  - right. apply sample_legs_inv in E. destruct E as (segs & Hsegs & ->).
    cbn [Nat.ltb Nat.leb app] in H.
    destruct segs as [| seg segs]; cbn in H.
    + inversion Hsegs; subst. injection H as <-. split; reflexivity.
    + destruct (choose_scol states) as [c |];
        [destruct (negb (c =? "s_kJ_per_kgK")%string) |]; discriminate H.
  - left. injection H as <-. eapply sample_legs_err. exact E.
Qed.

Lemma concat_tl_length (col : path_df -> list R) (rest : list path_df) :
  (forall seg, col (iloc_from_1 seg) = tl (col seg)) ->
  Forall (fun seg => length (col seg) = nrows seg /\ (1 <= nrows seg)%nat) rest ->
  (length (concat (map col (map iloc_from_1 rest))) + length rest
   = list_sum (map nrows rest))%nat.
Proof.
  intros Hcol H. induction H as [| seg rest [Hlen Hpos] _ IH]; cbn; [reflexivity |].
  rewrite length_app, Hcol.
  assert (Htl : (length (tl (col seg)) + 1 = nrows seg)%nat).
  { rewrite <- Hlen in *. destruct (col seg); cbn in *; lia. }
  unfold list_sum in *. lia.
Qed.

Lemma deduplicated_length (col : path_df -> list R) (segs : list path_df) :
  (forall seg, col (iloc_from_1 seg) = tl (col seg)) ->
  Forall (fun seg => length (col seg) = nrows seg /\ (1 <= nrows seg)%nat) segs ->
  segs <> [] ->
  (length (concat (map col (deduplicated segs))) + (length segs - 1)
   = list_sum (map nrows segs))%nat.
Proof.
  intros Hcol H Hne. destruct segs as [| seg rest]; [contradiction |].
  inversion H as [| ? ? [Hlen _] Hrest]; subst.
  cbn. rewrite length_app, Hlen, Nat.sub_0_r.
  pose proof (concat_tl_length col rest Hcol Hrest). unfold list_sum in *. lia.
Qed.

Lemma has_rows_nrows seg n : has_rows seg n -> nrows seg = n.
Proof. unfold has_rows, nrows. tauto. Qed.

Lemma segments_have_rows states scol gamma Rgas legs segs :
  Forall2 (fun l seg => leg_segment states scol gamma Rgas l = Ok seg) legs segs ->
  Forall (fun seg => has_rows seg 90 \/ has_rows seg 70) segs.
Proof.
  induction 1 as [| l seg legs segs H _ IH]; constructor; [| exact IH].
  eapply leg_segment_rows. exact H.
Qed.

Lemma Forall_column (col : path_df -> list R) (segs : list path_df) :
  (forall seg n, has_rows seg n -> length (col seg) = n) ->
  Forall (fun seg => has_rows seg 90 \/ has_rows seg 70) segs ->
  Forall (fun seg => length (col seg) = nrows seg /\ (1 <= nrows seg)%nat) segs.
Proof.
  intros Hcol H. induction H as [| seg segs [Hr | Hr] _ IH]; constructor; try exact IH.
  - rewrite (has_rows_nrows _ _ Hr), (Hcol _ _ Hr). lia.
  - rewrite (has_rows_nrows _ _ Hr), (Hcol _ _ Hr). lia.
Qed.

Lemma path_rows states legs gamma Rgas segs :
  legs <> [] ->
  Forall2 (fun l seg => leg_segment states (choose_scol states) gamma Rgas l = Ok seg)
    legs segs ->
  let df := mk_path_df (concat (map P_kPa (deduplicated segs)))
              (concat (map v_m3_per_kg (deduplicated segs)))
              (concat (map T_K (deduplicated segs)))
              (concat (map s_kJ_per_kgK (deduplicated segs))) in
  (length legs - 1 <= list_sum (map nrows segs))%nat /\
  has_rows df (list_sum (map nrows segs) - (length legs - 1)).
Proof.
  intros Hne H df.
  pose proof (Forall2_length H) as Hlen.
  pose proof (segments_have_rows _ _ _ _ _ _ H) as Hrows.
  assert (Hsegs : segs <> []) by (intros ->; destruct legs; [contradiction | discriminate Hlen]).
  rewrite Hlen.
  assert (HP := deduplicated_length P_kPa segs (fun _ => eq_refl)
                  (Forall_column P_kPa segs (fun seg n H => proj1 H) Hrows) Hsegs).
  assert (Hv := deduplicated_length v_m3_per_kg segs (fun _ => eq_refl)
                  (Forall_column v_m3_per_kg segs (fun seg n H => proj1 (proj2 H)) Hrows) Hsegs).
  assert (HT := deduplicated_length T_K segs (fun _ => eq_refl)
                  (Forall_column T_K segs (fun seg n H => proj1 (proj2 (proj2 H))) Hrows) Hsegs).
  assert (Hs := deduplicated_length s_kJ_per_kgK segs (fun _ => eq_refl)
                  (Forall_column s_kJ_per_kgK segs (fun seg n H => proj2 (proj2 (proj2 H))) Hrows) Hsegs).
  split; [lia |]. unfold has_rows, df. cbn. repeat split; lia.
Qed.

Lemma first_sample_concat seg rest P v T s :
  first_sample seg P v T s ->
  first_sample
    (mk_path_df (concat (map P_kPa (deduplicated (seg :: rest))))
       (concat (map v_m3_per_kg (deduplicated (seg :: rest))))
       (concat (map T_K (deduplicated (seg :: rest))))
       (concat (map s_kJ_per_kgK (deduplicated (seg :: rest))))) P v T s.
Proof.
  intros (Ps & vs & Ts & ss & HP & Hv & HT & Hs). unfold first_sample. cbn.
  rewrite HP, Hv, HT, Hs. cbn. do 4 eexists. repeat split.
Qed.

Lemma leg_segment_samples states scol gamma Rgas l seg :
  leg_segment states scol gamma Rgas l = Ok seg -> has_rows seg (leg_samples l).
Proof.
  intro H. apply leg_segment_inv in H. unfold leg_samples.
  destruct H as (a & b & _ & _ & [[-> ->] | [[-> H] | [[-> H] | [-> ->]]]]).
  - count_rows.
  - apply path_const_v_ideal_inv in H. destruct H as [_ ->]. count_rows.
  - apply path_const_p_ideal_inv in H. destruct H as [_ ->]. count_rows.
  - count_rows.
Qed.

Lemma segments_samples states scol gamma Rgas legs segs :
  Forall2 (fun l seg => leg_segment states scol gamma Rgas l = Ok seg) legs segs ->
  Forall2 (fun l seg => leg_segment states scol gamma Rgas l = Ok seg /\
                        has_rows seg (leg_samples l)) legs segs /\
  map nrows segs = map leg_samples legs.
Proof.
  induction 1 as [| l seg legs segs H _ [IH1 IH2]]; [split; [constructor | reflexivity] |].
  pose proof (leg_segment_samples _ _ _ _ _ _ H) as Hr.
  split; [constructor; [split; assumption | exact IH1] |].
  cbn [map]. rewrite IH2, (has_rows_nrows _ _ Hr). reflexivity.
Qed.

(** C4 (amended).  A path sampled from [N] legs has, in each of its four
    columns, the sum of the legs' sample counts, 90 for each isentropic or
    isothermal leg and 70 for each constant-volume or constant-pressure leg,
    minus [N - 1] entries.  Its first sample carries the temperature and the
    entropy of the first leg's start state (the entropy anchor: the state's
    entropy cell, or 0 without an entropy column), and also its pressure and
    volume when the first leg is isentropic, with its power in range, or
    that state lies on the ideal-gas law [P v = R T] for the [R] given to the
    sampler. *)
Theorem path_has_sum_minus_shared_points_and_starts_at_first_state :
  forall states legs gamma Rgas p,
    smooth_path_ideal states legs gamma Rgas = Ok p ->
    (exists segs,
        Forall2 (fun l seg =>
                   leg_segment states (choose_scol states) gamma Rgas l = Ok seg /\
                   has_rows seg (leg_samples l))
          legs segs) /\
    (length legs - 1 <= list_sum (map leg_samples legs))%nat /\
    has_rows (samples p) (list_sum (map leg_samples legs) - (length legs - 1)) /\
    (forall l rest a,
        legs = l :: rest ->
        row states (leg_start l) = Ok a ->
        positive_state a ->
        exists P v,
          first_sample (samples p) P v (cell_T_K a)
            (entropy_anchor (choose_scol states) a) /\
          (isentropic_power_in_range states gamma l ->
           leg_kind l = "isen"%string \/ on_ideal_gas_law Rgas a ->
           P = cell_P_kPa a /\ v = cell_v_m3_per_kg a)).
Proof.
  intros states legs gamma Rgas p H.
  apply smooth_path_ideal_inv in H. destruct H as (segs & Hne & Hsegs & Hp).
  destruct (segments_samples _ _ _ _ _ _ Hsegs) as [Hkinds Hcount].
  destruct (path_rows _ _ _ _ _ Hne Hsegs) as [Hle Hrows].
  rewrite Hcount in Hle, Hrows.
  split; [exists segs; exact Hkinds |].
  split; [exact Hle |]. split; [rewrite Hp; exact Hrows |].
  intros l rest a -> Ha Hpos.
  inversion Hsegs as [| ? seg ? segs' Hseg Hrest]; subst.
  destruct (leg_segment_first _ _ _ _ _ _ _ Hseg Ha Hpos) as (P & v & Hfirst & Heq).
  exists P, v. split; [| intros _; exact Heq].
  rewrite Hp. apply first_sample_concat. exact Hfirst.
Qed.

(** An isentropic, a constant-volume and an isothermal leg between the two
    states of a table: [90 + 70 + 90 - 2 = 248] samples. *)
Lemma path_has_sum_minus_shared_points_and_starts_at_first_state_witness :
  exists p,
    smooth_path_ideal heated_at_constant_volume
      [("isen"%string, 1%Z, 2%Z); ("cv"%string, 2%Z, 1%Z); ("isoth"%string, 1%Z, 2%Z)]
      1.4 0.287 = Ok p /\
    has_rows (samples p) 248 /\
    first_sample (samples p) 100 1 300 0.
Proof.
  destruct (smooth_path_ideal heated_at_constant_volume
              [("isen"%string, 1%Z, 2%Z); ("cv"%string, 2%Z, 1%Z);
               ("isoth"%string, 1%Z, 2%Z)] 1.4 0.287) as [p | e] eqn:E.
  - exists p. split; [reflexivity |].
    destruct (path_has_sum_minus_shared_points_and_starts_at_first_state _ _ _ _ _ E)
      as (_ & _ & Hrows & Hfirst).
    split; [exact Hrows |].
    destruct (Hfirst _ _ (mk_state_row 1 100 300 1 0 0) eq_refl eq_refl)
      as (P & v & Hs & Heq).
    { unfold positive_state. cbn. lra. }
    destruct Heq as [-> ->]; [| left; reflexivity | exact Hs].
    intros _. split; [unfold small_exponent; lra |].
    intros a Ha. injection Ha as <-. unfold moderate. cbn. lra.
  - exfalso. apply smooth_path_ideal_err in E.
    destruct E as [(l & Hin & Hl) | [Hnil _]]; [| discriminate Hnil].
    destruct Hin as [<- | [<- | [<- | []]]]; try discriminate Hl.
    change (path_const_v_ideal 1 600 300 0.287 70 (-1) 1.4 = Err e) in Hl.
    destruct (path_const_v_ideal_ok 1 600 300 0.287 70 (-1) 1.4) as [seg Hseg]; [lra |].
    rewrite Hseg in Hl. discriminate Hl.
Defined.

(** C4, as stated, fails: a single constant-volume leg starting at a state
    with [P = 100], [v = 1], [T = 300] sampled with [R = 0.287] begins at the
    pressure [R T / v = 86.1]. *)
Lemma first_sample_pressure_comes_from_the_gas_law :
  exists p a,
    smooth_path_ideal off_the_gas_law [("cv"%string, 1%Z, 1%Z)] 1.4 0.287 = Ok p /\
    row off_the_gas_law 1 = Ok a /\
    ~ first_sample (samples p) (cell_P_kPa a) (cell_v_m3_per_kg a) (cell_T_K a)
        (entropy_anchor (choose_scol off_the_gas_law) a).
Proof.
  destruct (path_const_v_ideal_ok 1 300 300 0.287 70 0 1.4) as [seg Hseg]; [lra |].
  exists (mk_sampled_path
            (mk_path_df (concat [P_kPa seg]) (concat [v_m3_per_kg seg])
               (concat [T_K seg]) (concat [s_kJ_per_kgK seg])) "s_kJ_per_kgK").
  exists (mk_state_row 1 100 300 1 0 0).
  split; [| split; [reflexivity |]].
  - unfold smooth_path_ideal, sample_legs, leg_segment. cbn [off_the_gas_law choose_scol
      has_s_kJ_per_kgK has_s_rel_kJ_per_kgK row rows find State Z.eqb Pos.eqb bind
      entropy_anchor cell_v_m3_per_kg cell_T_K String.eqb Ascii.eqb Bool.eqb].
    rewrite Hseg. reflexivity.
  - apply path_const_v_ideal_inv in Hseg. destruct Hseg as [_ ->].
    destruct (linspace_cons 300 300 70) as [rest E]; [lia |].
    intros (Ps & vs & Ts & ss & HP & _). rewrite E in HP. cbn in HP.
    injection HP as HP _. lra.
Qed.

(** ** The entropy anchor (C3) *)

Lemma entropy_anchor_is_table_cell states a :
  entropy_anchor (choose_scol states) a =
    if has_s_kJ_per_kgK states then cell_s a
    else if has_s_rel_kJ_per_kgK states then cell_s_rel a
    else 0.
Proof.
  unfold choose_scol.
  destruct (has_s_kJ_per_kgK states); [reflexivity |].
  destruct (has_s_rel_kJ_per_kgK states); reflexivity.
Qed.

Lemma isentropic_segment_keeps_anchor states scol gamma Rgas l seg a :
  leg_segment states scol gamma Rgas l = Ok seg ->
  row states (leg_start l) = Ok a ->
  leg_kind l = "isen"%string ->
  Forall (fun s => s = entropy_anchor scol a) (s_kJ_per_kgK seg).
Proof.
  intros H Ha Hk. apply leg_segment_inv in H.
  destruct H as (a' & b & Ha' & _ & H). rewrite Ha in Ha'. injection Ha' as <-.
  cbv zeta in H.
  destruct H as [[_ ->] | [[Hc _] | [[Hc _] | [Hc _]]]];
    try (rewrite Hk in Hc; discriminate Hc).
  apply full_like_all.
Qed.

(** C3 (amended).  Every leg, the first and each later one alike, is sampled
    from the entropy anchor of its own start state: the state's cell in the
    table's entropy column ([s_kJ_per_kgK] first, else [s_rel_kJ_per_kgK]),
    or 0 when the table has neither.  The segment of a leg starts at that
    entropy and an isentropic segment stays there; the path is these segments,
    each after the first without its first row, so no entropy of an earlier
    leg's samples enters a later leg. *)
Theorem every_leg_anchors_at_its_own_start_state :
  forall states legs gamma Rgas p,
    smooth_path_ideal states legs gamma Rgas = Ok p ->
    exists segs,
      Forall2 (fun l seg =>
                 leg_segment states (choose_scol states) gamma Rgas l = Ok seg /\
                 exists a,
                   row states (leg_start l) = Ok a /\
                   entropy_anchor (choose_scol states) a =
                     (if has_s_kJ_per_kgK states then cell_s a
                      else if has_s_rel_kJ_per_kgK states then cell_s_rel a
                      else 0) /\
                   (positive_state a ->
                    exists P v, first_sample seg P v (cell_T_K a)
                                  (entropy_anchor (choose_scol states) a)) /\
                   (leg_kind l = "isen"%string ->
                    Forall (fun s => s = entropy_anchor (choose_scol states) a)
                      (s_kJ_per_kgK seg)))
        legs segs /\
      samples p =
        mk_path_df (concat (map P_kPa (deduplicated segs)))
          (concat (map v_m3_per_kg (deduplicated segs)))
          (concat (map T_K (deduplicated segs)))
          (concat (map s_kJ_per_kgK (deduplicated segs))).
Proof.
  intros states legs gamma Rgas p H.
  apply smooth_path_ideal_inv in H. destruct H as (segs & _ & Hsegs & Hp).
  exists segs. split; [| exact Hp].
  clear Hp. induction Hsegs as [| l seg legs segs Hseg _ IH]; constructor; [| exact IH].
  split; [exact Hseg |].
  destruct (leg_segment_inv _ _ _ _ _ _ Hseg) as (a & b & Ha & _ & _).
  exists a. split; [exact Ha |].
  split; [apply entropy_anchor_is_table_cell |]. split.
  - intro Hpos.
    destruct (leg_segment_first _ _ _ _ _ _ _ Hseg Ha Hpos) as (P & v & Hfirst & _).
    exists P, v. exact Hfirst.
  - intro Hk. eapply isentropic_segment_keeps_anchor; eassumption.
Qed.

(** C3, as stated, fails: after a constant-volume leg from 300 K to 600 K
    that starts at entropy 0, the running entropy is [cv * ln 2 > 0], and the
    next leg is anchored at its start state's table entry, [-1]. *)
Lemma anchor_is_not_carried_forward :
  ~ anchor_carried_forward heated_at_constant_volume
      [("cv"%string, 1%Z, 2%Z); ("isen"%string, 2%Z, 1%Z)] 1.4 0.287.
Proof.
  intro H.
  destruct (path_const_v_ideal_ok 1 300 600 0.287 70 0 1.4) as [seg Hseg]; [lra |].
  specialize (H 0%nat ("cv"%string, 1%Z, 2%Z) ("isen"%string, 2%Z, 1%Z) seg
                (mk_state_row 2 200 600 1 (-1) 0) eq_refl eq_refl).
  assert (Hl : leg_segment heated_at_constant_volume
                 (choose_scol heated_at_constant_volume) 1.4 0.287
                 ("cv"%string, 1%Z, 2%Z) = Ok seg).
  { unfold leg_segment. cbn [heated_at_constant_volume choose_scol
      has_s_kJ_per_kgK has_s_rel_kJ_per_kgK row rows find State Z.eqb Pos.eqb bind
      entropy_anchor entropy_cell cell_s cell_v_m3_per_kg cell_T_K
      String.eqb Ascii.eqb Bool.eqb].
    exact Hseg. }
  specialize (H Hl eq_refl).
  apply path_const_v_ideal_inv in Hseg. destruct Hseg as [_ ->].
  cbn [s_kJ_per_kgK entropy_anchor choose_scol heated_at_constant_volume
       has_s_kJ_per_kgK entropy_cell String.eqb Ascii.eqb Bool.eqb cell_s] in H.
  unfold linspace in H. rewrite map_app in H. cbn [map] in H.
  rewrite last_last in H.
  assert (Hln : 0 < ln (600 / 300)).
  { rewrite <- ln_1. apply ln_increasing; lra. }
  assert (Hcv : 0 < 0.287 / (1.4 - 1)) by (apply Rdiv_lt_0_compat; lra).
  pose proof (Rmult_lt_0_compat _ _ Hcv Hln). lra.
Qed.

(** The isentropic leg out of state 2, whose table entropy is [-1]. *)
Lemma every_leg_anchors_at_its_own_start_state_witness :
  exists p seg,
    smooth_path_ideal heated_at_constant_volume [("isen"%string, 2%Z, 1%Z)] 1.4 0.287
    = Ok p /\
    leg_segment heated_at_constant_volume (choose_scol heated_at_constant_volume)
      1.4 0.287 ("isen"%string, 2%Z, 1%Z) = Ok seg /\
    Forall (fun s => s = -1) (s_kJ_per_kgK seg).
Proof.
  destruct (smooth_path_ideal heated_at_constant_volume
              [("isen"%string, 2%Z, 1%Z)] 1.4 0.287) as [p | e] eqn:E.
  - destruct (every_leg_anchors_at_its_own_start_state _ _ _ _ _ E)
      as (segs & Hsegs & _).
    inversion Hsegs as [| ? seg ? segs' [Hseg (a & Ha & _ & _ & Hisen)] Hrest]; subst.
    exists p, seg. split; [reflexivity |]. split; [exact Hseg |].
    injection Ha as <-. exact (Hisen eq_refl).
  - exfalso. discriminate E.
Defined.

(** ** The unsupported-process error (C9) *)

Lemma leg_segment_unrecognized states scol gamma Rgas l :
  resolves states l ->
  recognized (leg_kind l) = false ->
  leg_segment states scol gamma Rgas l
  = Err (ValueError ("Unknown leg kind: " ++ leg_kind l)).
Proof.
  destruct l as [[kind i] j]. unfold resolves, recognized, leg_kind, leg_start, leg_end.
  cbn [fst snd]. intros [[a Ha] [b Hb]] Hk.
  apply orb_false_elim in Hk. destruct Hk as [Hk E4].
  apply orb_false_elim in Hk. destruct Hk as [Hk E3].
  apply orb_false_elim in Hk. destruct Hk as [E1 E2].
  unfold leg_segment. rewrite Ha, Hb. cbn [bind]. rewrite E1, E2, E3, E4. reflexivity.
Qed.

Lemma leg_segment_recognized states scol gamma Rgas l :
  gamma <> 1 ->
  resolves states l ->
  recognized (leg_kind l) = true ->
  exists seg, leg_segment states scol gamma Rgas l = Ok seg.
Proof.
  destruct l as [[kind i] j]. unfold resolves, recognized, leg_kind, leg_start, leg_end.
  cbn [fst snd]. intros Hg [[a Ha] [b Hb]] Hk.
  unfold leg_segment. rewrite Ha, Hb. cbn [bind].
  destruct (kind =? "isen")%string; [eexists; reflexivity |].
  destruct (kind =? "cv")%string; [now apply path_const_v_ideal_ok |].
  destruct (kind =? "cp")%string; [now apply path_const_p_ideal_ok |].
  destruct (kind =? "isoth")%string; [eexists; reflexivity | discriminate Hk].
Qed.

Lemma path_const_v_ideal_err Vconst Ta Tb Rgas n s_a gamma e :
  path_const_v_ideal Vconst Ta Tb Rgas n s_a gamma = Err e -> e = ZeroDivisionError.
Proof.
  unfold path_const_v_ideal, _cv_from_gamma_R.
  destruct (fdiv Rgas (gamma - 1)) as [cv | e'] eqn:E; cbn; intro H; [discriminate H |].
  injection H as <-. now apply fdiv_err in E.
Qed.

Lemma path_const_p_ideal_err Pconst Ta Tb Rgas n s_a gamma e :
  path_const_p_ideal Pconst Ta Tb Rgas n s_a gamma = Err e -> e = ZeroDivisionError.
Proof.
  unfold path_const_p_ideal, _cv_from_gamma_R.
  destruct (fdiv Rgas (gamma - 1)) as [cv | e'] eqn:E; cbn; intro H; [discriminate H |].
  injection H as <-. now apply fdiv_err in E.
Qed.

Lemma row_err states k e : row states k = Err e -> e = IndexError.
Proof.
  unfold row. destruct (find _ _); intro H; [discriminate H | now injection H].
Qed.

Lemma unsupported_is_not_division : ~ unsupported_process ZeroDivisionError.
Proof. intros [kind H]. discriminate H. Qed.

Lemma unsupported_is_not_index : ~ unsupported_process IndexError.
Proof. intros [kind H]. discriminate H. Qed.

Lemma unsupported_is_not_empty_concat :
  ~ unsupported_process (ValueError "No objects to concatenate").
Proof. intros [kind H]. cbn in H. discriminate H. Qed.

(** A leg that fails with the unsupported-process error has an unknown kind. *)
Lemma leg_segment_unsupported states scol gamma Rgas l e :
  leg_segment states scol gamma Rgas l = Err e ->
  unsupported_process e ->
  recognized (leg_kind l) = false.
Proof.
  destruct l as [[kind i] j]. unfold recognized, leg_kind. cbn [fst snd].
  unfold leg_segment. intros H Hu.
  destruct (row states i) as [a | e1] eqn:Ea; cbn [bind] in H.
  2: { injection H as <-. apply row_err in Ea. subst.
       now apply unsupported_is_not_index in Hu. }
  destruct (row states j) as [b | e2] eqn:Eb; cbn [bind] in H.
  2: { injection H as <-. apply row_err in Eb. subst.
       now apply unsupported_is_not_index in Hu. }
  destruct (kind =? "isen")%string; [discriminate H |].
  destruct (kind =? "cv")%string.
  { apply path_const_v_ideal_err in H. subst.
    now apply unsupported_is_not_division in Hu. }
  destruct (kind =? "cp")%string.
  { apply path_const_p_ideal_err in H. subst.
    now apply unsupported_is_not_division in Hu. }
  destruct (kind =? "isoth")%string; [discriminate H | reflexivity].
Qed.

Lemma first_unrecognized (legs : list leg) :
  Exists (fun l => recognized (leg_kind l) = false) legs ->
  exists before l after,
    legs = before ++ l :: after /\
    Forall (fun l' => recognized (leg_kind l') = true) before /\
    recognized (leg_kind l) = false.
Proof.
  induction legs as [| l legs IH]; intro H; [inversion H |].
  destruct (recognized (leg_kind l)) eqn:E.
  - inversion H as [? ? H0 | ? ? H0]; subst; [congruence |].
    destruct (IH H0) as (before & l' & after & -> & Hb & Hl').
    exists (l :: before), l', after. split; [reflexivity |].
    split; [constructor; assumption | exact Hl'].
  - exists [], l, legs. split; [reflexivity |]. split; [constructor | exact E].
Qed.

(** C9 (amended).  When every leg's labels resolve, [gamma <> 1] and the
    power of every isentropic leg is in range, the path sampler fails with
    the unsupported-process error exactly when some leg's kind is none of
    ["isen"], ["cv"], ["cp"], ["isoth"]; and for legs of recognized kinds
    whose labels resolve the sampler never fails with that error, whatever
    [gamma] and the table are. *)
Theorem unsupported_process_iff_unrecognized_kind :
  (forall states legs gamma Rgas,
      gamma <> 1 ->
      Forall (resolves states) legs ->
      Forall (isentropic_power_in_range states gamma) legs ->
      ((exists e, smooth_path_ideal states legs gamma Rgas = Err e /\
                  unsupported_process e)
       <-> Exists (fun l => recognized (leg_kind l) = false) legs)) /\
  (forall states legs gamma Rgas e,
      Forall (resolves states) legs ->
      Forall (fun l => recognized (leg_kind l) = true) legs ->
      smooth_path_ideal states legs gamma Rgas = Err e ->
      ~ unsupported_process e).
Proof.
  assert (Hback : forall states legs gamma Rgas e,
             smooth_path_ideal states legs gamma Rgas = Err e ->
             unsupported_process e ->
             Exists (fun l => recognized (leg_kind l) = false) legs).
  { intros states legs gamma Rgas e H Hu.
    apply smooth_path_ideal_err in H. destruct H as [(l & Hin & Hl) | [_ ->]].
    - apply Exists_exists. exists l. split; [exact Hin |].
      eapply leg_segment_unsupported; eassumption.
    - now apply unsupported_is_not_empty_concat in Hu. }
  split.
  - intros states legs gamma Rgas Hg Hres _. split.
    + intros (e & H & Hu). eapply Hback; eassumption.
    + intro Hex. apply first_unrecognized in Hex.
      destruct Hex as (before & l & after & -> & Hb & Hl).
      exists (ValueError ("Unknown leg kind: " ++ leg_kind l)). split.
      * unfold smooth_path_ideal.
        rewrite (sample_legs_first_failure states (choose_scol states) gamma Rgas l
                   (ValueError ("Unknown leg kind: " ++ leg_kind l))).
        -- reflexivity.
        -- apply Forall_forall. intros l' Hin.
           apply leg_segment_recognized; [exact Hg | |].
           ++ rewrite Forall_forall in Hres. apply Hres. apply in_or_app. now left.
           ++ rewrite Forall_forall in Hb. now apply Hb.
        -- apply leg_segment_unrecognized; [| exact Hl].
           rewrite Forall_forall in Hres. apply Hres. apply in_or_app. right. now left.
      * exists (leg_kind l). reflexivity.
  - intros states legs gamma Rgas e _ Hrec H Hu.
    pose proof (Hback _ _ _ _ _ H Hu) as Hex.
    apply Exists_exists in Hex. destruct Hex as (l & Hin & Hl).
    rewrite Forall_forall in Hrec. rewrite (Hrec l Hin) in Hl. discriminate Hl.
Qed.

Lemma heated_powers_in_range (gamma : R) (legs : list leg) :
  small_exponent gamma ->
  Forall (isentropic_power_in_range heated_at_constant_volume gamma) legs.
Proof.
  intro Hg. apply Forall_forall. intros l _ _. split; [exact Hg |].
  intros a Ha. unfold row, heated_at_constant_volume in Ha. cbn [rows find State] in Ha.
  destruct (1 =? leg_start l)%Z.
  - injection Ha as <-. unfold moderate. cbn. lra.
  - destruct (2 =? leg_start l)%Z; [| discriminate Ha].
    injection Ha as <-. unfold moderate. cbn. lra.
Qed.

(** A leg of kind ["adiabatic"] between two states of the table. *)
Lemma unsupported_process_iff_unrecognized_kind_witness :
  exists e,
    smooth_path_ideal heated_at_constant_volume
      [("isen"%string, 1%Z, 2%Z); ("adiabatic"%string, 2%Z, 1%Z)] 1.4 0.287 = Err e /\
    unsupported_process e.
Proof.
  apply (proj1 unsupported_process_iff_unrecognized_kind).
  - lra.
  - repeat constructor; eexists; reflexivity.
  - apply heated_powers_in_range. unfold small_exponent. lra.
  - apply Exists_cons_tl. apply Exists_cons_hd. reflexivity.
Defined.

(** C9, as stated, fails: a leg of unknown kind whose start label names no
    row of the table stops the sampler with an index error, raised by the row
    lookup that precedes the dispatch on the kind. *)
Lemma unknown_kind_with_dangling_label_is_an_index_error :
  smooth_path_ideal off_the_gas_law [("bogus"%string, 9%Z, 9%Z)] 1.4 0.287
  = Err IndexError /\
  ~ ((exists e, smooth_path_ideal off_the_gas_law [("bogus"%string, 9%Z, 9%Z)] 1.4 0.287
                = Err e /\ unsupported_process e)
     <-> Exists (fun l => recognized (leg_kind l) = false) [("bogus"%string, 9%Z, 9%Z)]).
Proof.
  assert (E : smooth_path_ideal off_the_gas_law [("bogus"%string, 9%Z, 9%Z)] 1.4 0.287
              = Err IndexError) by reflexivity.
  split; [exact E |].
  intros [_ H].
  destruct H as (e & He & Hu).
  - apply Exists_cons_hd. reflexivity.
  - rewrite E in He. injection He as <-. now apply unsupported_is_not_index in Hu.
Qed.

(** ** Turbine-exit quality (C8) *)

Lemma bindL_ok {A B : Type} (m : lookups A) (k : A -> lookups B) log b log'' :
  bindL m k log = (Ok b, log'') ->
  exists a log', m log = (Ok a, log') /\ k a log' = (Ok b, log'').
Proof.
  unfold bindL. destruct (m log) as [[a | e] log']; intro H.
  - exists a, log'. split; [reflexivity | exact H].
  - discriminate H.
Qed.

Lemma IAPWS97_ok prov q log st log' :
  IAPWS97 prov q log = (Ok st, log') -> prov q = Ok st /\ log' = log ++ [q].
Proof. unfold IAPWS97. intro H. injection H as H1 H2. split; congruence. Qed.

Lemma safe_quality_cases (st : iapws.IAPWS97) :
  (forall x, iapws.x st <> iapws.x_value x) -> _safe_quality st = None.
Proof.
  unfold _safe_quality. intro H. destruct (iapws.x st) as [| | | q]; try reflexivity.
  now elim (H q).
Qed.






Lemma dome_loop_total prov Ps :
  (forall q, exists st, prov q = Ok st) ->
  forall Ts sf sg log,
    exists dome log', dome_loop prov Ps Ts sf sg log = (Ok dome, log').
Proof.
  intro Htot. induction Ps as [| P Ps IH]; intros Ts sf sg log; cbn [dome_loop].
  - eexists _, _. reflexivity.
  - unfold bindL, IAPWS97.
    destruct (Htot (iapws.P_x P 0)) as [f ->].
    destruct (Htot (iapws.P_x P 1)) as [g ->].
    apply IH.
Qed.

Lemma toy_steam_total : forall q, exists st, toy_steam q = Ok st.
Proof. intros [P x | P h | P T | P s]; eexists; reflexivity. Qed.






(** ** The saturation curve of the refrigeration solver (C10) *)

Lemma append_rows_nil acc : append_rows acc [] = acc.
Proof. destruct acc. unfold append_rows. cbn. now rewrite !app_nil_r. Qed.

Lemma append_rows_cons acc r rows :
  append_rows acc (r :: rows) = append_rows (append_rows acc [r]) rows.
Proof. unfold append_rows. cbn. now rewrite <- !app_assoc. Qed.

(** One iteration either appends a full row, or is skipped at the first
    lookup, or stops part-way with the pressure appended and [sg] not. *)
Lemma sat_step_cases cp fluid acc T :
  (exists r, sat_properties cp fluid T = Some r /\
             sat_step cp fluid acc T = append_rows acc [r]) \/
  (sat_properties cp fluid T = None /\ sat_step cp fluid acc T = acc) \/
  (sat_properties cp fluid T = None /\
   (exists P, PropsSI cp "P" "T" T "Q" 0 fluid = Ok P) /\
   length (Pline (sat_step cp fluid acc T)) = S (length (Pline acc)) /\
   sg (sat_step cp fluid acc T) = sg acc).
Proof.
  unfold sat_properties, sat_step.
  destruct (PropsSI cp "P" "T" T "Q" 0 fluid) as [P | e].
  2: { right; left. split; reflexivity. }
  destruct (PropsSI cp "H" "T" T "Q" 0 fluid) as [h0 | e].
  2: { right; right. cbn. rewrite length_app. cbn. repeat split; eauto; lia. }
  destruct (PropsSI cp "H" "T" T "Q" 1 fluid) as [h1 | e].
  2: { right; right. cbn. rewrite length_app. cbn. repeat split; eauto; lia. }
  destruct (PropsSI cp "S" "T" T "Q" 0 fluid) as [s0 | e].
  2: { right; right. cbn. rewrite length_app. cbn. repeat split; eauto; lia. }
  destruct (PropsSI cp "S" "T" T "Q" 1 fluid) as [s1 | e].
  2: { right; right. cbn. rewrite length_app. cbn. repeat split; eauto; lia. }
  left. eexists. split; reflexivity.
Qed.

Lemma sat_step_mono cp fluid acc T :
  (length (sg (sat_step cp fluid acc T)) + length (Pline acc)
   <= length (Pline (sat_step cp fluid acc T)) + length (sg acc))%nat.
Proof.
  destruct (sat_step_cases cp fluid acc T) as [(r & _ & ->) | [[_ ->] | (_ & _ & HP & ->)]].
  - destruct r as [[[[p a] b] c] d]. cbn. rewrite !length_app. cbn. lia.
  - lia.
  - lia.
Qed.

Lemma sat_fold_mono cp fluid l :
  forall acc,
    (length (sg (fold_left (sat_step cp fluid) l acc)) + length (Pline acc)
     <= length (Pline (fold_left (sat_step cp fluid) l acc)) + length (sg acc))%nat.
Proof.
  induction l as [| T l IH]; intro acc; cbn [fold_left]; [lia |].
  pose proof (IH (sat_step cp fluid acc T)).
  pose proof (sat_step_mono cp fluid acc T). lia.
Qed.

(** When the loop ends with [sg] as long as [Pline], no iteration stopped
    part-way: the lists hold the rows of the successful grid points. *)
Lemma sat_fold_balanced cp fluid l :
  forall acc,
    (length (sg (fold_left (sat_step cp fluid) l acc)) + length (Pline acc)
     = length (Pline (fold_left (sat_step cp fluid) l acc)) + length (sg acc))%nat ->
    fold_left (sat_step cp fluid) l acc = append_rows acc (good_rows cp fluid l).
Proof.
  induction l as [| T l IH]; intros acc Hbal; cbn [fold_left] in *.
  - cbn. now rewrite append_rows_nil.
  - pose proof (sat_fold_mono cp fluid l (sat_step cp fluid acc T)) as Hm.
    pose proof (sat_step_mono cp fluid acc T) as Hs.
    unfold good_rows. cbn [flat_map]. fold (good_rows cp fluid l).
    destruct (sat_step_cases cp fluid acc T)
      as [(r & Hr & Hstep) | [[Hr Hstep] | (Hr & _ & HP & Hsg)]].
    + rewrite Hr. cbn [app]. rewrite append_rows_cons, <- Hstep.
      apply IH. lia.
    + rewrite Hr. cbn [app]. rewrite Hstep in *. apply IH. lia.
    + exfalso. rewrite Hsg in Hm. lia.
Qed.

Lemma good_rows_filter cp fluid l :
  Forall2 (fun row T => sat_properties cp fluid T = Some row)
    (good_rows cp fluid l) (filter (lookup_succeeds cp fluid) l).
Proof.
  induction l as [| T l IH]; cbn; [constructor |].
  unfold lookup_succeeds at 1.
  destruct (sat_properties cp fluid T) as [r |] eqn:E; cbn; [| exact IH].
  constructor; assumption.
Qed.

Lemma zip5_projections (rows : list sat_row) :
  zip5 (map (fun r : sat_row => let '(p, _, _, _, _) := r in p) rows)
       (map (fun r : sat_row => let '(_, a, _, _, _) := r in a) rows)
       (map (fun r : sat_row => let '(_, _, b, _, _) := r in b) rows)
       (map (fun r : sat_row => let '(_, _, _, c, _) := r in c) rows)
       (map (fun r : sat_row => let '(_, _, _, _, d) := r in d) rows)
  = rows.
Proof.
  induction rows as [| [[[[p a] b] c] d] rows IH]; cbn; [reflexivity |].
  now rewrite IH.
Qed.

Lemma sat_DataFrame_inv T_K P h_f h_g s_f s_g sat :
  sat_DataFrame T_K P h_f h_g s_f s_g = Ok sat ->
  sat = mk_sat_df T_K P h_f h_g s_f s_g /\
  length P = length T_K /\ length h_f = length T_K /\ length h_g = length T_K /\
  length s_f = length T_K /\ length s_g = length T_K.
Proof.
  unfold sat_DataFrame.
  destruct (_ && _)%bool eqn:E; intro H; [| discriminate H].
  injection H as <-.
  repeat (apply andb_prop in E; destruct E as [E ?]).
  repeat match goal with H : (_ =? _)%nat = true |- _ => apply Nat.eqb_eq in H end.
  tauto.
Qed.

(** The grid: [linspace] in closed form, and increasing when [a < b]. *)
Lemma linspace_nth (a b : R) (n i : nat) :
  (2 <= n)%nat -> (i < n)%nat ->
  nth_error (linspace a b n) i = Some (a + INR i * ((b - a) / INR (n - 1))).
Proof.
  destruct n as [| [| m]]; try lia. intros _ Hi.
  unfold linspace. replace (S (S m) - 1)%nat with (S m) by lia.
  destruct (Nat.eq_dec i (S m)) as [-> | Hne].
  - rewrite nth_error_app2 by (rewrite length_map, length_seq; lia).
    rewrite length_map, length_seq, Nat.sub_diag. cbn [nth_error].
    f_equal. field. apply not_0_INR. lia.
  - rewrite nth_error_app1 by (rewrite length_map, length_seq; lia).
    rewrite nth_error_map, nth_error_seq.
    destruct (Nat.ltb_spec i (S m)); [reflexivity | lia].
Qed.

Lemma linspace_increasing (a b : R) (n i j : nat) (x y : R) :
  a < b ->
  nth_error (linspace a b n) i = Some x ->
  nth_error (linspace a b n) j = Some y ->
  (i < j)%nat -> x < y.
Proof.
  intros Hab Hi Hj Hij.
  assert (Hjn : (j < n)%nat).
  { rewrite <- (linspace_length a b n). apply nth_error_Some. congruence. }
  assert (Hn : (2 <= n)%nat) by lia.
  rewrite linspace_nth in Hi by lia. rewrite linspace_nth in Hj by lia.
  injection Hi as <-. injection Hj as <-.
  assert (Hstep : 0 < (b - a) / INR (n - 1)).
  { apply Rdiv_lt_0_compat; [lra |]. apply lt_0_INR. lia. }
  assert (HI : INR i < INR j) by (apply lt_INR; exact Hij).
  nra.
Qed.

(** In an increasing list, the [i]-th element that passes a filter sits at
    or after position [i], and strictly after it once an earlier element has
    been filtered out. *)
Lemma filter_lags (f : R -> bool) (l : list R) :
  (forall i j x y, nth_error l i = Some x -> nth_error l j = Some y ->
                   (i < j)%nat -> x < y) ->
  forall i y,
    nth_error (filter f l) i = Some y ->
    exists x,
      nth_error l i = Some x /\ x <= y /\
      ((exists z, In z l /\ z < y /\ f z = false) -> x < y).
Proof.
  induction l as [| a l IH]; intros Hinc i y Hy; [destruct i; discriminate Hy |].
  assert (Hinc' : forall i j x y, nth_error l i = Some x -> nth_error l j = Some y ->
                                  (i < j)%nat -> x < y).
  { intros i' j' x' y' Hx' Hy' Hlt. apply (Hinc (S i') (S j') x' y'); auto. lia. }
  assert (Hhead : forall z, In z l -> a < z).
  { intros z Hz. apply In_nth_error in Hz. destruct Hz as [k Hk].
    apply (Hinc 0%nat (S k) a z); auto. lia. }
  cbn [filter] in Hy. destruct (f a) eqn:Ea.
  - destruct i as [| i]; cbn [nth_error] in *.
    + injection Hy as <-. exists a. split; [reflexivity |]. split; [lra |].
      intros (z & [<- | Hz] & Hlt & Hf); [lra |]. pose proof (Hhead z Hz). lra.
    + destruct (IH Hinc' i y Hy) as (x & Hx & Hle & Hstrict).
      exists x. split; [exact Hx |]. split; [exact Hle |].
      intros (z & [<- | Hz] & Hlt & Hf); [congruence |].
      apply Hstrict. exists z. auto.
  - destruct (IH Hinc' i y Hy) as (x' & Hx' & Hle' & _).
    destruct i as [| i]; cbn [nth_error].
    + exists a. split; [reflexivity |].
      assert (a < y).
      { apply Hhead. apply nth_error_In in Hy.
        apply filter_In in Hy. tauto. }
      split; [lra | intros _; assumption].
    + assert (Hlen : (i < length l)%nat).
      { assert (nth_error l (S i) <> None) by congruence.
        apply nth_error_Some in H. lia. }
      destruct (nth_error l i) as [x |] eqn:Hx;
        [| apply nth_error_None in Hx; lia].
      exists x. split; [reflexivity |].
      assert (x < x') by (apply (Hinc' i (S i) x x'); auto).
      split; [lra | intros _; lra].
Qed.

Lemma filter_all (f : R -> bool) (l : list R) :
  length (filter f l) = length l -> filter f l = l.
Proof.
  induction l as [| a l IH]; cbn; [reflexivity |].
  destruct (f a); cbn; intro H.
  - f_equal. apply IH. lia.
  - pose proof (filter_length_le f l). lia.
Qed.

Lemma good_rows_length cp fluid l :
  length (good_rows cp fluid l) = length (filter (lookup_succeeds cp fluid) l).
Proof.
  symmetry. eapply Forall2_length. apply Forall2_flip. apply good_rows_filter.
Qed.

Lemma vcr_ideal_inv cp fluid Tevap_C Tcond_C superheat_C subcool_C states metrics sat :
  vcr_ideal cp fluid Tevap_C Tcond_C superheat_C subcool_C = Ok (states, metrics, sat) ->
  let Tline := linspace (Tevap_C + 273.15) (Tcond_C + 273.15) 80 in
  let acc := sat_loop cp fluid Tline in
  Tevap_C + 273.15 < Tcond_C + 273.15 /\
  sat_DataFrame (firstn (length (Pline acc)) Tline) (Pline acc) (hf acc) (hg acc)
    (sf acc) (sg acc) = Ok sat.
Proof.
  unfold vcr_ideal. intro H. cbv zeta in H.
  destruct (Rle_dec (Tcond_C + 273.15) (Tevap_C + 273.15)) as [| Hlt]; [discriminate H |].
  cbv zeta. split; [lra |].
  repeat (apply bind_ok in H; destruct H as (? & ? & H)).
  injection H as _ _ <-. assumption.
Qed.


Lemma sat_loop_balanced cp fluid l :
  length (sg (sat_loop cp fluid l)) = length (Pline (sat_loop cp fluid l)) ->
  sat_loop cp fluid l
  = append_rows (mk_sat_lists [] [] [] [] []) (good_rows cp fluid l).
Proof.
  unfold sat_loop. intro H. apply sat_fold_balanced.
  change (length (Pline (mk_sat_lists [] [] [] [] []))) with 0%nat.
  change (length (sg (mk_sat_lists [] [] [] [] []))) with 0%nat.
  rewrite !Nat.add_0_r. exact H.
Qed.

(** When no grid point fails part-way, the table can be built. *)
Lemma sat_fold_no_partial cp fluid l :
  (forall T, In T l -> sat_properties cp fluid T = None ->
             exists e, PropsSI cp "P" "T" T "Q" 0 fluid = Err e) ->
  forall acc,
    fold_left (sat_step cp fluid) l acc = append_rows acc (good_rows cp fluid l).
Proof.
  induction l as [| T l IH]; intros Hl acc; cbn [fold_left].
  - cbn. now rewrite append_rows_nil.
  - unfold good_rows. cbn [flat_map]. fold (good_rows cp fluid l).
    destruct (sat_step_cases cp fluid acc T)
      as [(r & Hr & Hstep) | [[Hr Hstep] | (Hr & [P HP] & _)]].
    + rewrite Hr. cbn [app]. rewrite append_rows_cons, <- Hstep.
      apply IH. intros T' HT'. apply Hl. now right.
    + rewrite Hr. cbn [app]. rewrite Hstep. apply IH.
      intros T' HT'. apply Hl. now right.
    + exfalso. destruct (Hl T (or_introl eq_refl) Hr) as [e He]. congruence.
Qed.

Lemma good_rows_length_le cp fluid l :
  (length (good_rows cp fluid l) <= length l)%nat.
Proof. rewrite good_rows_length. apply filter_length_le. Qed.

Lemma sat_table_built cp fluid l :
  (forall T, In T l -> sat_properties cp fluid T = None ->
             exists e, PropsSI cp "P" "T" T "Q" 0 fluid = Err e) ->
  exists sat,
    sat_DataFrame (firstn (length (Pline (sat_loop cp fluid l))) l)
      (Pline (sat_loop cp fluid l)) (hf (sat_loop cp fluid l))
      (hg (sat_loop cp fluid l)) (sf (sat_loop cp fluid l))
      (sg (sat_loop cp fluid l)) = Ok sat.
Proof.
  intro Hl. unfold sat_loop. rewrite (sat_fold_no_partial cp fluid l Hl).
  unfold append_rows, sat_DataFrame. cbn [Pline hf hg sf sg app].
  pose proof (good_rows_length_le cp fluid l).
  rewrite length_firstn, !length_map.
  replace (Nat.min (length (good_rows cp fluid l)) (length l))
    with (length (good_rows cp fluid l)) by lia.
  rewrite Nat.eqb_refl. cbn [andb]. eexists. reflexivity.
Qed.

Lemma toy_refrigerant_P lo hi T n2 v2 fluid :
  ~ (lo <= T <= hi) ->
  PropsSI (toy_refrigerant lo hi) "P" "T" T n2 v2 fluid = Ok (1000 * T).
Proof.
  intro H. cbn.
  destruct (Rle_dec lo T); [| reflexivity].
  destruct (Rle_dec T hi); [exfalso; apply H; split; assumption | reflexivity].
Qed.

Lemma toy_refrigerant_no_partial lo hi fluid T :
  sat_properties (toy_refrigerant lo hi) fluid T = None ->
  exists e, PropsSI (toy_refrigerant lo hi) "P" "T" T "Q" 0 fluid = Err e.
Proof.
  unfold sat_properties.
  destruct (PropsSI (toy_refrigerant lo hi) "P" "T" T "Q" 0 fluid) as [P | e].
  - cbn. intro H. discriminate H.
  - intros _. exists e. reflexivity.
Qed.

Lemma toy_refrigerant_H lo hi n1 v1 n2 v2 fluid :
  PropsSI (toy_refrigerant lo hi) "H" n1 v1 n2 v2 fluid = Ok (v1 + 1000 * v2).
Proof. reflexivity. Qed.

Lemma toy_refrigerant_S lo hi n1 v1 n2 v2 fluid :
  PropsSI (toy_refrigerant lo hi) "S" n1 v1 n2 v2 fluid = Ok (v1 + v2).
Proof. reflexivity. Qed.

Lemma toy_refrigerant_V lo hi n1 v1 n2 v2 fluid :
  PropsSI (toy_refrigerant lo hi) "V" n1 v1 n2 v2 fluid = Ok (v1 + v2).
Proof. reflexivity. Qed.

Lemma toy_refrigerant_T lo hi n1 v1 n2 v2 fluid :
  PropsSI (toy_refrigerant lo hi) "T" n1 v1 n2 v2 fluid = Ok (v1 + v2).
Proof. reflexivity. Qed.

Lemma toy_vcr_ideal_returns lo hi fluid Tevap_C Tcond_C superheat_C subcool_C :
  0 < Tevap_C + 273.15 < Tcond_C + 273.15 ->
  0 <= superheat_C ->
  ~ (lo <= Tevap_C + 273.15 <= hi) ->
  ~ (lo <= Tcond_C + 273.15 <= hi) ->
  exists states metrics sat,
    vcr_ideal (toy_refrigerant lo hi) fluid Tevap_C Tcond_C superheat_C subcool_C
    = Ok (states, metrics, sat).
Proof.
  intros HT Hsh Hlo Hhi.
  destruct (sat_table_built (toy_refrigerant lo hi) fluid
              (linspace (Tevap_C + 273.15) (Tcond_C + 273.15) 80)) as [sat Hsat].
  { intros T _. apply toy_refrigerant_no_partial. }
  unfold vcr_ideal. cbv zeta.
  destruct (Rle_dec (Tcond_C + 273.15) (Tevap_C + 273.15)); [lra |].
  rewrite Hsat.
  rewrite !toy_refrigerant_P by assumption. cbn [bind].
  repeat (first [ rewrite toy_refrigerant_H | rewrite toy_refrigerant_S
                | rewrite toy_refrigerant_V | rewrite toy_refrigerant_T ];
          cbn [bind]).
  unfold kJ, kPa, kJk.
  rewrite fdiv_ok by lra. cbn [bind].
  rewrite fdiv_ok by lra. cbn [bind].
  eexists _, _, _. reflexivity.
Qed.

Lemma toy_vcr_ideal_ok :
  exists states metrics sat,
    vcr_ideal (toy_refrigerant 273.15 283.15) "R134a" (-10) 40 5 5
    = Ok (states, metrics, sat).
Proof. apply toy_vcr_ideal_returns; lra. Qed.

(** C10.  In what a successful vapor-compression invocation returns, the
    saturation table has one row for each of the [k] grid temperatures, out
    of the 80 of [linspace(Te, Tc, 80)], at which the saturation lookups
    succeed; its rows hold, in grid order, the properties evaluated at those
    temperatures; and its temperature column is the first [k] grid
    temperatures.  So the temperature written in a row is never above the one
    its properties were evaluated at, and it is strictly below it as soon as
    the lookups failed at an earlier grid point; when all 80 succeed each row
    holds the properties evaluated at its own temperature. *)
Theorem saturation_rows_pair_with_the_first_grid_temperatures :
  forall cp fluid Tevap_C Tcond_C superheat_C subcool_C states metrics sat,
    vcr_ideal cp fluid Tevap_C Tcond_C superheat_C subcool_C = Ok (states, metrics, sat) ->
    let Tline := linspace (Tevap_C + 273.15) (Tcond_C + 273.15) 80 in
    let good := filter (lookup_succeeds cp fluid) Tline in
    let k := length good in
    length Tline = 80%nat /\
    sat_T_K sat = firstn k Tline /\
    length (sat_T_K sat) = k /\ length (sat_P_kPa sat) = k /\
    length (sat_h_f sat) = k /\ length (sat_h_g sat) = k /\
    length (sat_s_f sat) = k /\ length (sat_s_g sat) = k /\
    Forall2 (fun row T => sat_properties cp fluid T = Some row) (sat_rows sat) good /\
    (forall i T_eval,
        nth_error good i = Some T_eval ->
        exists T_row,
          nth_error (sat_T_K sat) i = Some T_row /\
          T_row <= T_eval /\
          ((exists T_fail, In T_fail Tline /\ T_fail < T_eval /\
                           lookup_succeeds cp fluid T_fail = false) ->
           T_row < T_eval)) /\
    (k = 80%nat ->
     sat_T_K sat = Tline /\
     Forall2 (fun row T => sat_properties cp fluid T = Some row)
       (sat_rows sat) (sat_T_K sat)).
Proof.
  intros cp fluid Tevap_C Tcond_C superheat_C subcool_C states metrics sat H Tline good k.
  apply vcr_ideal_inv in H. cbv zeta in H. fold Tline in H. destruct H as [Hlt H].
  assert (Hlen : length Tline = 80%nat) by apply linspace_length.
  assert (Hinc : forall i j x y,
             nth_error Tline i = Some x -> nth_error Tline j = Some y ->
             (i < j)%nat -> x < y).
  { intros i j x y. apply linspace_increasing. exact Hlt. }
  clearbody Tline.
  apply sat_DataFrame_inv in H.
  destruct H as (Hsat & HP & Hhf & Hhg & Hsf & Hsg).
  assert (Hacc : sat_loop cp fluid Tline
                 = append_rows (mk_sat_lists [] [] [] [] []) (good_rows cp fluid Tline)).
  { apply sat_loop_balanced. rewrite HP, Hsg. reflexivity. }
  assert (Hk : length (good_rows cp fluid Tline) = k) by apply good_rows_length.
  assert (Hk80 : (k <= 80)%nat).
  { unfold k, good. rewrite <- Hlen. apply filter_length_le. }
  rewrite Hacc in Hsat. unfold append_rows in Hsat.
  cbn [Pline hf hg sf sg app] in Hsat. rewrite length_map, Hk in Hsat.
  subst sat. unfold sat_rows. cbn [sat_T_K sat_P_kPa sat_h_f sat_h_g sat_s_f sat_s_g].
  rewrite zip5_projections, !length_map, Hk.
  assert (HTk : length (firstn k Tline) = k) by (rewrite length_firstn; lia).
  split; [exact Hlen |]. split; [reflexivity |].
  split; [exact HTk |]. do 5 (split; [reflexivity |]).
  split; [apply good_rows_filter |]. split.
  - intros i T_eval Hi.
    destruct (filter_lags (lookup_succeeds cp fluid) Tline Hinc i T_eval Hi)
      as (x & Hx & Hle & Hstrict).
    exists x. split; [| split; assumption].
    rewrite nth_error_firstn.
    assert (Hik : (i < k)%nat).
    { unfold k. apply nth_error_Some. congruence. }
    destruct (Nat.ltb_spec i k); [exact Hx | lia].
  - intro Hall.
    assert (Hgood : good = Tline).
    { unfold good. apply filter_all. fold good. fold k. lia. }
    rewrite Hall, <- Hlen, firstn_all. split; [reflexivity |].
    rewrite <- Hgood at 2. apply good_rows_filter.
Qed.

(** Evaporating at -10 C and condensing at 40 C, against the stand-in
    library whose saturation pressure fails between 273.15 K and 283.15 K. *)
Lemma saturation_rows_pair_with_the_first_grid_temperatures_witness :
  exists states metrics sat,
    vcr_ideal (toy_refrigerant 273.15 283.15) "R134a" (-10) 40 5 5
    = Ok (states, metrics, sat) /\
    sat_T_K sat =
      firstn
        (length (filter (lookup_succeeds (toy_refrigerant 273.15 283.15) "R134a")
                   (linspace (-10 + 273.15) (40 + 273.15) 80)))
        (linspace (-10 + 273.15) (40 + 273.15) 80).
Proof.
  destruct toy_vcr_ideal_ok as (states & metrics & sat & E).
  exists states, metrics, sat. split; [exact E |].
  exact (proj1 (proj2
           (saturation_rows_pair_with_the_first_grid_temperatures _ _ _ _ _ _ _ _ _ E))).
Defined.

(** * Further properties of the code *)

(** ** More on the process laws *)

Lemma zip4_map {A : Type} (f1 f2 f3 f4 : A -> R) (l : list A) :
  zip4 (map f1 l) (map f2 l) (map f3 l) (map f4 l)
  = map (fun x => (f1 x, f2 x, f3 x, f4 x)) l.
Proof. induction l as [| x l IH]; cbn; [reflexivity | now rewrite IH]. Qed.

Lemma linspace_In (a b x : R) (n : nat) :
  In x (linspace a b n) ->
  exists t, 0 <= t <= 1 /\ x = a + t * (b - a).
Proof.
  intro H. destruct n as [| [| m]].
  - destruct H.
  - destruct H as [<- | []]. exists 0. split; [lra | ring].
  - apply In_nth_error in H. destruct H as [i Hi].
    assert (Hlt : (i < S (S m))%nat).
    { rewrite <- (linspace_length a b (S (S m))). apply nth_error_Some. congruence. }
    rewrite linspace_nth in Hi by lia.
    replace (S (S m) - 1)%nat with (S m) in Hi by lia.
    set (d := INR (S m)) in *. injection Hi as <-.
    assert (Hp : 0 < d) by (apply lt_0_INR; lia).
    exists (INR i / d). split.
    + assert (Hi' : INR i <= d) by (apply le_INR; lia).
      assert (Hi0 : 0 <= INR i) by apply pos_INR.
      assert (Hinv : 0 < / d) by (apply Rinv_0_lt_compat; exact Hp).
      assert (Hone : / d * d = 1) by (apply Rinv_l; lra).
      unfold Rdiv. split; nra.
    + field. lra.
Qed.

Lemma linspace_positive (a b : R) (n : nat) :
  0 < a -> 0 < b -> Forall (fun x => 0 < x) (linspace a b n).
Proof.
  intros Ha Hb. apply Forall_forall. intros x Hx.
  apply linspace_In in Hx. destruct Hx as (t & [Ht0 Ht1] & ->). nra.
Qed.

Lemma path_isothermal_samples Tconst Va Vb Rgas n s_a :
  path_samples (path_isothermal_ideal Tconst Va Vb Rgas n s_a)
  = map (fun v => (Rgas * Tconst / v, v, Tconst, s_a + Rgas * ln (v / Va)))
      (linspace Va Vb n).
Proof.
  unfold path_samples, path_isothermal_ideal, full_like. cbn.
  rewrite <- (map_id (linspace Va Vb n)) at 2.
  rewrite (zip4_map (fun v => Rgas * Tconst / v) (fun v => v) (fun _ => Tconst)).
  reflexivity.
Qed.

Lemma path_isentropic_samples Pa Va Ta Pb Vb gamma Rgas n s_a :
  path_samples (path_isentropic_ideal Pa Va Ta Pb Vb gamma Rgas n s_a)
  = map (fun v => (Pa * fpow Va gamma / fpow v gamma, v,
                   Ta * fpow (Va / v) (gamma - 1), s_a))
      (linspace Va Vb n).
Proof.
  unfold path_samples, path_isentropic_ideal, full_like. cbn.
  rewrite map_map.
  rewrite <- (map_id (linspace Va Vb n)) at 2.
  rewrite (zip4_map (fun v => Pa * fpow Va gamma / fpow v gamma) (fun v => v)
             (fun v => Ta * fpow (Va / v) (gamma - 1)) (fun _ => s_a)).
  reflexivity.
Qed.

Lemma path_const_v_samples Vconst Ta Tb Rgas n s_a gamma df :
  path_const_v_ideal Vconst Ta Tb Rgas n s_a gamma = Ok df ->
  path_samples df
  = map (fun t => (Rgas * t / Vconst, Vconst, t,
                   s_a + Rgas / (gamma - 1) * ln (t / Ta)))
      (linspace Ta Tb n).
Proof.
  intro H. apply path_const_v_ideal_inv in H. destruct H as [_ ->].
  unfold path_samples, full_like. cbn.
  rewrite <- (map_id (linspace Ta Tb n)) at 3.
  rewrite (zip4_map (fun t => Rgas * t / Vconst) (fun _ => Vconst) (fun t => t)).
  reflexivity.
Qed.

Lemma path_const_p_samples Pconst Ta Tb Rgas n s_a gamma df :
  path_const_p_ideal Pconst Ta Tb Rgas n s_a gamma = Ok df ->
  path_samples df
  = map (fun t => (Pconst, Rgas * t / Pconst, t,
                   s_a + gamma * (Rgas / (gamma - 1)) * ln (t / Ta)))
      (linspace Ta Tb n).
Proof.
  intro H. apply path_const_p_ideal_inv in H. destruct H as [_ ->].
  unfold path_samples, full_like. cbn.
  rewrite <- (map_id (linspace Ta Tb n)) at 3.
  rewrite (zip4_map (fun _ => Pconst) (fun t => Rgas * t / Pconst) (fun t => t)).
  reflexivity.
Qed.

(** X1.  Every sample of a constant-volume, a constant-pressure or an
    isothermal leg lies on the ideal-gas law [P v = R T]: the law that was
    not held fixed is recomputed from it at each point.  The held volume or
    pressure must not be zero, and the end volumes of an isothermal leg must
    be positive. *)
Theorem samples_of_non_isentropic_legs_obey_the_gas_law :
  (forall Vconst Ta Tb Rgas n s_a gamma df,
      Vconst <> 0 ->
      path_const_v_ideal Vconst Ta Tb Rgas n s_a gamma = Ok df ->
      length (path_samples df) = n /\
      Forall (fun '(P, v, T, _) => P * v = Rgas * T) (path_samples df)) /\
  (forall Pconst Ta Tb Rgas n s_a gamma df,
      Pconst <> 0 ->
      path_const_p_ideal Pconst Ta Tb Rgas n s_a gamma = Ok df ->
      length (path_samples df) = n /\
      Forall (fun '(P, v, T, _) => P * v = Rgas * T) (path_samples df)) /\
  (forall Tconst Va Vb Rgas n s_a,
      0 < Va -> 0 < Vb ->
      let df := path_isothermal_ideal Tconst Va Vb Rgas n s_a in
      length (path_samples df) = n /\
      Forall (fun '(P, v, T, _) => P * v = Rgas * T) (path_samples df)).
Proof.
  split; [| split].
  - intros Vconst Ta Tb Rgas n s_a gamma df HV H.
    rewrite (path_const_v_samples _ _ _ _ _ _ _ _ H).
    rewrite length_map, linspace_length. split; [reflexivity |].
    apply Forall_map. apply Forall_forall. intros t _. field. exact HV.
  - intros Pconst Ta Tb Rgas n s_a gamma df HP H.
    rewrite (path_const_p_samples _ _ _ _ _ _ _ _ H).
    rewrite length_map, linspace_length. split; [reflexivity |].
    apply Forall_map. apply Forall_forall. intros t _. field. exact HP.
  - intros Tconst Va Vb Rgas n s_a Ha Hb df. unfold df.
    rewrite path_isothermal_samples.
    rewrite length_map, linspace_length. split; [reflexivity |].
    apply Forall_map.
    eapply Forall_impl; [| apply (linspace_positive Va Vb n Ha Hb)].
    intros v Hv. cbn. field. lra.
Qed.

Lemma samples_of_non_isentropic_legs_obey_the_gas_law_witness :
  (exists df, path_const_v_ideal 0.1 600 1800 0.287 70 0 1.4 = Ok df /\
              Forall (fun '(P, v, T, _) => P * v = 0.287 * T) (path_samples df)) /\
  Forall (fun '(P, v, T, _) => P * v = 0.287 * T)
    (path_samples (path_isothermal_ideal 600 1 30 0.287 90 0)).
Proof.
  destruct samples_of_non_isentropic_legs_obey_the_gas_law as (Hv & _ & Ht).
  split.
  - destruct (path_const_v_ideal_ok 0.1 600 1800 0.287 70 0 1.4) as [df E]; [lra |].
    exists df. split; [exact E |].
    refine (proj2 (Hv 0.1 600 1800 0.287 70%nat 0 1.4 df _ E)). lra.
  - refine (proj2 (Ht 600 1 30 0.287 90%nat 0 _ _)); lra.
Defined.

(** X2.  Along an isentropic leg with positive end volumes the two
    invariants of the source comment hold at every sample:
    [P v^gamma = Pa Va^gamma] and [T v^(gamma-1) = Ta Va^(gamma-1)]; the
    sampled volumes are positive, and the entropy is the anchor throughout. *)
Theorem isentropic_leg_keeps_both_invariants :
  forall Pa Va Ta Pb Vb gamma Rgas n s_a,
    0 < Va -> 0 < Vb ->
    let df := path_isentropic_ideal Pa Va Ta Pb Vb gamma Rgas n s_a in
    length (path_samples df) = n /\
    Forall (fun '(P, v, T, s) =>
              0 < v /\
              P * fpow v gamma = Pa * fpow Va gamma /\
              T * fpow v (gamma - 1) = Ta * fpow Va (gamma - 1) /\
              s = s_a)
      (path_samples df).
Proof.
  intros Pa Va Ta Pb Vb gamma Rgas n s_a Ha Hb df. unfold df.
  rewrite path_isentropic_samples, length_map, linspace_length.
  split; [reflexivity |].
  apply Forall_map.
  eapply Forall_impl; [| apply (linspace_positive Va Vb n Ha Hb)].
  intros v Hv. cbn. split; [exact Hv |]. split; [| split; [| reflexivity]].
  - field. apply fpow_neq_0.
  - rewrite Rmult_assoc. f_equal. unfold fpow.
    rewrite Rpower_mult_distr.
    + f_equal. field. lra.
    + apply Rdiv_lt_0_compat; lra.
    + exact Hv.
Qed.

Lemma isentropic_leg_keeps_both_invariants_witness :
  Forall (fun '(P, v, T, s) =>
            0 < v /\
            P * fpow v 1.4 = 100 * fpow 0.861 1.4 /\
            T * fpow v (1.4 - 1) = 300 * fpow 0.861 (1.4 - 1) /\
            s = 0)
    (path_samples (path_isentropic_ideal 100 0.861 300 1837.9 0.107625 1.4 0.287 90 0)).
Proof.
  refine (proj2 (isentropic_leg_keeps_both_invariants
                   100 0.861 300 1837.9 0.107625 1.4 0.287 90%nat 0 _ _)); lra.
Defined.

(** ** More on the path sampler *)

Lemma recognized_kinds (kind : string) :
  recognized kind = true <->
  kind = "isen"%string \/ kind = "cv"%string \/ kind = "cp"%string \/
  kind = "isoth"%string.
Proof.
  unfold recognized. rewrite !orb_true_iff, !String.eqb_eq. tauto.
Qed.

Lemma leg_segment_ok_iff states scol gamma Rgas l :
  (exists seg, leg_segment states scol gamma Rgas l = Ok seg) <->
  samplable states gamma l.
Proof.
  unfold samplable. split.
  - intros [seg H]. apply leg_segment_inv in H.
    destruct H as (a & b & Ha & Hb & H). cbv zeta in H.
    split; [split; eauto |].
    destruct H as [[Hk _] | [[Hk H] | [[Hk H] | [Hk _]]]].
    + split; [apply recognized_kinds; tauto |].
      intros _. rewrite Hk. split; discriminate.
    + split; [apply recognized_kinds; tauto |].
      intro Hg. apply path_const_v_ideal_inv in H. lra.
    + split; [apply recognized_kinds; tauto |].
      intro Hg. apply path_const_p_ideal_inv in H. lra.
    + split; [apply recognized_kinds; tauto |].
      intros _. rewrite Hk. split; discriminate.
  - intros ([[a Ha] [b Hb]] & Hk & Hg).
    destruct l as [[kind i] j]. unfold leg_kind, leg_start, leg_end in *.
    cbn [fst snd] in *. unfold leg_segment. rewrite Ha, Hb. cbn [bind].
    destruct (kind =? "isen")%string eqn:E1; [eexists; reflexivity |].
    destruct (kind =? "cv")%string eqn:E2.
    { apply String.eqb_eq in E2. apply path_const_v_ideal_ok.
      intro G. destruct (Hg G) as [N _]. contradiction. }
    destruct (kind =? "cp")%string eqn:E3.
    { apply String.eqb_eq in E3. apply path_const_p_ideal_ok.
      intro G. destruct (Hg G) as [_ N]. contradiction. }
    destruct (kind =? "isoth")%string eqn:E4; [eexists; reflexivity |].
    unfold recognized in Hk. rewrite E1, E2, E3, E4 in Hk. discriminate Hk.
Qed.

Lemma leg_segment_err_cases states scol gamma Rgas l e :
  leg_segment states scol gamma Rgas l = Err e ->
  (e = IndexError /\ ~ resolves states l) \/
  (e = ZeroDivisionError /\ gamma = 1 /\
   (leg_kind l = "cv"%string \/ leg_kind l = "cp"%string)) \/
  (e = ValueError ("Unknown leg kind: " ++ leg_kind l) /\
   recognized (leg_kind l) = false).
Proof.
  destruct l as [[kind i] j]. unfold resolves, recognized, leg_kind, leg_start, leg_end.
  cbn [fst snd]. unfold leg_segment. intro H.
  destruct (row states i) as [a | e1] eqn:Ea; cbn [bind] in H.
  2: { injection H as <-. apply row_err in Ea. subst. left. split; [reflexivity |].
       intros [[a Ha] _]. discriminate Ha. }
  destruct (row states j) as [b | e2] eqn:Eb; cbn [bind] in H.
  2: { injection H as <-. apply row_err in Eb. subst. left. split; [reflexivity |].
       intros [_ [b Hb]]. discriminate Hb. }
  destruct (kind =? "isen")%string eqn:E1; [discriminate H |].
  destruct (kind =? "cv")%string eqn:E2.
  { right; left. apply String.eqb_eq in E2.
    unfold path_const_v_ideal, _cv_from_gamma_R in H.
    destruct (fdiv Rgas (gamma - 1)) as [cv | e'] eqn:E; cbn in H; [discriminate H |].
    injection H as <-. apply fdiv_err in E. destruct E as [-> E].
    repeat split; [lra | now left]. }
  destruct (kind =? "cp")%string eqn:E3.
  { right; left. apply String.eqb_eq in E3.
    unfold path_const_p_ideal, _cv_from_gamma_R in H.
    destruct (fdiv Rgas (gamma - 1)) as [cv | e'] eqn:E; cbn in H; [discriminate H |].
    injection H as <-. apply fdiv_err in E. destruct E as [-> E].
    repeat split; [lra | now right]. }
  destruct (kind =? "isoth")%string eqn:E4; [discriminate H |].
  right; right. injection H as <-. split; reflexivity.
Qed.

Lemma sample_legs_complete states scol gamma Rgas legs segs :
  Forall2 (fun l seg => leg_segment states scol gamma Rgas l = Ok seg) legs segs ->
  forall idx out,
    sample_legs states scol gamma Rgas idx legs out
    = Ok (out ++ (if (0 <? idx)%nat then map iloc_from_1 segs else deduplicated segs)).
Proof.
  induction 1 as [| l seg legs segs Hseg _ IH]; intros idx out; cbn [sample_legs].
  - destruct (0 <? idx)%nat; cbn; now rewrite app_nil_r.
  - rewrite Hseg. cbn [bind]. rewrite IH. cbn [Nat.ltb Nat.leb].
    rewrite <- app_assoc. cbn [app]. destruct idx; reflexivity.
Qed.

Lemma renamed_column (c : string) :
  (if negb (c =? "s_kJ_per_kgK")%string then c else "s_kJ_per_kgK"%string) = c.
Proof.
  destruct (c =? "s_kJ_per_kgK")%string eqn:E; cbn; [| reflexivity].
  apply String.eqb_eq in E. now subst.
Qed.

Lemma smooth_path_ideal_complete states legs gamma Rgas segs :
  legs <> [] ->
  Forall2 (fun l seg => leg_segment states (choose_scol states) gamma Rgas l = Ok seg)
    legs segs ->
  smooth_path_ideal states legs gamma Rgas
  = Ok (mk_sampled_path
          (mk_path_df (concat (map P_kPa (deduplicated segs)))
             (concat (map v_m3_per_kg (deduplicated segs)))
             (concat (map T_K (deduplicated segs)))
             (concat (map s_kJ_per_kgK (deduplicated segs))))
          (match choose_scol states with
           | Some c => c
           | None => "s_kJ_per_kgK"%string
           end)).
Proof.
  intros Hne H. unfold smooth_path_ideal.
  rewrite (sample_legs_complete _ _ _ _ _ _ H). cbn [Nat.ltb Nat.leb app bind].
  destruct segs as [| seg segs].
  - inversion H; subst. contradiction.
  - cbn [deduplicated pd_concat bind].
    destruct (choose_scol states) as [c |]; [| reflexivity].
    rewrite <- (renamed_column c) at 3.
    destruct (negb (c =? "s_kJ_per_kgK")%string); reflexivity.
Qed.

Lemma segments_exist states scol gamma Rgas legs :
  Forall (samplable states gamma) legs ->
  exists segs,
    Forall2 (fun l seg => leg_segment states scol gamma Rgas l = Ok seg) legs segs.
Proof.
  induction 1 as [| l legs Hl _ [segs IH]].
  - exists []. constructor.
  - apply (leg_segment_ok_iff states scol gamma Rgas) in Hl. destruct Hl as [seg Hseg].
    exists (seg :: segs). constructor; assumption.
Qed.

(** X3.  With the power of every isentropic leg in range, the path sampler
    returns a path exactly when the leg list is not empty and every leg can
    be sampled: both labels name a row of the table, the kind is one of
    ["isen"], ["cv"], ["cp"], ["isoth"], and no constant-volume or
    constant-pressure leg is asked for at [gamma = 1]. *)
Theorem sampler_returns_iff_every_leg_can_be_sampled :
  forall states legs gamma Rgas,
    Forall (isentropic_power_in_range states gamma) legs ->
    ((exists p, smooth_path_ideal states legs gamma Rgas = Ok p) <->
     legs <> [] /\ Forall (samplable states gamma) legs).
Proof.
  intros states legs gamma Rgas _. split.
  - intros [p H]. apply smooth_path_ideal_inv in H.
    destruct H as (segs & Hne & Hsegs & _). split; [exact Hne |].
    clear Hne. induction Hsegs as [| l seg legs segs Hseg _ IH]; constructor.
    + apply (leg_segment_ok_iff states (choose_scol states) gamma Rgas). eauto.
    + exact IH.
  - intros [Hne Hall].
    destruct (segments_exist states (choose_scol states) gamma Rgas legs Hall)
      as [segs Hsegs].
    eexists. apply smooth_path_ideal_complete; eassumption.
Qed.

(** X4.  When the path sampler fails, with the power of every isentropic
    leg in range, the error is one of four, each with its cause among the
    legs: an index error for a label that names no row, a
    division error for a constant-volume or constant-pressure leg at
    [gamma = 1], the unsupported-process error for a leg of unknown kind, or
    the refusal of [pd.concat] for an empty leg list. *)
Theorem sampler_failures_have_one_of_four_causes :
  forall states legs gamma Rgas e,
    Forall (isentropic_power_in_range states gamma) legs ->
    smooth_path_ideal states legs gamma Rgas = Err e ->
    (e = IndexError /\ exists l, In l legs /\ ~ resolves states l) \/
    (e = ZeroDivisionError /\ gamma = 1 /\
     exists l, In l legs /\
               (leg_kind l = "cv"%string \/ leg_kind l = "cp"%string)) \/
    (exists l, In l legs /\ recognized (leg_kind l) = false /\
               e = ValueError ("Unknown leg kind: " ++ leg_kind l)) \/
    (legs = [] /\ e = ValueError "No objects to concatenate").
Proof.
  intros states legs gamma Rgas e _ H.
  apply smooth_path_ideal_err in H. destruct H as [(l & Hin & Hl) | H].
  - apply leg_segment_err_cases in Hl.
    destruct Hl as [[-> Hn] | [(-> & Hg & Hk) | [-> Hk]]].
    + left. split; [reflexivity |]. exists l. split; assumption.
    + right; left. split; [reflexivity |]. split; [exact Hg |]. exists l. split; assumption.
    + right; right; left. exists l. repeat split; assumption.
  - right; right; right. exact H.
Qed.

Lemma sampler_failures_have_one_of_four_causes_witness :
  (smooth_path_ideal heated_at_constant_volume [] 1.4 0.287
   = Err (ValueError "No objects to concatenate")) /\
  (smooth_path_ideal heated_at_constant_volume [("cv"%string, 1%Z, 2%Z)] 1 0.287
   = Err ZeroDivisionError) /\
  (smooth_path_ideal heated_at_constant_volume [("isen"%string, 1%Z, 3%Z)] 1.4 0.287
   = Err IndexError).
Proof.
  split; [reflexivity |]. split; [| reflexivity].
  destruct (smooth_path_ideal heated_at_constant_volume [("cv"%string, 1%Z, 2%Z)] 1 0.287)
    as [p | e] eqn:E.
  - exfalso. apply smooth_path_ideal_inv in E. destruct E as (segs & _ & Hsegs & _).
    inversion Hsegs as [| ? seg ? ? Hseg _]; subst.
    assert (Hex : exists seg, leg_segment heated_at_constant_volume
                    (choose_scol heated_at_constant_volume) 1 0.287
                    ("cv"%string, 1%Z, 2%Z) = Ok seg) by eauto.
    apply leg_segment_ok_iff in Hex. destruct Hex as (_ & _ & Hg).
    destruct (Hg eq_refl) as [N _]. now apply N.
  - assert (Hp : Forall (isentropic_power_in_range heated_at_constant_volume 1)
                   [("cv"%string, 1%Z, 2%Z)])
      by (apply heated_powers_in_range; unfold small_exponent; lra).
    destruct (sampler_failures_have_one_of_four_causes _ _ _ _ _ Hp E)
      as [[-> (l & [<- | []] & Hn)] | [[-> _] | [(l & [<- | []] & Hk & _) | [Hnil _]]]].
    + exfalso. apply Hn. split; eexists; reflexivity.
    + reflexivity.
    + discriminate Hk.
    + discriminate Hnil.
Defined.

(** The Otto leg list on the two-state table: states 3 and 4 are missing. *)
Lemma sampler_returns_iff_every_leg_can_be_sampled_witness :
  (exists p, smooth_path_ideal heated_at_constant_volume
               [("isen"%string, 1%Z, 2%Z); ("cv"%string, 2%Z, 1%Z)] 1.4 0.287 = Ok p) /\
  ~ (exists p, smooth_path_ideal heated_at_constant_volume
                 [("isen"%string, 1%Z, 2%Z); ("cv"%string, 2%Z, 3%Z)] 1.4 0.287 = Ok p).
Proof.
  assert (Hg : small_exponent 1.4) by (unfold small_exponent; lra).
  split.
  - apply sampler_returns_iff_every_leg_can_be_sampled.
    { apply heated_powers_in_range. exact Hg. }
    split; [discriminate |].
    repeat constructor; try (eexists; reflexivity); intro; lra.
  - intro H. apply sampler_returns_iff_every_leg_can_be_sampled in H.
    2:{ apply heated_powers_in_range. exact Hg. }
    destruct H as [_ H]. inversion H as [| ? ? _ H2]; subst.
    inversion H2 as [| ? ? ([_ [b Hb]] & _) _]; subst. discriminate Hb.
Defined.

Lemma leg_segment_functional states scol gamma Rgas legs segs segs' :
  Forall2 (fun l seg => leg_segment states scol gamma Rgas l = Ok seg) legs segs ->
  Forall2 (fun l seg => leg_segment states scol gamma Rgas l = Ok seg) legs segs' ->
  segs = segs'.
Proof.
  intro H. revert segs'. induction H as [| l seg legs segs Hseg _ IH]; intros segs' H'.
  - now inversion H'.
  - inversion H' as [| ? seg' ? segs'' Hseg' Hrest]; subst.
    f_equal; [congruence | now apply IH].
Qed.

Lemma tl_app_nonempty {A : Type} (l l' : list A) :
  l <> [] -> tl (l ++ l') = tl l ++ l'.
Proof. destruct l; [contradiction | reflexivity]. Qed.

Lemma concat_deduplicated_app (col : path_df -> list R) (segs1 segs2 : list path_df) :
  (forall seg, col (iloc_from_1 seg) = tl (col seg)) ->
  segs1 <> [] ->
  (forall seg rest, segs2 = seg :: rest -> col seg <> []) ->
  concat (map col (deduplicated (segs1 ++ segs2)))
  = concat (map col (deduplicated segs1)) ++ tl (concat (map col (deduplicated segs2))).
Proof.
  intros Hcol Hne Hfirst. destruct segs1 as [| s1 r1]; [contradiction |].
  cbn [app deduplicated map concat]. rewrite map_app, map_app, concat_app, <- app_assoc.
  f_equal. f_equal.
  destruct segs2 as [| s2 r2]; [reflexivity |].
  cbn [deduplicated map concat]. rewrite Hcol.
  rewrite tl_app_nonempty by (eapply Hfirst; reflexivity). reflexivity.
Qed.

(** X5.  Sampling composes over leg lists: when two leg lists are each
    sampled successfully on the same table, the path of their concatenation
    is the first path followed by the second path without its first sample,
    column by column, under the same entropy column name. *)
Theorem sampling_a_concatenation_drops_one_shared_sample :
  forall states legs1 legs2 gamma Rgas p1 p2,
    smooth_path_ideal states legs1 gamma Rgas = Ok p1 ->
    smooth_path_ideal states legs2 gamma Rgas = Ok p2 ->
    smooth_path_ideal states (legs1 ++ legs2) gamma Rgas
    = Ok (mk_sampled_path (path_app (samples p1) (without_first (samples p2)))
            (entropy_column p1)) /\
    entropy_column p2 = entropy_column p1.
Proof.
  intros states legs1 legs2 gamma Rgas p1 p2 H1 H2.
  pose proof H1 as H1'. pose proof H2 as H2'.
  apply smooth_path_ideal_inv in H1. destruct H1 as (segs1 & Hne1 & Hs1 & Hp1).
  apply smooth_path_ideal_inv in H2. destruct H2 as (segs2 & Hne2 & Hs2 & Hp2).
  rewrite (smooth_path_ideal_complete _ _ _ _ _ Hne1 Hs1) in H1'.
  rewrite (smooth_path_ideal_complete _ _ _ _ _ Hne2 Hs2) in H2'.
  injection H1' as <-. injection H2' as <-. cbn [entropy_column samples].
  split; [| reflexivity].
  rewrite (smooth_path_ideal_complete states (legs1 ++ legs2) gamma Rgas (segs1 ++ segs2)).
  - f_equal. f_equal. unfold path_app, without_first, iloc_from_1.
    cbn [P_kPa v_m3_per_kg T_K s_kJ_per_kgK].
    assert (Hsegs1 : segs1 <> []).
    { intros ->. inversion Hs1; subst. contradiction. }
    assert (Hrows : forall seg rest, segs2 = seg :: rest ->
                      has_rows seg 90 \/ has_rows seg 70).
    { intros seg rest ->. pose proof (segments_have_rows _ _ _ _ _ _ Hs2) as Hr.
      now inversion Hr. }
    f_equal; apply concat_deduplicated_app; try reflexivity; try exact Hsegs1;
      intros seg rest E; destruct (Hrows seg rest E) as [Hr | Hr];
      destruct Hr as (HP & Hv & HT & Hs); intro N; rewrite N in *; discriminate.
  - destruct legs1; [contradiction | discriminate].
  - apply Forall2_app; assumption.
Qed.

(** The Otto leg list on a two-state table, split after its first leg. *)
Lemma sampling_a_concatenation_drops_one_shared_sample_witness :
  exists p1 p2,
    smooth_path_ideal heated_at_constant_volume [("isen"%string, 1%Z, 2%Z)] 1.4 0.287
    = Ok p1 /\
    smooth_path_ideal heated_at_constant_volume [("isoth"%string, 2%Z, 1%Z)] 1.4 0.287
    = Ok p2 /\
    smooth_path_ideal heated_at_constant_volume
      [("isen"%string, 1%Z, 2%Z); ("isoth"%string, 2%Z, 1%Z)] 1.4 0.287
    = Ok (mk_sampled_path (path_app (samples p1) (without_first (samples p2)))
            (entropy_column p1)).
Proof.
  destruct (smooth_path_ideal heated_at_constant_volume
              [("isen"%string, 1%Z, 2%Z)] 1.4 0.287) as [p1 | e] eqn:E1;
    [| exfalso; discriminate E1].
  destruct (smooth_path_ideal heated_at_constant_volume
              [("isoth"%string, 2%Z, 1%Z)] 1.4 0.287) as [p2 | e] eqn:E2;
    [| exfalso; discriminate E2].
  exists p1, p2. split; [reflexivity |]. split; [reflexivity |].
  exact (proj1 (sampling_a_concatenation_drops_one_shared_sample
                  heated_at_constant_volume [("isen"%string, 1%Z, 2%Z)]
                  [("isoth"%string, 2%Z, 1%Z)] 1.4 0.287 p1 p2 E1 E2)).
Defined.

(** ** More on the air-standard solvers *)

Lemma carnot_cycle_returns Th Tc ds mode gamma Rg v1 :
  Tc < Th -> 0 < ds -> 0 < Tc -> gamma <> 1 -> Rg <> 0 -> v1 <> 0 ->
  mode = "engine"%string \/ mode = "refrigerator"%string \/ mode = "heat_pump"%string ->
  exists st m, carnot_cycle Th Tc ds mode gamma Rg v1 = Ok (st, m).
Proof.
  intros HT Hds HTc Hg HR Hv Hm. unfold carnot_cycle.
  destruct (Rle_dec Th Tc); [lra |]. destruct (Rle_dec ds 0); [lra |].
  repeat (rewrite fdiv_ok by auto 8 with nonzero; cbn [bind]).
  destruct Hm as [-> | [-> | ->]]; cbn;
    repeat (rewrite fdiv_ok by (first [solve [auto 8 with nonzero] | nra]); cbn [bind]);
    eexists _, _; reflexivity.
Qed.

(** X6.  On inputs in range, what Carnot reports depends on the two
    temperatures alone: the engine efficiency is [1 - Tc/Th], strictly
    between 0 and 1, the refrigerator's coefficient of performance is
    [Tc / (Th - Tc)] and the heat pump's is [Th / (Th - Tc)], one more than
    the refrigerator's; the work entry is [(Th - Tc) * ds].  The variant of
    the metrics is the one the mode asks for. *)
Theorem carnot_metrics_in_closed_form :
  forall Th Tc ds mode gamma Rg v1 st m,
    carnot_in_range Th Tc ds gamma ->
    carnot_cycle Th Tc ds mode gamma Rg v1 = Ok (st, m) ->
    Tc < Th /\ 0 < ds /\
    match m with
    | Heat_engine Qin Qout Wnet eta =>
        mode = "engine"%string /\ Wnet = (Th - Tc) * ds /\ eta = 1 - Tc / Th /\
        0 < eta < 1
    | Refrigerator Qcold Win COP =>
        mode = "refrigerator"%string /\ Win = (Th - Tc) * ds /\ COP = Tc / (Th - Tc)
    | Heat_pump Qhot Win COP =>
        mode = "heat_pump"%string /\ Win = (Th - Tc) * ds /\ COP = Th / (Th - Tc) /\
        COP = 1 + Tc / (Th - Tc)
    end.
Proof.
  intros Th Tc ds mode gamma Rg v1 st m Hin. unfold carnot_cycle. intro H.
  assert (HTc : 0 < Tc) by (unfold carnot_in_range, moderate in Hin; lra).
  destruct (Rle_dec Th Tc) as [| HT]; [discriminate H |].
  destruct (Rle_dec ds 0) as [| Hds]; [discriminate H |].
  split; [lra |]. split; [lra |].
  unbind H.
  destruct (mode =? "engine")%string eqn:E1.
  { apply String.eqb_eq in E1. unbind H. split; [reflexivity |].
    split; [ring |]. split; [reflexivity |].
    assert (0 < Tc / Th < 1); [| lra].
    split; [apply Rdiv_lt_0_compat; lra |].
    apply Rmult_lt_reg_r with Th; [lra |]. unfold Rdiv.
    rewrite Rmult_assoc, Rinv_l by lra. lra. }
  destruct (mode =? "refrigerator")%string eqn:E2.
  { apply String.eqb_eq in E2. unbind H. split; [reflexivity |].
    split; [ring |]. field. split; lra. }
  destruct (mode =? "heat_pump")%string eqn:E3.
  { apply String.eqb_eq in E3. unbind H. split; [reflexivity |].
    split; [ring |]. split; field; split; lra. }
  discriminate H.
Qed.

(** Between 600 K and 300 K the efficiency is one half, the refrigerator's
    coefficient of performance is 1 and the heat pump's is 2. *)
Lemma carnot_metrics_in_closed_form_witness :
  (exists st Qin Qout Wnet,
      carnot_cycle 600 300 2.5 "engine" 1.4 0.287 1
      = Ok (st, Heat_engine Qin Qout Wnet 0.5)) /\
  (exists st Qcold Win,
      carnot_cycle 600 300 2.5 "refrigerator" 1.4 0.287 1
      = Ok (st, Refrigerator Qcold Win 1)) /\
  (exists st Qhot Win,
      carnot_cycle 600 300 2.5 "heat_pump" 1.4 0.287 1
      = Ok (st, Heat_pump Qhot Win 2)).
Proof.
  assert (Hin : carnot_in_range 600 300 2.5 1.4).
  { unfold carnot_in_range, carnot_power_in_range, moderate, clear_above. lra. }
  split; [| split].
  - destruct (carnot_cycle_returns 600 300 2.5 "engine" 1.4 0.287 1) as (st & m & E);
      try lra; [now left |].
    pose proof (carnot_metrics_in_closed_form _ _ _ _ _ _ _ _ _ Hin E) as (_ & _ & Hm).
    destruct m as [Qin Qout Wnet eta | ? ? ? | ? ? ?].
    + destruct Hm as (_ & _ & Heta & _).
      exists st, Qin, Qout, Wnet. rewrite E. do 3 f_equal. rewrite Heta. lra.
    + destruct Hm as [Hm _]. discriminate Hm.
    + destruct Hm as [Hm _]. discriminate Hm.
  - destruct (carnot_cycle_returns 600 300 2.5 "refrigerator" 1.4 0.287 1)
      as (st & m & E); try lra; [now right; left |].
    pose proof (carnot_metrics_in_closed_form _ _ _ _ _ _ _ _ _ Hin E) as (_ & _ & Hm).
    destruct m as [? ? ? ? | Qcold Win COP | ? ? ?].
    + destruct Hm as [Hm _]. discriminate Hm.
    + destruct Hm as (_ & _ & HC).
      exists st, Qcold, Win. rewrite E. do 3 f_equal. rewrite HC. lra.
    + destruct Hm as [Hm _]. discriminate Hm.
  - destruct (carnot_cycle_returns 600 300 2.5 "heat_pump" 1.4 0.287 1)
      as (st & m & E); try lra; [now right; right |].
    pose proof (carnot_metrics_in_closed_form _ _ _ _ _ _ _ _ _ Hin E) as (_ & _ & Hm).
    destruct m as [? ? ? ? | ? ? ? | Qhot Win COP].
    + destruct Hm as [Hm _]. discriminate Hm.
    + destruct Hm as [Hm _]. discriminate Hm.
    + destruct Hm as (_ & _ & HC & _).
      exists st, Qhot, Win. rewrite E. do 3 f_equal. rewrite HC. lra.
Defined.

(** X7.  Carnot checks its two guards first and its mode last: [Th <= Tc]
    is rejected whatever the other inputs are, then [ds <= 0]; an unknown
    mode is reported only after the state table has been computed: it is
    what a run with a nonzero gas constant, a nonzero [v1] and its power in
    range reports, and with a zero gas constant the division error comes
    first. *)
Theorem carnot_rejects_in_a_fixed_order :
  (forall Th Tc ds mode gamma Rg v1,
      Th <= Tc ->
      carnot_cycle Th Tc ds mode gamma Rg v1
      = Err (ValueError "Th must be > Tc for Carnot cycle.")) /\
  (forall Th Tc ds mode gamma Rg v1,
      Tc < Th -> ds <= 0 ->
      carnot_cycle Th Tc ds mode gamma Rg v1 = Err (ValueError "Δs must be > 0")) /\
  (forall Th Tc ds mode gamma Rg v1,
      Tc < Th -> 0 < ds ->
      mode <> "engine"%string -> mode <> "refrigerator"%string ->
      mode <> "heat_pump"%string ->
      (Rg <> 0 -> v1 <> 0 -> carnot_power_in_range Th Tc gamma ->
       carnot_cycle Th Tc ds mode gamma Rg v1
       = Err (ValueError "mode must be one of: engine, refrigerator, heat_pump")) /\
      (Rg = 0 -> carnot_cycle Th Tc ds mode gamma Rg v1 = Err ZeroDivisionError)).
Proof.
  split; [| split].
  - intros Th Tc ds mode gamma Rg v1 H. unfold carnot_cycle.
    destruct (Rle_dec Th Tc); [reflexivity | contradiction].
  - intros Th Tc ds mode gamma Rg v1 HT Hds. unfold carnot_cycle.
    destruct (Rle_dec Th Tc); [lra |].
    destruct (Rle_dec ds 0); [reflexivity | contradiction].
  - intros Th Tc ds mode gamma Rg v1 HT Hds M1 M2 M3. unfold carnot_cycle.
    destruct (Rle_dec Th Tc); [lra |]. destruct (Rle_dec ds 0); [lra |].
    apply String.eqb_neq in M1, M2, M3. split.
    + intros HR Hv (HTc & _ & Hg). unfold clear_above in Hg.
      repeat (rewrite fdiv_ok by auto 8 with nonzero; cbn [bind]).
      cbv zeta. rewrite M1, M2, M3. reflexivity.
    + intros ->. unfold fdiv at 1.
      destruct (Req_dec_T 0 0) as [_ | N]; [reflexivity | now elim N].
Qed.

Lemma carnot_rejects_in_a_fixed_order_witness :
  carnot_cycle 300 300 1 "engine" 1.4 0.287 1
  = Err (ValueError "Th must be > Tc for Carnot cycle.") /\
  carnot_cycle 600 300 0 "engine" 1.4 0.287 1 = Err (ValueError "Δs must be > 0") /\
  carnot_cycle 600 300 1 "motor" 1.4 0.287 1
  = Err (ValueError "mode must be one of: engine, refrigerator, heat_pump") /\
  carnot_cycle 600 300 1 "motor" 1.4 0 1 = Err ZeroDivisionError.
Proof.
  destruct carnot_rejects_in_a_fixed_order as (H1 & H2 & H3).
  split; [apply H1; lra |]. split; [apply H2; lra |].
  assert (M1 : "motor"%string <> "engine"%string) by discriminate.
  assert (M2 : "motor"%string <> "refrigerator"%string) by discriminate.
  assert (M3 : "motor"%string <> "heat_pump"%string) by discriminate.
  split.
  - apply (H3 600 300 1 "motor"%string 1.4 0.287 1); try assumption; try lra.
    unfold carnot_power_in_range, clear_above. lra.
  - apply (H3 600 300 1 "motor"%string 1.4 0 1); try assumption; lra.
Defined.




Lemma brayton_ideal_inv P1 T1 rp T3 gamma cp Rg st m :
  brayton_ideal P1 T1 rp T3 gamma cp Rg = Ok (st, m) ->
  let e := (gamma - 1) / gamma in
  let T2 := T1 * fpow rp e in
  let T4 := T3 * fpow (1 / rp) e in
  let s2 := 0 + cp * ln (T2 / T1) - Rg * ln (P1 * rp / P1) in
  let s3 := s2 + cp * ln (T3 / T2) in
  let s4 := s3 + cp * ln (T4 / T3) - Rg * ln (P1 / (P1 * rp)) in
  1 < rp /\ gamma <> 0 /\ P1 <> 0 /\ T1 <> 0 /\ T3 <> 0 /\
  cp * (T3 - T2) <> 0 /\ cp * (T3 - T4) <> 0 /\
  st = mk_states_df false true
         [rel_row 1 P1 T1 (Rg * T1 / P1) 0;
          rel_row 2 (P1 * rp) T2 (Rg * T2 / (P1 * rp)) s2;
          rel_row 3 (P1 * rp) T3 (Rg * T3 / (P1 * rp)) s3;
          rel_row 4 P1 T4 (Rg * T4 / P1) s4] /\
  m = mk_brayton_metrics (cp * (T2 - T1)) (cp * (T3 - T4))
        (cp * (T3 - T4) - cp * (T2 - T1)) (cp * (T3 - T2))
        (1 - cp * (T4 - T1) / (cp * (T3 - T2)))
        (cp * (T2 - T1) / (cp * (T3 - T4))).
Proof.
  unfold brayton_ideal, brayton_body. intro H.
  destruct (Rle_dec rp 1) as [| Hrp]; [discriminate H |].
  unbind H. cbv zeta.
  repeat (split; [first [assumption | lra] |]). split; reflexivity.
Qed.

(** X9.  On inputs in range, Brayton's efficiency is
    [1 - 1 / rp^((gamma-1)/gamma)]: it depends on the pressure ratio and on
    [gamma] alone, not on [P1], [T1], [T3], [cp] or [R], and it lies strictly
    between 0 and 1.  The back-work ratio the solver reports is [T2 / T3],
    the compressor-exit over the turbine-inlet temperature. *)
Theorem brayton_efficiency_and_back_work_ratio_in_closed_form :
  forall P1 T1 rp T3 gamma cp Rg st m,
    brayton_in_range T1 rp T3 gamma cp ->
    brayton_ideal P1 T1 rp T3 gamma cp Rg = Ok (st, m) ->
    brayton_eta_th m = 1 - / fpow rp ((gamma - 1) / gamma) /\
    0 < brayton_eta_th m < 1 /\
    brayton_back_work_ratio m = T1 * fpow rp ((gamma - 1) / gamma) / T3 /\
    (exists r2 r3, row st 2 = Ok r2 /\ row st 3 = Ok r3 /\
                   brayton_back_work_ratio m = cell_T_K r2 / cell_T_K r3).
Proof.
  intros P1 T1 rp T3 gamma cp Rg st m Hin H.
  assert (Hgam : 1 < gamma).
  { unfold brayton_in_range, clear_above in Hin. lra. }
  apply brayton_ideal_inv in H. cbv zeta in H.
  destruct H as (Hrp & Hg & HP & HT1 & HT3 & HQ & HW & -> & ->).
  rewrite fpow_recip in * by lra.
  pose proof (fpow_pos rp ((gamma - 1) / gamma)) as HF.
  set (F := fpow rp ((gamma - 1) / gamma)) in *.
  assert (Hcp : cp <> 0) by (eapply Rmult_neq_0_l; eassumption).
  assert (HQ' : T3 - T1 * F <> 0) by (eapply Rmult_neq_0_r; eassumption).
  assert (HW' : T3 - T3 * / F <> 0) by (eapply Rmult_neq_0_r; eassumption).
  assert (HF1 : F - 1 <> 0).
  { intro E. apply HW'. replace F with 1 by lra. rewrite Rinv_1. ring. }
  assert (HF2 : T3 * F - T3 <> 0).
  { replace (T3 * F - T3) with (T3 * (F - 1)) by ring. auto with nonzero. }
  cbn [brayton_eta_th brayton_back_work_ratio].
  assert (Heta : 1 - cp * (T3 * / F - T1) / (cp * (T3 - T1 * F)) = 1 - / F).
  { field. split; [lra |]. split; assumption. }
  split; [exact Heta |]. split; [| split].
  - rewrite Heta.
    assert (1 < F).
    { apply fpow_gt_1; [exact Hrp |]. apply Rdiv_lt_0_compat; lra. }
    assert (0 < / F < 1); [| lra].
    split; [apply Rinv_0_lt_compat; lra |].
    rewrite <- Rinv_1. apply Rinv_lt_contravar; lra.
  - field. repeat split; first [assumption | lra].
  - do 2 eexists. split; [reflexivity |]. split; [reflexivity |]. cbn.
    field. repeat split; first [assumption | lra].
Qed.

Lemma brayton_ideal_default_ok :
  exists st m, brayton_ideal 100 300 10 1400 1.4 1.004 0.287 = Ok (st, m).
Proof.
  destruct (brayton_body_ok 100 300 10 1400 1.4 1.004 0.287) as (l & E); try lra.
  - pose proof fpow_10_lt_4. lra.
  - pose proof (fpow_lt_1 (1 / 10) ((1.4 - 1) / 1.4)). lra.
  - exists (brayton_states l), (brayton_returned l).
    unfold brayton_ideal. rewrite E. reflexivity.
Qed.

Lemma brayton_efficiency_and_back_work_ratio_in_closed_form_witness :
  exists st m,
    brayton_ideal 100 300 10 1400 1.4 1.004 0.287 = Ok (st, m) /\
    brayton_eta_th m = 1 - / fpow 10 ((1.4 - 1) / 1.4) /\
    0 < brayton_eta_th m < 1.
Proof.
  destruct brayton_ideal_default_ok as (st & m & E).
  exists st, m. split; [exact E |].
  assert (Hin : brayton_in_range 300 10 1400 1.4 1.004).
  { pose proof fpow_10_lt_4.
    unfold brayton_in_range, moderate, clear_above. lra. }
  destruct (brayton_efficiency_and_back_work_ratio_in_closed_form
              _ _ _ _ _ _ _ _ _ Hin E) as (Heta & Hrange & _).
  split; [exact Heta | exact Hrange].
Defined.

(** X10.  In the Brayton table the relative entropy of state 2 is
    [(cp (gamma-1)/gamma - R) ln rp], and the expansion undoes it:
    [s4 - s3 = - (s2 - s1)].  The two isentropic steps are drawn at constant
    entropy exactly when [cp (gamma-1)/gamma = R]; with the defaults
    [cp = 1.004], [gamma = 1.4], [R = 0.287] state 2 lies below state 1, at a
    negative entropy. *)
Theorem brayton_isentropic_steps_change_entropy_unless_cp_matches :
  forall P1 T1 rp T3 gamma cp Rg st m,
    0 < P1 -> 0 < T1 -> 0 < T3 ->
    brayton_ideal P1 T1 rp T3 gamma cp Rg = Ok (st, m) ->
    exists r1 r2 r3 r4,
      rows st = [r1; r2; r3; r4] /\
      cell_s_rel r1 = 0 /\
      cell_s_rel r2 = (cp * ((gamma - 1) / gamma) - Rg) * ln rp /\
      cell_s_rel r4 - cell_s_rel r3 = - (cell_s_rel r2 - cell_s_rel r1) /\
      (cell_s_rel r2 = cell_s_rel r1 <-> cp * ((gamma - 1) / gamma) = Rg).
Proof.
  intros P1 T1 rp T3 gamma cp Rg st m HP0 HT10 HT30 H.
  apply brayton_ideal_inv in H. cbv zeta in H.
  destruct H as (Hrp & Hg & HP & HT1 & HT3 & HQ & HW & -> & ->).
  do 4 eexists. split; [reflexivity |]. cbn.
  rewrite fpow_recip by lra.
  pose proof (fpow_pos rp ((gamma - 1) / gamma)) as HF.
  assert (E21 : T1 * fpow rp ((gamma - 1) / gamma) / T1 = fpow rp ((gamma - 1) / gamma))
    by (field; lra).
  assert (Ep21 : P1 * rp / P1 = rp) by (field; lra).
  assert (E43 : T3 * / fpow rp ((gamma - 1) / gamma) / T3
                = / fpow rp ((gamma - 1) / gamma)) by (field; lra).
  assert (Ep43 : P1 / (P1 * rp) = / rp) by (field; lra).
  rewrite E21, Ep21, E43, Ep43.
  rewrite (ln_Rinv rp) by lra.
  rewrite (ln_Rinv (fpow rp ((gamma - 1) / gamma))) by exact HF.
  rewrite ln_fpow.
  pose proof (ln_pos rp Hrp) as Hln.
  split; [reflexivity |]. split; [ring |]. split; [ring |].
  split.
  - intro E.
    assert (E' : (cp * ((gamma - 1) / gamma) - Rg) * ln rp = 0) by lra.
    apply Rmult_integral in E'. destruct E' as [E' | E']; lra.
  - intro E. rewrite <- E. ring.
Qed.

Lemma brayton_isentropic_steps_change_entropy_unless_cp_matches_witness :
  exists st m r1 r2 r3 r4,
    brayton_ideal 100 300 10 1400 1.4 1.004 0.287 = Ok (st, m) /\
    rows st = [r1; r2; r3; r4] /\
    cell_s_rel r2 < cell_s_rel r1.
Proof.
  destruct brayton_ideal_default_ok as (st & m & E).
  destruct (brayton_isentropic_steps_change_entropy_unless_cp_matches
              100 300 10 1400 1.4 1.004 0.287 st m) as (r1 & r2 & r3 & r4 & Hrows & H1 & H2 & _);
    try lra; [exact E |].
  exists st, m, r1, r2, r3, r4. split; [exact E |]. split; [exact Hrows |].
  rewrite H1, H2.
  assert (Hln : 0 < ln 10) by (apply ln_pos; lra).
  assert (Hc : 1.004 * ((1.4 - 1) / 1.4) - 0.287 < 0) by lra.
  nra.
Defined.

Lemma otto_cycle_inv T1 P1 r T3 gamma Rg st m :
  otto_cycle T1 P1 r T3 gamma Rg = Ok (st, m) ->
  let cv := Rg / (gamma - 1) in
  let F := fpow r (gamma - 1) in
  let v1 := Rg * T1 / P1 in
  let T2 := T1 * F in
  let T4 := T3 / F in
  let P3 := Rg * T3 / (v1 / r) in
  1 < r /\ T1 < T3 /\ gamma - 1 <> 0 /\ P1 <> 0 /\ v1 / r <> 0 /\
  cv * (T3 - T2) <> 0 /\ T2 <> 0 /\
  st = mk_states_df false true
         [rel_row 1 P1 T1 v1 0;
          rel_row 2 (P1 * fpow r gamma) T2 (v1 / r) 0;
          rel_row 3 P3 T3 (v1 / r) (0 + cv * ln (T3 / T2));
          rel_row 4 (P3 / fpow r gamma) T4 v1 (0 + cv * ln (T3 / T2))] /\
  m = mk_otto_metrics (1 - cv * (T4 - T1) / (cv * (T3 - T2)))
        (cv * (T3 - T2)) (cv * (T4 - T1))
        (cv * (T3 - T2) - cv * (T4 - T1)) r.
Proof.
  unfold otto_cycle. intro H.
  destruct (Rle_dec r 1) as [| Hr]; [discriminate H |].
  destruct (Rle_dec T3 T1) as [| HT]; [discriminate H |].
  unbind H. cbv zeta.
  repeat (split; [first [assumption | lra] |]). split; reflexivity.
Qed.

(** X11.  The four states of the Otto table lie on the ideal-gas law, also
    states 2 and 4, whose pressure and temperature come from the isentropic
    relations; the volumes are [v1], [v1 / r], [v1 / r], [v1]; and for
    [T1 > 0] the relative entropy closes: rejecting heat at constant volume
    from state 4 back to [T1] returns it to the 0 of state 1. *)
Theorem otto_table_is_a_closed_loop_of_ideal_gas_states :
  forall T1 P1 r T3 gamma Rg st m,
    otto_cycle T1 P1 r T3 gamma Rg = Ok (st, m) ->
    exists r1 r2 r3 r4,
      rows st = [r1; r2; r3; r4] /\
      map State [r1; r2; r3; r4] = [1%Z; 2%Z; 3%Z; 4%Z] /\
      Forall (on_ideal_gas_law Rg) [r1; r2; r3; r4] /\
      cell_v_m3_per_kg r2 = cell_v_m3_per_kg r1 / r /\
      cell_v_m3_per_kg r3 = cell_v_m3_per_kg r2 /\
      cell_v_m3_per_kg r4 = cell_v_m3_per_kg r1 /\
      cell_T_K r2 * cell_T_K r4 = cell_T_K r1 * cell_T_K r3 /\
      (0 < T1 ->
       cell_s_rel r4 + Rg / (gamma - 1) * ln (cell_T_K r1 / cell_T_K r4)
       = cell_s_rel r1).
Proof.
  intros T1 P1 r T3 gamma Rg st m H.
  apply otto_cycle_inv in H. cbv zeta in H.
  destruct H as (Hr & HT & Hg & HP & Hv2 & HQ & HT2 & -> & ->).
  do 4 eexists. split; [reflexivity |]. cbn.
  pose proof (fpow_pos r (gamma - 1)) as HF.
  assert (Hrg : fpow r gamma = r * fpow r (gamma - 1)) by (apply fpow_succ; lra).
  set (F := fpow r (gamma - 1)) in *.
  assert (Hv1 : Rg * T1 / P1 <> 0) by (eapply Rdiv_neq_0_num; eassumption).
  assert (HRT : Rg * T1 <> 0) by (eapply Rdiv_neq_0_num; eassumption).
  assert (HRg : Rg <> 0) by (eapply Rmult_neq_0_l; eassumption).
  assert (HT1 : T1 <> 0) by (eapply Rmult_neq_0_r; eassumption).
  split; [reflexivity |]. split.
  { unfold on_ideal_gas_law.
    repeat constructor; cbn; rewrite ?Hrg; field; repeat split; first [assumption | lra]. }
  split; [reflexivity |]. split; [reflexivity |]. split; [reflexivity |].
  split; [field; lra |].
  intro HT10.
  assert (Ha : 0 < T3 / (T1 * F)) by (apply Rdiv_lt_0_compat; nra).
  assert (Hb : 0 < T1 / (T3 / F)).
  { apply Rdiv_lt_0_compat; [lra |]. apply Rdiv_lt_0_compat; lra. }
  replace (0 + Rg / (gamma - 1) * ln (T3 / (T1 * F))
           + Rg / (gamma - 1) * ln (T1 / (T3 / F)))
    with (Rg / (gamma - 1) * (ln (T3 / (T1 * F)) + ln (T1 / (T3 / F)))) by ring.
  rewrite <- ln_mult by assumption.
  replace (T3 / (T1 * F) * (T1 / (T3 / F))) with 1 by (field; repeat split; lra).
  rewrite ln_1. ring.
Qed.

Lemma otto_table_is_a_closed_loop_of_ideal_gas_states_witness :
  exists st m r1 r2 r3 r4,
    otto_cycle 300 100 8 1800 1.4 0.287 = Ok (st, m) /\
    rows st = [r1; r2; r3; r4] /\
    Forall (on_ideal_gas_law 0.287) [r1; r2; r3; r4] /\
    cell_s_rel r4 + 0.287 / (1.4 - 1) * ln (cell_T_K r1 / cell_T_K r4) = cell_s_rel r1.
Proof.
  destruct (otto_cycle_ok 300 100 8 1800 1.4 0.287) as (st & m & E); try lra.
  { pose proof fpow_8_04_lt_3. lra. }
  destruct (otto_table_is_a_closed_loop_of_ideal_gas_states _ _ _ _ _ _ _ _ E)
    as (r1 & r2 & r3 & r4 & Hrows & _ & Hgas & _ & _ & _ & _ & Hs).
  exists st, m, r1, r2, r3, r4.
  split; [exact E |]. split; [exact Hrows |]. split; [exact Hgas |].
  apply Hs. lra.
Defined.

(** X12.  The guard [T3 > T1] of the Otto solver does not ask for heat to be
    added.  With [T3] exactly the compression temperature [T1 r^(gamma-1)]
    the solver fails with a division error, whatever the remaining inputs
    are; with [T3] strictly between [T1] and that temperature (and [R > 0],
    [gamma > 1]) it returns a cycle whose heat input and net work are
    negative. *)
Theorem otto_accepts_a_peak_temperature_below_the_compression_temperature :
  (forall T1 P1 r T3 gamma Rg,
      1 < r -> T1 < T3 -> T3 = T1 * fpow r (gamma - 1) ->
      otto_cycle T1 P1 r T3 gamma Rg = Err ZeroDivisionError) /\
  (forall T1 P1 r T3 gamma Rg st m,
      0 < Rg -> 1 < gamma -> T3 < T1 * fpow r (gamma - 1) ->
      otto_cycle T1 P1 r T3 gamma Rg = Ok (st, m) ->
      otto_Qin_kJ_per_kg m < 0 /\ otto_Wnet_kJ_per_kg m < 0).
Proof.
  split.
  - intros T1 P1 r T3 gamma Rg Hr HT HT3. unfold otto_cycle.
    destruct (Rle_dec r 1); [lra |]. destruct (Rle_dec T3 T1); [lra |].
    repeat match goal with
           | |- bind (fdiv ?x ?y) _ = _ =>
               let E := fresh "E" in
               destruct (fdiv x y) as [? | ?] eqn:E; cbn [bind];
               [apply fdiv_inv in E; destruct E as [? ->]
               | apply fdiv_err in E; destruct E as [-> _]; reflexivity]
           end.
    cbv zeta.
    match goal with
    | |- bind (bind (fdiv ?x ?y) _) _ = _ =>
        replace y with 0 by (rewrite HT3; ring)
    end.
    unfold fdiv at 1. destruct (Req_dec_T 0 0) as [_ | N]; [reflexivity | now elim N].
  - intros T1 P1 r T3 gamma Rg st m HR Hg HT3 H.
    apply otto_cycle_inv in H. cbv zeta in H.
    destruct H as (Hr & HT & _ & _ & _ & _ & _ & _ & ->).
    cbn [otto_Qin_kJ_per_kg otto_Wnet_kJ_per_kg].
    assert (HF : 1 < fpow r (gamma - 1)) by (apply fpow_gt_1; lra).
    set (F := fpow r (gamma - 1)) in *.
    assert (Hcv : 0 < Rg / (gamma - 1)) by (apply Rdiv_lt_0_compat; lra).
    assert (HQ : Rg / (gamma - 1) * (T3 - T1 * F) < 0) by nra.
    split; [exact HQ |].
    replace (Rg / (gamma - 1) * (T3 - T1 * F) - Rg / (gamma - 1) * (T3 / F - T1))
      with (Rg / (gamma - 1) * (T3 - T1 * F) * ((F - 1) / F)) by (field; lra).
    assert (0 < (F - 1) / F) by (apply Rdiv_lt_0_compat; lra).
    nra.
Qed.

Lemma otto_accepts_a_peak_temperature_below_the_compression_temperature_witness :
  otto_cycle 300 100 2 600 2 0.287 = Err ZeroDivisionError /\
  exists st m,
    otto_cycle 300 100 2 500 2 0.287 = Ok (st, m) /\
    otto_Qin_kJ_per_kg m < 0 /\ otto_Wnet_kJ_per_kg m < 0.
Proof.
  assert (HF : fpow 2 (2 - 1) = 2).
  { replace (2 - 1) with 1 by lra. apply fpow_1_r. lra. }
  destruct otto_accepts_a_peak_temperature_below_the_compression_temperature
    as [Hzero Hneg].
  split.
  - apply Hzero; [lra | lra | rewrite HF; lra].
  - destruct (otto_cycle_ok 300 100 2 500 2 0.287) as (st & m & E); try lra.
    exists st, m. split; [exact E |].
    apply (Hneg 300 100 2 500 2 0.287 st m); [lra | lra | rewrite HF; lra | exact E].
Defined.

Lemma bind_assoc {A B C : Type} (m : result A) (f : A -> result B) (k : B -> result C) :
  bind (bind m f) k = bind m (fun a => bind (f a) k).
Proof. destruct m; reflexivity. Qed.

Lemma fdiv_bind_err {B : Type} (x y : R) (k : R -> result B) (e : error) :
  bind (fdiv x y) k = Err e -> e = ZeroDivisionError \/ k (x / y) = Err e.
Proof.
  unfold fdiv. destruct (Req_dec_T y 0); cbn; intro H; [left | right; exact H].
  now injection H.
Qed.

(** Walk a failed run [H : m = Err e] down its divisions: either one of them
    raised, and the goal is closed by [tac], or the run ended in [Ok]. *)
Ltac walk_divisions H tac :=
  repeat (cbv beta zeta in H; rewrite ?bind_assoc in H; cbn [bind] in H;
          match type of H with
          | bind (fdiv _ _) _ = Err _ =>
              apply fdiv_bind_err in H; destruct H as [-> | H]; [tac |]
          end);
  cbv beta zeta in H; try discriminate H.

(** X13.  With its powers in range, an air-standard solver that fails does
    so either at a guard, with the guard's own message and in the order the
    guards are written, or, once every guard has passed, with a division
    error; no other error leaves Brayton, Otto, Diesel or Dual. *)
Theorem air_standard_solvers_fail_at_a_guard_or_at_a_division :
  (forall P1 T1 rp T3 gamma cp Rg e,
      rp <= 1000000 -> (gamma <> 0 -> small_exponent ((gamma - 1) / gamma)) ->
      brayton_ideal P1 T1 rp T3 gamma cp Rg = Err e ->
      (rp <= 1 /\ e = ValueError "Pressure ratio rp must be > 1") \/
      (1 < rp /\ e = ZeroDivisionError)) /\
  (forall T1 P1 r T3 gamma Rg e,
      r <= 1000000 -> small_exponent gamma ->
      otto_cycle T1 P1 r T3 gamma Rg = Err e ->
      (r <= 1 /\ e = ValueError "Compression ratio r must be > 1") \/
      (1 < r /\ T3 <= T1 /\ e = ValueError "T3 must be > T1") \/
      (1 < r /\ T1 < T3 /\ e = ZeroDivisionError)) /\
  (forall T1 P1 r rc gamma Rg e,
      r <= 1000000 -> rc <= 1000000 -> small_exponent gamma ->
      diesel_cycle T1 P1 r rc gamma Rg = Err e ->
      (r <= 1 /\ e = ValueError "Compression ratio r must be > 1") \/
      (1 < r /\ rc <= 1 /\ e = ValueError "Cutoff ratio rc must be > 1") \/
      (1 < r /\ 1 < rc /\ e = ZeroDivisionError)) /\
  (forall T1 P1 r alpha rc gamma Rg e,
      r <= 1000000 -> rc <= 1000000 -> small_exponent gamma ->
      dual_cycle T1 P1 r alpha rc gamma Rg = Err e ->
      (r <= 1 /\ e = ValueError "Compression ratio r must be > 1") \/
      (1 < r /\ alpha <= 1 /\ e = ValueError "alpha (P3/P2) must be > 1") \/
      (1 < r /\ 1 < alpha /\ rc <= 1 /\ e = ValueError "rc (v4/v3) must be > 1") \/
      (1 < r /\ 1 < alpha /\ 1 < rc /\ e = ZeroDivisionError)).
Proof.
  split; [| split; [| split]].
  - intros P1 T1 rp T3 gamma cp Rg e _ _. unfold brayton_ideal, brayton_body. intro H.
    destruct (Rle_dec rp 1) as [Hrp | Hrp].
    + left. cbn in H. injection H as <-. split; [exact Hrp | reflexivity].
    + right. split; [lra |]. walk_divisions H reflexivity.
  - intros T1 P1 r T3 gamma Rg e _ _. unfold otto_cycle. intro H.
    destruct (Rle_dec r 1) as [Hr | Hr].
    { left. injection H as <-. split; [exact Hr | reflexivity]. }
    destruct (Rle_dec T3 T1) as [HT | HT].
    { right; left. injection H as <-. repeat split; [lra | exact HT]. }
    right; right. split; [lra |]. split; [lra |]. walk_divisions H reflexivity.
  - intros T1 P1 r rc gamma Rg e _ _ _. unfold diesel_cycle. intro H.
    destruct (Rle_dec r 1) as [Hr | Hr].
    { left. injection H as <-. split; [exact Hr | reflexivity]. }
    destruct (Rle_dec rc 1) as [Hc | Hc].
    { right; left. injection H as <-. repeat split; [lra | exact Hc]. }
    right; right. split; [lra |]. split; [lra |]. walk_divisions H reflexivity.
  - intros T1 P1 r alpha rc gamma Rg e _ _ _. unfold dual_cycle. intro H.
    destruct (Rle_dec r 1) as [Hr | Hr].
    { left. injection H as <-. split; [exact Hr | reflexivity]. }
    destruct (Rle_dec alpha 1) as [Ha | Ha].
    { right; left. injection H as <-. repeat split; [lra | exact Ha]. }
    destruct (Rle_dec rc 1) as [Hc | Hc].
    { right; right; left. injection H as <-. repeat split; [lra | lra | exact Hc]. }
    right; right; right. repeat (split; [lra |]). walk_divisions H reflexivity.
Qed.

Lemma air_standard_solvers_fail_at_a_guard_or_at_a_division_witness :
  brayton_ideal 100 300 1 1400 1.4 1.004 0.287
  = Err (ValueError "Pressure ratio rp must be > 1") /\
  otto_cycle 300 0 8 1800 1.4 0.287 = Err ZeroDivisionError /\
  dual_cycle 300 100 14 1.5 1 1.4 0.287 = Err (ValueError "rc (v4/v3) must be > 1") /\
  diesel_cycle 300 0 18 2 1.4 0.287 = Err ZeroDivisionError.
Proof.
  destruct air_standard_solvers_fail_at_a_guard_or_at_a_division as (HB & HO & HD & HU).
  assert (Hg : small_exponent 1.4) by (unfold small_exponent; lra).
  split; [| split; [| split]].
  - destruct (brayton_ideal 100 300 1 1400 1.4 1.004 0.287) as [[st m] | e] eqn:E.
    + exfalso. unfold brayton_ideal, brayton_body in E.
      destruct (Rle_dec 1 1); [discriminate E | lra].
    + assert (He : 1.4 <> 0 -> small_exponent ((1.4 - 1) / 1.4))
        by (intros _; unfold small_exponent; lra).
      assert (Hrp : 1 <= 1000000) by lra.
      destruct (HB _ _ _ _ _ _ _ e Hrp He E) as [[_ ->] | [? _]]; [reflexivity | lra].
  - destruct (otto_cycle 300 0 8 1800 1.4 0.287) as [[st m] | e] eqn:E.
    + exfalso. unfold otto_cycle in E.
      destruct (Rle_dec 8 1); [lra |]. destruct (Rle_dec 1800 300); [lra |].
      unbind E. lra.
    + assert (Hr : 8 <= 1000000) by lra.
      destruct (HO _ _ _ _ _ _ e Hr Hg E) as [[? _] | [(_ & ? & _) | (_ & _ & ->)]];
        try lra. reflexivity.
  - destruct (dual_cycle 300 100 14 1.5 1 1.4 0.287) as [[st m] | e] eqn:E.
    + exfalso. unfold dual_cycle in E.
      destruct (Rle_dec 14 1); [lra |]. destruct (Rle_dec 1.5 1); [lra |].
      destruct (Rle_dec 1 1); [discriminate E | lra].
    + assert (Hr : 14 <= 1000000) by lra. assert (Hc : 1 <= 1000000) by lra.
      destruct (HU _ _ _ _ _ _ _ e Hr Hc Hg E)
        as [[? _] | [(_ & ? & _) | [(_ & _ & _ & ->) | (_ & _ & ? & _)]]];
        try lra. reflexivity.
  - destruct (diesel_cycle 300 0 18 2 1.4 0.287) as [[st m] | e] eqn:E.
    + exfalso. unfold diesel_cycle in E.
      destruct (Rle_dec 18 1); [lra |]. destruct (Rle_dec 2 1); [lra |].
      unbind E. lra.
    + assert (Hr : 18 <= 1000000) by lra. assert (Hc : 2 <= 1000000) by lra.
      destruct (HD _ _ _ _ _ _ e Hr Hc Hg E) as [[? _] | [(_ & ? & _) | (_ & _ & ->)]];
        try lra. reflexivity.
Defined.

Lemma diesel_cycle_inv T1 P1 r rc gamma Rg st m :
  diesel_cycle T1 P1 r rc gamma Rg = Ok (st, m) ->
  let cv := Rg / (gamma - 1) in
  let cp := gamma * cv in
  let v1 := Rg * T1 / P1 in
  let T2 := T1 * fpow r (gamma - 1) in
  let P2 := P1 * fpow r gamma in
  let T3 := T2 * rc in
  let k := rc * (v1 / r) / v1 in
  let T4 := T3 * fpow k (gamma - 1) in
  1 < r /\ 1 < rc /\ gamma - 1 <> 0 /\ P1 <> 0 /\ v1 <> 0 /\
  cp * (T3 - T2) <> 0 /\ T2 <> 0 /\
  st = mk_states_df false true
         [rel_row 1 P1 T1 v1 0;
          rel_row 2 P2 T2 (v1 / r) 0;
          rel_row 3 P2 T3 (rc * (v1 / r)) (0 + cp * ln (T3 / T2));
          rel_row 4 (P2 * fpow k gamma) T4 v1 (0 + cp * ln (T3 / T2))] /\
  m = mk_diesel_metrics (1 - cv * (T4 - T1) / (cp * (T3 - T2)))
        (cp * (T3 - T2)) (cv * (T4 - T1))
        (cp * (T3 - T2) - cv * (T4 - T1)) r rc.
Proof.
  unfold diesel_cycle. intro H.
  destruct (Rle_dec r 1) as [| Hr]; [discriminate H |].
  destruct (Rle_dec rc 1) as [| Hc]; [discriminate H |].
  unbind H. cbv zeta.
  repeat (split; [first [assumption | lra] |]). split; reflexivity.
Qed.

(** What the successful divisions of a Diesel or Dual run say about the
    inputs. *)
Lemma heat_nonzero_inputs (gamma Rg T1 F d : R) :
  gamma * (Rg / (gamma - 1)) * (T1 * F * d) <> 0 ->
  gamma <> 0 /\ Rg / (gamma - 1) <> 0 /\ T1 <> 0.
Proof.
  intro H. repeat split; intro E; apply H; rewrite E; ring.
Qed.

Lemma expansion_to_v1 (r rc gamma : R) :
  1 < r -> 1 < rc ->
  fpow r (gamma - 1) * rc * fpow (rc / r) (gamma - 1) = fpow rc gamma /\
  fpow r gamma * fpow (rc / r) gamma = fpow rc gamma.
Proof.
  intros Hr Hc.
  pose proof (fpow_pos r (gamma - 1)). pose proof (fpow_pos r gamma).
  rewrite !fpow_div by lra. rewrite (fpow_succ rc gamma) by lra.
  split; field; lra.
Qed.

(** X14.  On inputs in range, the efficiency a Diesel run reports is the
    air-standard formula
    [1 - (rc^gamma - 1) / (gamma * r^(gamma-1) * (rc - 1))]: it depends on
    the compression ratio, the cutoff ratio and [gamma] only, and not on
    [T1], [P1] or the gas constant. *)
Theorem diesel_efficiency_in_closed_form :
  forall T1 P1 r rc gamma Rg st m,
    diesel_in_range T1 P1 r rc gamma Rg ->
    diesel_cycle T1 P1 r rc gamma Rg = Ok (st, m) ->
    diesel_eta_th m
    = 1 - (fpow rc gamma - 1) / (gamma * fpow r (gamma - 1) * (rc - 1)).
Proof.
  intros T1 P1 r rc gamma Rg st m _ H.
  apply diesel_cycle_inv in H. cbv zeta in H.
  destruct H as (Hr & Hc & Hg & HP & Hv1 & HQ & HT2 & _ & ->).
  cbn [diesel_eta_th].
  assert (Hr0 : r <> 0) by lra.
  rewrite scale_cancels by assumption.
  destruct (expansion_to_v1 r rc gamma Hr Hc) as [HT4 _].
  pose proof (fpow_pos r (gamma - 1)) as HF.
  set (F := fpow r (gamma - 1)) in *.
  set (k := fpow (rc / r) (gamma - 1)) in *.
  replace (T1 * F * rc - T1 * F) with (T1 * F * (rc - 1)) in HQ |- * by ring.
  destruct (heat_nonzero_inputs _ _ _ _ _ HQ) as (Hg0 & Hcv & HT1).
  assert (HRg : Rg <> 0) by (eapply Rdiv_neq_0_num; eassumption).
  replace (T1 * F * rc * k) with (T1 * (F * rc * k)) by ring.
  rewrite HT4. field. repeat split; first [assumption | lra].
Qed.

Lemma diesel_efficiency_in_closed_form_witness :
  exists st m,
    diesel_cycle 300 100 18 2 1.4 0.287 = Ok (st, m) /\
    diesel_eta_th m = 1 - (fpow 2 1.4 - 1) / (1.4 * fpow 18 (1.4 - 1) * (2 - 1)).
Proof.
  destruct (diesel_cycle_ok 300 100 18 2 1.4 0.287) as (st & m & E); try lra.
  exists st, m. split; [exact E |].
  assert (Hin : diesel_in_range 300 100 18 2 1.4 0.287).
  { unfold diesel_in_range, moderate, clear_above. lra. }
  exact (diesel_efficiency_in_closed_form _ _ _ _ _ _ _ _ Hin E).
Defined.

(** X15.  The four states of the Diesel table lie on the ideal-gas law;
    heat is added at the pressure of state 2 up to the volume [rc * v2];
    the expansion back to [v1] ends at [T1 * rc^gamma] and
    [P1 * rc^gamma], whatever the compression ratio; and for [T1 > 0] the
    relative entropy closes: rejecting heat at constant volume from state 4
    back to [T1] returns it to the 0 of state 1. *)
Theorem diesel_table_is_a_closed_loop_of_ideal_gas_states :
  forall T1 P1 r rc gamma Rg st m,
    diesel_cycle T1 P1 r rc gamma Rg = Ok (st, m) ->
    exists r1 r2 r3 r4,
      rows st = [r1; r2; r3; r4] /\
      Forall (on_ideal_gas_law Rg) (rows st) /\
      cell_P_kPa r3 = cell_P_kPa r2 /\
      cell_v_m3_per_kg r3 = rc * cell_v_m3_per_kg r2 /\
      cell_v_m3_per_kg r4 = cell_v_m3_per_kg r1 /\
      cell_T_K r4 = T1 * fpow rc gamma /\
      cell_P_kPa r4 = P1 * fpow rc gamma /\
      (0 < T1 ->
       cell_s_rel r4
       + Rg / (gamma - 1) * ln (cell_T_K r1 / cell_T_K r4) = 0).
Proof.
  intros T1 P1 r rc gamma Rg st m H.
  apply diesel_cycle_inv in H. cbv zeta in H.
  destruct H as (Hr & Hc & Hg & HP & Hv1 & HQ & HT2 & -> & _).
  do 4 eexists. split; [reflexivity |]. cbn.
  assert (Hr0 : r <> 0) by lra.
  rewrite scale_cancels by assumption.
  destruct (expansion_to_v1 r rc gamma Hr Hc) as [HT4 HP4].
  assert (Hrg : fpow r gamma = r * fpow r (gamma - 1)) by (apply fpow_succ; lra).
  assert (Hkg : fpow (rc / r) gamma = rc / r * fpow (rc / r) (gamma - 1)).
  { apply fpow_succ. apply Rdiv_lt_0_compat; lra. }
  pose proof (fpow_pos r (gamma - 1)) as HF.
  pose proof (fpow_pos rc gamma) as HC.
  assert (ET4 : T1 * fpow r (gamma - 1) * rc * fpow (rc / r) (gamma - 1)
                = T1 * fpow rc gamma) by (rewrite <- HT4; ring).
  assert (EP4 : P1 * fpow r gamma * fpow (rc / r) gamma = P1 * fpow rc gamma)
    by (rewrite <- HP4; ring).
  split.
  { unfold on_ideal_gas_law.
    repeat constructor; cbn; rewrite ?Hkg, ?Hrg; field; repeat split; first [assumption | lra]. }
  split; [reflexivity |]. split; [reflexivity |]. split; [reflexivity |].
  split; [exact ET4 |]. split; [exact EP4 |].
  intro HT10. rewrite ET4.
  set (F := fpow r (gamma - 1)) in *.
  replace (T1 * F * rc / (T1 * F)) with rc by (field; split; lra).
  replace (T1 / (T1 * fpow rc gamma)) with (/ fpow rc gamma) by (field; split; lra).
  rewrite ln_Rinv by exact HC. rewrite ln_fpow. field. exact Hg.
Qed.

Lemma diesel_table_is_a_closed_loop_of_ideal_gas_states_witness :
  exists st m r1 r2 r3 r4,
    diesel_cycle 300 100 18 2 1.4 0.287 = Ok (st, m) /\
    rows st = [r1; r2; r3; r4] /\
    cell_T_K r4 = 300 * fpow 2 1.4 /\
    cell_P_kPa r4 = 100 * fpow 2 1.4.
Proof.
  destruct (diesel_cycle_ok 300 100 18 2 1.4 0.287) as (st & m & E); try lra.
  destruct (diesel_table_is_a_closed_loop_of_ideal_gas_states _ _ _ _ _ _ _ _ E)
    as (r1 & r2 & r3 & r4 & Hrows & _ & _ & _ & _ & HT & HP4 & _).
  exists st, m, r1, r2, r3, r4. repeat split; assumption.
Defined.

Lemma dual_cycle_inv T1 P1 r alpha rc gamma Rg st m :
  dual_cycle T1 P1 r alpha rc gamma Rg = Ok (st, m) ->
  let cv := Rg / (gamma - 1) in
  let cp := gamma * cv in
  let v1 := Rg * T1 / P1 in
  let T2 := T1 * fpow r (gamma - 1) in
  let P2 := P1 * fpow r gamma in
  let T3 := alpha * T2 in
  let T4 := rc * T3 in
  let k := rc * (v1 / r) / v1 in
  let T5 := T4 * fpow k (gamma - 1) in
  let Qin := cv * (T3 - T2) + cp * (T4 - T3) in
  let s3 := 0 + cv * ln (T3 / T2) in
  let s4 := s3 + cp * ln (T4 / T3) in
  1 < r /\ 1 < alpha /\ 1 < rc /\ gamma - 1 <> 0 /\ P1 <> 0 /\ v1 <> 0 /\
  Qin <> 0 /\ T2 <> 0 /\ T3 <> 0 /\
  st = mk_states_df false true
         [rel_row 1 P1 T1 v1 0;
          rel_row 2 P2 T2 (v1 / r) 0;
          rel_row 3 (alpha * P2) T3 (v1 / r) s3;
          rel_row 4 (alpha * P2) T4 (rc * (v1 / r)) s4;
          rel_row 5 (alpha * P2 * fpow k gamma) T5 v1 s4] /\
  m = mk_dual_metrics (1 - cv * (T5 - T1) / Qin)
        Qin (cv * (T5 - T1)) (Qin - cv * (T5 - T1)) r alpha rc.
Proof.
  unfold dual_cycle. intro H.
  destruct (Rle_dec r 1) as [| Hr]; [discriminate H |].
  destruct (Rle_dec alpha 1) as [| Ha]; [discriminate H |].
  destruct (Rle_dec rc 1) as [| Hc]; [discriminate H |].
  unbind H. cbv zeta.
  repeat (split; [first [assumption | lra] |]). split; reflexivity.
Qed.

(** X16.  On inputs in range, the efficiency a Dual run reports is the
    air-standard formula
    [1 - (alpha * rc^gamma - 1)
         / (r^(gamma-1) * ((alpha - 1) + gamma * alpha * (rc - 1)))]:
    it depends on the three ratios and [gamma] only, and not on [T1], [P1]
    or the gas constant. *)
Theorem dual_efficiency_in_closed_form :
  forall T1 P1 r alpha rc gamma Rg st m,
    dual_in_range T1 P1 r alpha rc gamma Rg ->
    dual_cycle T1 P1 r alpha rc gamma Rg = Ok (st, m) ->
    dual_eta_th m
    = 1 - (alpha * fpow rc gamma - 1)
          / (fpow r (gamma - 1) * ((alpha - 1) + gamma * alpha * (rc - 1))).
Proof.
  intros T1 P1 r alpha rc gamma Rg st m _ H.
  apply dual_cycle_inv in H. cbv zeta in H.
  destruct H as (Hr & Ha & Hc & Hg & HP & Hv1 & HQ & HT2 & HT3 & _ & ->).
  cbn [dual_eta_th].
  assert (Hr0 : r <> 0) by lra.
  rewrite scale_cancels by assumption.
  destruct (expansion_to_v1 r rc gamma Hr Hc) as [HT5 _].
  pose proof (fpow_pos r (gamma - 1)) as HF.
  set (F := fpow r (gamma - 1)) in *.
  set (k := fpow (rc / r) (gamma - 1)) in *.
  set (D := (alpha - 1) + gamma * alpha * (rc - 1)).
  replace (Rg / (gamma - 1) * (alpha * (T1 * F) - T1 * F)
           + gamma * (Rg / (gamma - 1)) * (rc * (alpha * (T1 * F)) - alpha * (T1 * F)))
    with (Rg / (gamma - 1) * T1 * (F * D)) in HQ |- * by (unfold D; ring).
  assert (HFD : F * D <> 0) by (eapply Rmult_neq_0_r; eassumption).
  assert (HD : D <> 0) by (eapply Rmult_neq_0_r; eassumption).
  assert (HcT : Rg / (gamma - 1) * T1 <> 0) by (eapply Rmult_neq_0_l; eassumption).
  assert (Hcv : Rg / (gamma - 1) <> 0) by (eapply Rmult_neq_0_l; eassumption).
  assert (HT1 : T1 <> 0) by (eapply Rmult_neq_0_r; eassumption).
  assert (HRg : Rg <> 0) by (eapply Rdiv_neq_0_num; eassumption).
  replace (rc * (alpha * (T1 * F)) * k) with (T1 * alpha * (F * rc * k)) by ring.
  rewrite HT5. field. repeat split; first [assumption | lra].
Qed.

Lemma dual_efficiency_in_closed_form_witness :
  exists st m,
    dual_cycle 300 100 14 1.5 1.3 1.4 0.287 = Ok (st, m) /\
    dual_eta_th m
    = 1 - (1.5 * fpow 1.3 1.4 - 1)
          / (fpow 14 (1.4 - 1) * ((1.5 - 1) + 1.4 * 1.5 * (1.3 - 1))).
Proof.
  destruct (dual_cycle_ok 300 100 14 1.5 1.3 1.4 0.287) as (st & m & E); try lra.
  exists st, m. split; [exact E |].
  assert (Hin : dual_in_range 300 100 14 1.5 1.3 1.4 0.287).
  { unfold dual_in_range, diesel_in_range, moderate, clear_above. lra. }
  exact (dual_efficiency_in_closed_form _ _ _ _ _ _ _ _ _ Hin E).
Defined.

(** X17.  The five states of the Dual table lie on the ideal-gas law; heat
    is added first at the volume of state 2, raising the pressure by
    [alpha], then at that pressure up to [rc] times the volume; the
    expansion back to [v1] ends at [alpha * T1 * rc^gamma]; and for
    [T1 > 0] the relative entropy closes: rejecting heat at constant volume
    from state 5 back to [T1] returns it to the 0 of state 1. *)
Theorem dual_table_is_a_closed_loop_of_ideal_gas_states :
  forall T1 P1 r alpha rc gamma Rg st m,
    dual_cycle T1 P1 r alpha rc gamma Rg = Ok (st, m) ->
    exists r1 r2 r3 r4 r5,
      rows st = [r1; r2; r3; r4; r5] /\
      Forall (on_ideal_gas_law Rg) (rows st) /\
      cell_v_m3_per_kg r3 = cell_v_m3_per_kg r2 /\
      cell_P_kPa r3 = alpha * cell_P_kPa r2 /\
      cell_P_kPa r4 = cell_P_kPa r3 /\
      cell_v_m3_per_kg r4 = rc * cell_v_m3_per_kg r3 /\
      cell_v_m3_per_kg r5 = cell_v_m3_per_kg r1 /\
      cell_T_K r5 = alpha * T1 * fpow rc gamma /\
      (0 < T1 ->
       cell_s_rel r5 + Rg / (gamma - 1) * ln (cell_T_K r1 / cell_T_K r5) = 0).
Proof.
  intros T1 P1 r alpha rc gamma Rg st m H.
  apply dual_cycle_inv in H. cbv zeta in H.
  destruct H as (Hr & Ha & Hc & Hg & HP & Hv1 & HQ & HT2 & HT3 & -> & _).
  do 5 eexists. split; [reflexivity |]. cbn.
  assert (Hr0 : r <> 0) by lra.
  rewrite scale_cancels by assumption.
  destruct (expansion_to_v1 r rc gamma Hr Hc) as [HT5 _].
  assert (Hrg : fpow r gamma = r * fpow r (gamma - 1)) by (apply fpow_succ; lra).
  assert (Hkg : fpow (rc / r) gamma = rc / r * fpow (rc / r) (gamma - 1)).
  { apply fpow_succ. apply Rdiv_lt_0_compat; lra. }
  pose proof (fpow_pos r (gamma - 1)) as HF.
  pose proof (fpow_pos rc gamma) as HC.
  assert (ET5 : rc * (alpha * (T1 * fpow r (gamma - 1))) * fpow (rc / r) (gamma - 1)
                = alpha * T1 * fpow rc gamma) by (rewrite <- HT5; ring).
  split.
  { unfold on_ideal_gas_law.
    repeat constructor; cbn; rewrite ?Hkg, ?Hrg; field; repeat split; first [assumption | lra]. }
  split; [reflexivity |]. split; [reflexivity |]. split; [reflexivity |].
  split; [reflexivity |]. split; [reflexivity |].
  split; [exact ET5 |].
  intro HT10. rewrite ET5.
  set (F := fpow r (gamma - 1)) in *.
  replace (alpha * (T1 * F) / (T1 * F)) with alpha by (field; split; lra).
  replace (rc * (alpha * (T1 * F)) / (alpha * (T1 * F))) with rc
    by (field; repeat split; lra).
  replace (T1 / (alpha * T1 * fpow rc gamma)) with (/ (alpha * fpow rc gamma))
    by (field; repeat split; lra).
  rewrite ln_Rinv by (apply Rmult_lt_0_compat; lra).
  rewrite ln_mult by lra. rewrite ln_fpow. field. exact Hg.
Qed.

Lemma dual_table_is_a_closed_loop_of_ideal_gas_states_witness :
  exists st m r1 r2 r3 r4 r5,
    dual_cycle 300 100 14 1.5 1.3 1.4 0.287 = Ok (st, m) /\
    rows st = [r1; r2; r3; r4; r5] /\
    cell_T_K r5 = 1.5 * 300 * fpow 1.3 1.4.
Proof.
  destruct (dual_cycle_ok 300 100 14 1.5 1.3 1.4 0.287) as (st & m & E); try lra.
  destruct (dual_table_is_a_closed_loop_of_ideal_gas_states _ _ _ _ _ _ _ _ _ E)
    as (r1 & r2 & r3 & r4 & r5 & Hrows & _ & _ & _ & _ & _ & _ & HT & _).
  exists st, m, r1, r2, r3, r4, r5. repeat split; assumption.
Defined.

(** ** The Rankine solvers and their provider *)

Lemma bindL_err {A B : Type} (m : lookups A) (k : A -> lookups B) log e log'' :
  bindL m k log = (Err e, log'') ->
  m log = (Err e, log'') \/
  exists a log', m log = (Ok a, log') /\ k a log' = (Err e, log'').
Proof.
  unfold bindL. destruct (m log) as [[a | e'] log']; intro H.
  - right. exists a, log'. split; [reflexivity | exact H].
  - left. injection H as <- <-. reflexivity.
Qed.

Lemma IAPWS97_err prov q log e log' :
  IAPWS97 prov q log = (Err e, log') -> prov q = Err e /\ log' = log ++ [q].
Proof. unfold IAPWS97. intro H. injection H as H1 H2. split; congruence. Qed.

Lemma dome_loop_ok prov Ps :
  forall Ts sf sg log dome log',
    dome_loop prov Ps Ts sf sg log = (Ok dome, log') ->
    exists fs gs,
      answers prov (fun P => iapws.P_x P 0) Ps fs /\
      answers prov (fun P => iapws.P_x P 1) Ps gs /\
      dome = mk_dome_df (Ts ++ map iapws.T fs) (sf ++ map iapws.s fs)
               (sg ++ map iapws.s gs) /\
      log' = log ++ dome_queries Ps.
Proof.
  induction Ps as [| P Ps IH]; intros Ts sf sg log dome log' H; cbn [dome_loop] in H.
  - unfold retL in H. injection H as <- <-.
    exists [], []. cbn. rewrite !app_nil_r. repeat split; constructor.
  - apply bindL_ok in H. destruct H as (f & log1 & Hf & H).
    apply bindL_ok in H. destruct H as (g & log2 & Hg & H).
    apply IAPWS97_ok in Hf. destruct Hf as [Hf ->].
    apply IAPWS97_ok in Hg. destruct Hg as [Hg ->].
    apply IH in H. destruct H as (fs & gs & Hfs & Hgs & -> & ->).
    exists (f :: fs), (g :: gs).
    split; [constructor; assumption |]. split; [constructor; assumption |].
    cbn [map dome_queries flat_map]. rewrite <- !app_assoc. cbn [app].
    split; reflexivity.
Qed.

Lemma dome_loop_err prov Ps :
  forall Ts sf sg log e log',
    dome_loop prov Ps Ts sf sg log = (Err e, log') ->
    exists q log0, log' = log0 ++ [q] /\ prov q = Err e.
Proof.
  induction Ps as [| P Ps IH]; intros Ts sf sg log e log' H; cbn [dome_loop] in H.
  - discriminate H.
  - apply bindL_err in H. destruct H as [H | (f & log1 & _ & H)].
    { apply IAPWS97_err in H. destruct H as [H ->]. eauto. }
    apply bindL_err in H. destruct H as [H | (g & log2 & _ & H)].
    { apply IAPWS97_err in H. destruct H as [H ->]. eauto. }
    eapply IH. exact H.
Qed.

Lemma dome_queries_length (Ps : list R) :
  length (dome_queries Ps) = (2 * length Ps)%nat.
Proof.
  unfold dome_queries. induction Ps as [| P Ps IH]; cbn [flat_map app length]; lia.
Qed.

Lemma length_removelast {A : Type} (l : list A) :
  length (removelast l) = (length l - 1)%nat.
Proof.
  rewrite removelast_firstn_len, length_firstn. lia.
Qed.

Lemma geomspace_length (a b : R) (n : nat) : length (geomspace a b n) = n.
Proof.
  destruct n as [| [| m]]; try reflexivity.
  unfold geomspace. cbn [length].
  rewrite length_app, length_map, length_removelast, length_tl, linspace_length.
  cbn [length]. lia.
Qed.

Lemma geomspace_ends (a b : R) (n : nat) :
  (2 <= n)%nat ->
  hd 0 (geomspace a b n) = a /\ last (geomspace a b n) 0 = b.
Proof.
  destruct n as [| [| m]]; try lia. intros _. unfold geomspace.
  split; [reflexivity |].
  rewrite app_comm_cons. apply last_last.
Qed.

Lemma answers_length prov mk Ps sts : answers prov mk Ps sts -> length sts = length Ps.
Proof. intro H. symmetry. exact (Forall2_length H). Qed.

(** Everything a returning Rankine run has done. *)
Lemma rankine_ideal_run prov Pc Pb T3_C states metrics dome log :
  run (rankine_ideal prov Pc Pb T3_C) = (Ok (states, metrics, dome), log) ->
  let q3 := match T3_C with
            | None => iapws.P_x (Pb / 1000) 1
            | Some t => iapws.P_T (Pb / 1000) (t + 273.15)
            end in
  0 < Pc /\ Pc < Pb /\
  exists st1 st2 st3 st4,
    let wp := iapws.v st1 * (Pb - Pc) in
    let h2 := iapws.h st1 + wp in
    let wt := iapws.h st3 - iapws.h st4 in
    let qin := iapws.h st3 - h2 in
    prov (iapws.P_x (Pc / 1000) 0) = Ok st1 /\
    prov (iapws.P_h (Pb / 1000) h2) = Ok st2 /\
    prov q3 = Ok st3 /\
    prov (iapws.P_s (Pc / 1000) (iapws.s st3)) = Ok st4 /\
    qin <> 0 /\
    states =
      [mk_fluid_row 1 Pc (iapws.T st1) (iapws.h st1) (iapws.s st1) (iapws.v st1)
         (_safe_quality st1);
       mk_fluid_row 2 Pb (iapws.T st2) h2 (iapws.s st2) (iapws.v st2)
         (_safe_quality st2);
       mk_fluid_row 3 Pb (iapws.T st3) (iapws.h st3) (iapws.s st3) (iapws.v st3)
         (_safe_quality st3);
       mk_fluid_row 4 Pc (iapws.T st4) (iapws.h st4) (iapws.s st4) (iapws.v st4)
         (_safe_quality st4)] /\
    metrics = mk_rankine_metrics wp wt (wt - wp) qin ((wt - wp) / qin)
                (_safe_quality st4) /\
    dome_loop prov (geomspace (Pc / 1000) (Pb / 1000) 80) [] [] []
      [iapws.P_x (Pc / 1000) 0; iapws.P_h (Pb / 1000) h2; q3;
       iapws.P_s (Pc / 1000) (iapws.s st3)]
    = (Ok dome, log).
Proof.
  unfold run, rankine_ideal. intro H.
  destruct (Rle_dec Pc 0); [discriminate H |].
  destruct (Rle_dec Pb 0); [discriminate H |].
  destruct (Rle_dec Pb Pc); [discriminate H |].
  cbv zeta in H |- *.
  split; [lra |]. split; [lra |].
  apply bindL_ok in H. destruct H as (st1 & log1 & H1 & H).
  apply bindL_ok in H. destruct H as (st2 & log2 & H2 & H).
  apply bindL_ok in H. destruct H as (st3 & log3 & H3 & H).
  apply bindL_ok in H. destruct H as (st4 & log4 & H4 & H).
  apply bindL_ok in H. destruct H as (eta & log5 & H5 & H).
  apply bindL_ok in H. destruct H as (dome' & log6 & H6 & H).
  unfold retL in H. injection H as <- <- <- <-.
  unfold liftL in H5. injection H5 as H5 <-.
  apply fdiv_inv in H5. destruct H5 as [Hq ->].
  apply IAPWS97_ok in H1. destruct H1 as [H1 ->].
  apply IAPWS97_ok in H2. destruct H2 as [H2 ->].
  apply IAPWS97_ok in H4. destruct H4 as [H4 ->].
  assert (H3' : prov (match T3_C with
                      | None => iapws.P_x (Pb / 1000) 1
                      | Some t => iapws.P_T (Pb / 1000) (t + 273.15)
                      end) = Ok st3 /\
                log3 = ([] ++ [iapws.P_x (Pc / 1000) 0])
                         ++ [iapws.P_h (Pb / 1000) (iapws.h st1 + iapws.v st1 * (Pb - Pc))]
                         ++ [match T3_C with
                             | None => iapws.P_x (Pb / 1000) 1
                             | Some t => iapws.P_T (Pb / 1000) (t + 273.15)
                             end]).
  { destruct T3_C; apply IAPWS97_ok in H3; destruct H3 as [H3 ->];
      (split; [exact H3 | now rewrite <- app_assoc]). }
  clear H3. destruct H3' as [H3 ->].
  exists st1, st2, st3, st4.
  repeat (split; [first [assumption | reflexivity] |]).
  cbn [app] in H6. exact H6.
Qed.

(** X18.  A returning Rankine run closes the first law: the net work it
    reports is the heat added minus the heat [h4 - h1] rejected in the
    condenser, and the efficiency times the heat added is the net work.
    The enthalpy of state 2 in the table is the pump model
    [h1 + v1 * (Pb - Pc)] with the pressures in kPa, and the table lists
    the pressures as they were given: condenser, boiler, boiler,
    condenser. *)
Theorem rankine_work_and_heat_close_the_first_law :
  forall prov Pc Pb T3_C states metrics dome log,
    run (rankine_ideal prov Pc Pb T3_C) = (Ok (states, metrics, dome), log) ->
    exists r1 r2 r3 r4,
      states = [r1; r2; r3; r4] /\
      map fluid_P_kPa states = [Pc; Pb; Pb; Pc] /\
      fluid_h_kJ_per_kg r2
      = fluid_h_kJ_per_kg r1 + fluid_v_m3_per_kg r1 * (Pb - Pc) /\
      rankine_wp_kJ_per_kg metrics = fluid_h_kJ_per_kg r2 - fluid_h_kJ_per_kg r1 /\
      rankine_wt_kJ_per_kg metrics = fluid_h_kJ_per_kg r3 - fluid_h_kJ_per_kg r4 /\
      rankine_Qin_kJ_per_kg metrics = fluid_h_kJ_per_kg r3 - fluid_h_kJ_per_kg r2 /\
      rankine_Wnet_kJ_per_kg metrics
      = rankine_Qin_kJ_per_kg metrics
        - (fluid_h_kJ_per_kg r4 - fluid_h_kJ_per_kg r1) /\
      rankine_Qin_kJ_per_kg metrics <> 0 /\
      rankine_eta_th metrics * rankine_Qin_kJ_per_kg metrics
      = rankine_Wnet_kJ_per_kg metrics.
Proof.
  intros prov Pc Pb T3_C states metrics dome log H.
  apply rankine_ideal_run in H. cbv zeta in H.
  destruct H as (_ & _ & st1 & st2 & st3 & st4 & _ & _ & _ & _ & Hq & -> & -> & _).
  do 4 eexists. split; [reflexivity |]. cbn.
  split; [reflexivity |]. split; [reflexivity |].
  split; [ring |]. split; [reflexivity |]. split; [reflexivity |].
  split; [ring |]. split; [exact Hq |].
  field. exact Hq.
Qed.

Lemma rankine_ideal_returns prov Pc Pb T3_C st1 st3 :
  0 < Pc -> Pc < Pb ->
  (forall q, exists st, prov q = Ok st) ->
  prov (iapws.P_x (Pc / 1000) 0) = Ok st1 ->
  prov (match T3_C with
        | None => iapws.P_x (Pb / 1000) 1
        | Some t => iapws.P_T (Pb / 1000) (t + 273.15)
        end) = Ok st3 ->
  iapws.h st3 - (iapws.h st1 + iapws.v st1 * (Pb - Pc)) <> 0 ->
  exists states metrics dome log,
    run (rankine_ideal prov Pc Pb T3_C) = (Ok (states, metrics, dome), log).
Proof.
  intros H0 H1 Htot E1 E3 Hq. unfold run, rankine_ideal.
  destruct (Rle_dec Pc 0); [lra |]. destruct (Rle_dec Pb 0); [lra |].
  destruct (Rle_dec Pb Pc); [lra |].
  cbv zeta.
  set (Ps := geomspace (Pc / 1000) (Pb / 1000) 80).
  unfold bindL at 1. unfold IAPWS97 at 1. rewrite E1.
  unfold bindL at 1. unfold IAPWS97 at 1.
  destruct (Htot (iapws.P_h (Pb / 1000) (iapws.h st1 + iapws.v st1 * (Pb - Pc))))
    as [st2 ->].
  unfold bindL at 1.
  replace (match T3_C with
           | None => IAPWS97 prov (iapws.P_x (Pb / 1000) 1)
           | Some t => IAPWS97 prov (iapws.P_T (Pb / 1000) (t + 273.15))
           end)
    with (IAPWS97 prov (match T3_C with
                        | None => iapws.P_x (Pb / 1000) 1
                        | Some t => iapws.P_T (Pb / 1000) (t + 273.15)
                        end)) by (destruct T3_C; reflexivity).
  unfold IAPWS97 at 1. rewrite E3.
  unfold bindL at 1. unfold IAPWS97 at 1.
  destruct (Htot (iapws.P_s (Pc / 1000) (iapws.s st3))) as [st4 ->].
  unfold bindL at 1. unfold liftL.
  rewrite fdiv_ok by exact Hq.
  unfold bindL.
  match goal with
  | |- context [dome_loop prov Ps ?a ?b ?c ?l] =>
      destruct (dome_loop_total prov Ps Htot a b c l) as (dome & log' & ->)
  end.
  unfold retL. eexists _, _, _, _. reflexivity.
Qed.

Lemma toy_rankine_runs :
  exists states metrics dome log,
    run (rankine_ideal toy_steam 10 8000 None) = (Ok (states, metrics, dome), log).
Proof.
  eapply rankine_ideal_returns; try exact toy_steam_total; try reflexivity; try lra.
  cbn. lra.
Qed.

Lemma rankine_work_and_heat_close_the_first_law_witness :
  exists states metrics dome log,
    run (rankine_ideal toy_steam 10 8000 None) = (Ok (states, metrics, dome), log) /\
    rankine_eta_th metrics * rankine_Qin_kJ_per_kg metrics
    = rankine_Wnet_kJ_per_kg metrics.
Proof.
  destruct toy_rankine_runs as (states & metrics & dome & log & E).
  exists states, metrics, dome, log. split; [exact E |].
  destruct (rankine_work_and_heat_close_the_first_law _ _ _ _ _ _ _ _ E)
    as (r1 & r2 & r3 & r4 & _ & _ & _ & _ & _ & _ & _ & _ & Heta).
  exact Heta.
Defined.

(** Everything a returning reheat run has done. *)
Lemma rankine_reheat_ideal_run prov Pc Pb Pr T3_C T5_C states metrics dome log :
  run (rankine_reheat_ideal prov Pc Pb Pr T3_C T5_C)
  = (Ok (states, metrics, dome), log) ->
  0 < Pc /\ Pc < Pr /\ Pr < Pb /\
  exists st1 st2 st3 st4 st5 st6,
    let wp := iapws.v st1 * (Pb - Pc) in
    let h2 := iapws.h st1 + wp in
    let wt_hp := iapws.h st3 - iapws.h st4 in
    let wt_lp := iapws.h st5 - iapws.h st6 in
    let wnet := wt_hp + wt_lp - wp in
    let qin_boiler := iapws.h st3 - h2 in
    let qin_reheat := iapws.h st5 - iapws.h st4 in
    let qin_total := qin_boiler + qin_reheat in
    prov (iapws.P_x (Pc / 1000) 0) = Ok st1 /\
    prov (iapws.P_h (Pb / 1000) h2) = Ok st2 /\
    prov (iapws.P_T (Pb / 1000) (T3_C + 273.15)) = Ok st3 /\
    prov (iapws.P_s (Pr / 1000) (iapws.s st3)) = Ok st4 /\
    prov (iapws.P_T (Pr / 1000) (T5_C + 273.15)) = Ok st5 /\
    prov (iapws.P_s (Pc / 1000) (iapws.s st5)) = Ok st6 /\
    qin_total <> 0 /\
    states =
      [mk_fluid_row 1 Pc (iapws.T st1) (iapws.h st1) (iapws.s st1) (iapws.v st1)
         (_safe_quality st1);
       mk_fluid_row 2 Pb (iapws.T st2) h2 (iapws.s st2) (iapws.v st2)
         (_safe_quality st2);
       mk_fluid_row 3 Pb (iapws.T st3) (iapws.h st3) (iapws.s st3) (iapws.v st3)
         (_safe_quality st3);
       mk_fluid_row 4 Pr (iapws.T st4) (iapws.h st4) (iapws.s st4) (iapws.v st4)
         (_safe_quality st4);
       mk_fluid_row 5 Pr (iapws.T st5) (iapws.h st5) (iapws.s st5) (iapws.v st5)
         (_safe_quality st5);
       mk_fluid_row 6 Pc (iapws.T st6) (iapws.h st6) (iapws.s st6) (iapws.v st6)
         (_safe_quality st6)] /\
    metrics = mk_reheat_metrics wp wt_hp wt_lp (wt_hp + wt_lp) wnet qin_boiler
                qin_reheat qin_total (wnet / qin_total) (_safe_quality st6) /\
    dome_loop prov (geomspace (Pc / 1000) (Pb / 1000) 90) [] [] []
      [iapws.P_x (Pc / 1000) 0; iapws.P_h (Pb / 1000) h2;
       iapws.P_T (Pb / 1000) (T3_C + 273.15);
       iapws.P_s (Pr / 1000) (iapws.s st3);
       iapws.P_T (Pr / 1000) (T5_C + 273.15);
       iapws.P_s (Pc / 1000) (iapws.s st5)]
    = (Ok dome, log).
Proof.
  unfold run, rankine_reheat_ideal. intro H.
  destruct (Rle_dec Pc 0); [discriminate H |].
  destruct (Rle_dec Pb 0); [discriminate H |].
  destruct (Rle_dec Pr 0); [discriminate H |].
  destruct (Rgt_dec Pb Pr); [| discriminate H].
  destruct (Rgt_dec Pr Pc); [| discriminate H].
  cbn [negb] in H. cbv zeta in H |- *.
  split; [lra |]. split; [lra |]. split; [lra |].
  apply bindL_ok in H. destruct H as (st1 & log1 & H1 & H).
  apply bindL_ok in H. destruct H as (st2 & log2 & H2 & H).
  apply bindL_ok in H. destruct H as (st3 & log3 & H3 & H).
  apply bindL_ok in H. destruct H as (st4 & log4 & H4 & H).
  apply bindL_ok in H. destruct H as (st5 & log5 & H5 & H).
  apply bindL_ok in H. destruct H as (st6 & log6 & H6 & H).
  apply bindL_ok in H. destruct H as (eta & log7 & H7 & H).
  apply bindL_ok in H. destruct H as (dome' & log8 & H8 & H).
  unfold retL in H. injection H as <- <- <- <-.
  unfold liftL in H7. injection H7 as H7 <-.
  apply fdiv_inv in H7. destruct H7 as [Hq ->].
  apply IAPWS97_ok in H1. destruct H1 as [H1 ->].
  apply IAPWS97_ok in H2. destruct H2 as [H2 ->].
  apply IAPWS97_ok in H3. destruct H3 as [H3 ->].
  apply IAPWS97_ok in H4. destruct H4 as [H4 ->].
  apply IAPWS97_ok in H5. destruct H5 as [H5 ->].
  apply IAPWS97_ok in H6. destruct H6 as [H6 ->].
  exists st1, st2, st3, st4, st5, st6.
  repeat (split; [first [assumption | reflexivity] |]).
  cbn [app] in H8. exact H8.
Qed.

Lemma rankine_reheat_ideal_returns prov Pc Pb Pr T3_C T5_C st1 st3 st4 st5 :
  0 < Pc -> Pc < Pr -> Pr < Pb ->
  (forall q, exists st, prov q = Ok st) ->
  prov (iapws.P_x (Pc / 1000) 0) = Ok st1 ->
  prov (iapws.P_T (Pb / 1000) (T3_C + 273.15)) = Ok st3 ->
  prov (iapws.P_s (Pr / 1000) (iapws.s st3)) = Ok st4 ->
  prov (iapws.P_T (Pr / 1000) (T5_C + 273.15)) = Ok st5 ->
  iapws.h st3 - (iapws.h st1 + iapws.v st1 * (Pb - Pc))
  + (iapws.h st5 - iapws.h st4) <> 0 ->
  exists states metrics dome log,
    run (rankine_reheat_ideal prov Pc Pb Pr T3_C T5_C)
    = (Ok (states, metrics, dome), log).
Proof.
  intros H0 H1 H2 Htot E1 E3 E4 E5 Hq. unfold run, rankine_reheat_ideal.
  destruct (Rle_dec Pc 0); [lra |]. destruct (Rle_dec Pb 0); [lra |].
  destruct (Rle_dec Pr 0); [lra |].
  destruct (Rgt_dec Pb Pr); [| lra]. destruct (Rgt_dec Pr Pc); [| lra].
  cbn [negb]. cbv zeta.
  set (Ps := geomspace (Pc / 1000) (Pb / 1000) 90).
  unfold bindL at 1. unfold IAPWS97 at 1. rewrite E1.
  unfold bindL at 1. unfold IAPWS97 at 1.
  destruct (Htot (iapws.P_h (Pb / 1000) (iapws.h st1 + iapws.v st1 * (Pb - Pc))))
    as [st2 ->].
  unfold bindL at 1. unfold IAPWS97 at 1. rewrite E3.
  unfold bindL at 1. unfold IAPWS97 at 1. rewrite E4.
  unfold bindL at 1. unfold IAPWS97 at 1. rewrite E5.
  unfold bindL at 1. unfold IAPWS97 at 1.
  destruct (Htot (iapws.P_s (Pc / 1000) (iapws.s st5))) as [st6 ->].
  unfold bindL at 1. unfold liftL.
  rewrite fdiv_ok by exact Hq.
  unfold bindL.
  match goal with
  | |- context [dome_loop prov Ps ?a ?b ?c ?l] =>
      destruct (dome_loop_total prov Ps Htot a b c l) as (dome & log' & ->)
  end.
  unfold retL. eexists _, _, _, _. reflexivity.
Qed.

Lemma toy_reheat_runs :
  exists states metrics dome log,
    run (rankine_reheat_ideal toy_steam 10 8000 2000 450 450)
    = (Ok (states, metrics, dome), log).
Proof.
  eapply rankine_reheat_ideal_returns; try exact toy_steam_total; try reflexivity;
    try lra.
  cbn. lra.
Qed.

(** X19.  A returning Rankine run has made exactly 164 lookups, and a
    returning reheat run 186: the states in cycle order, each found from the
    pressure in MPa and the value computed from the state before it (the
    pump-model enthalpy for state 2, the entropy of the turbine inlet for
    the turbine exit), and then two lookups, saturated liquid and saturated
    vapour, for each of the 80 (reheat: 90) dome pressures. *)
Theorem rankine_lookups_are_made_in_cycle_order_then_along_the_dome :
  (forall prov Pc Pb T3_C states metrics dome log,
      run (rankine_ideal prov Pc Pb T3_C) = (Ok (states, metrics, dome), log) ->
      exists r1 r2 r3 r4,
        states = [r1; r2; r3; r4] /\
        log = [iapws.P_x (Pc / 1000) 0;
               iapws.P_h (Pb / 1000) (fluid_h_kJ_per_kg r2);
               match T3_C with
               | None => iapws.P_x (Pb / 1000) 1
               | Some t => iapws.P_T (Pb / 1000) (t + 273.15)
               end;
               iapws.P_s (Pc / 1000) (fluid_s_kJ_per_kgK r3)]
              ++ dome_queries (geomspace (Pc / 1000) (Pb / 1000) 80) /\
        length log = 164%nat) /\
  (forall prov Pc Pb Pr T3_C T5_C states metrics dome log,
      run (rankine_reheat_ideal prov Pc Pb Pr T3_C T5_C)
      = (Ok (states, metrics, dome), log) ->
      exists r1 r2 r3 r4 r5 r6,
        states = [r1; r2; r3; r4; r5; r6] /\
        log = [iapws.P_x (Pc / 1000) 0;
               iapws.P_h (Pb / 1000) (fluid_h_kJ_per_kg r2);
               iapws.P_T (Pb / 1000) (T3_C + 273.15);
               iapws.P_s (Pr / 1000) (fluid_s_kJ_per_kgK r3);
               iapws.P_T (Pr / 1000) (T5_C + 273.15);
               iapws.P_s (Pc / 1000) (fluid_s_kJ_per_kgK r5)]
              ++ dome_queries (geomspace (Pc / 1000) (Pb / 1000) 90) /\
        length log = 186%nat).
Proof.
  split.
  - intros prov Pc Pb T3_C states metrics dome log H.
    apply rankine_ideal_run in H. cbv zeta in H.
    destruct H as (_ & _ & st1 & st2 & st3 & st4 & _ & _ & _ & _ & _ & -> & _ & H).
    apply dome_loop_ok in H. destruct H as (fs & gs & _ & _ & _ & ->).
    do 4 eexists. split; [reflexivity |]. cbn [fluid_h_kJ_per_kg fluid_s_kJ_per_kgK].
    split; [reflexivity |].
    rewrite length_app, dome_queries_length, geomspace_length. reflexivity.
  - intros prov Pc Pb Pr T3_C T5_C states metrics dome log H.
    apply rankine_reheat_ideal_run in H. cbv zeta in H.
    destruct H as (_ & _ & _ & st1 & st2 & st3 & st4 & st5 & st6
                   & _ & _ & _ & _ & _ & _ & _ & -> & _ & H).
    apply dome_loop_ok in H. destruct H as (fs & gs & _ & _ & _ & ->).
    do 6 eexists. split; [reflexivity |]. cbn [fluid_h_kJ_per_kg fluid_s_kJ_per_kgK].
    split; [reflexivity |].
    rewrite length_app, dome_queries_length, geomspace_length. reflexivity.
Qed.

Lemma rankine_lookups_are_made_in_cycle_order_then_along_the_dome_witness :
  (exists states metrics dome log,
      run (rankine_ideal toy_steam 10 8000 None) = (Ok (states, metrics, dome), log) /\
      length log = 164%nat) /\
  (exists states metrics dome log,
      run (rankine_reheat_ideal toy_steam 10 8000 2000 450 450)
      = (Ok (states, metrics, dome), log) /\
      length log = 186%nat).
Proof.
  destruct rankine_lookups_are_made_in_cycle_order_then_along_the_dome as [HB HR].
  split.
  - destruct toy_rankine_runs as (states & metrics & dome & log & E).
    exists states, metrics, dome, log. split; [exact E |].
    destruct (HB _ _ _ _ _ _ _ _ E) as (r1 & r2 & r3 & r4 & _ & _ & Hlen).
    exact Hlen.
  - destruct toy_reheat_runs as (states & metrics & dome & log & E).
    exists states, metrics, dome, log. split; [exact E |].
    destruct (HR _ _ _ _ _ _ _ _ _ _ E) as (r1 & r2 & r3 & r4 & r5 & r6 & _ & _ & Hlen).
    exact Hlen.
Defined.

(** X20.  The dome table a Rankine run returns has one row for each of 80
    pressures (reheat: 90) that start at the condenser pressure and end at
    the boiler pressure, both in MPa; row [i] holds the temperature and the
    entropy of the saturated liquid and the entropy of the saturated vapour
    that the provider gives at pressure [i]. *)
Theorem dome_rows_are_the_saturation_states_between_condenser_and_boiler :
  (forall prov Pc Pb T3_C states metrics dome log,
      run (rankine_ideal prov Pc Pb T3_C) = (Ok (states, metrics, dome), log) ->
      exists Ps fs gs,
        Ps = geomspace (Pc / 1000) (Pb / 1000) 80 /\
        length Ps = 80%nat /\ hd 0 Ps = Pc / 1000 /\ last Ps 0 = Pb / 1000 /\
        answers prov (fun P => iapws.P_x P 0) Ps fs /\
        answers prov (fun P => iapws.P_x P 1) Ps gs /\
        dome = dome_of fs gs /\
        length (dome_T_K dome) = 80%nat /\ length (dome_s_f dome) = 80%nat /\
        length (dome_s_g dome) = 80%nat) /\
  (forall prov Pc Pb Pr T3_C T5_C states metrics dome log,
      run (rankine_reheat_ideal prov Pc Pb Pr T3_C T5_C)
      = (Ok (states, metrics, dome), log) ->
      exists Ps fs gs,
        Ps = geomspace (Pc / 1000) (Pb / 1000) 90 /\
        length Ps = 90%nat /\ hd 0 Ps = Pc / 1000 /\ last Ps 0 = Pb / 1000 /\
        answers prov (fun P => iapws.P_x P 0) Ps fs /\
        answers prov (fun P => iapws.P_x P 1) Ps gs /\
        dome = dome_of fs gs /\
        length (dome_T_K dome) = 90%nat /\ length (dome_s_f dome) = 90%nat /\
        length (dome_s_g dome) = 90%nat).
Proof.
  split.
  - intros prov Pc Pb T3_C states metrics dome log H.
    apply rankine_ideal_run in H. cbv zeta in H.
    destruct H as (_ & _ & st1 & st2 & st3 & st4 & _ & _ & _ & _ & _ & _ & _ & H).
    apply dome_loop_ok in H. destruct H as (fs & gs & Hfs & Hgs & -> & _).
    pose proof (geomspace_length (Pc / 1000) (Pb / 1000) 80) as Hlen.
    destruct (geomspace_ends (Pc / 1000) (Pb / 1000) 80) as [Hhd Hlast]; [lia |].
    pose proof (answers_length _ _ _ _ Hfs) as Lf.
    pose proof (answers_length _ _ _ _ Hgs) as Lg.
    exists (geomspace (Pc / 1000) (Pb / 1000) 80), fs, gs.
    split; [reflexivity |]. split; [exact Hlen |]. split; [exact Hhd |].
    split; [exact Hlast |]. split; [exact Hfs |]. split; [exact Hgs |].
    split; [reflexivity |].
    cbn [dome_T_K dome_s_f dome_s_g app]. rewrite !length_map. lia.
  - intros prov Pc Pb Pr T3_C T5_C states metrics dome log H.
    apply rankine_reheat_ideal_run in H. cbv zeta in H.
    destruct H as (_ & _ & _ & st1 & st2 & st3 & st4 & st5 & st6
                   & _ & _ & _ & _ & _ & _ & _ & _ & _ & H).
    apply dome_loop_ok in H. destruct H as (fs & gs & Hfs & Hgs & -> & _).
    pose proof (geomspace_length (Pc / 1000) (Pb / 1000) 90) as Hlen.
    destruct (geomspace_ends (Pc / 1000) (Pb / 1000) 90) as [Hhd Hlast]; [lia |].
    pose proof (answers_length _ _ _ _ Hfs) as Lf.
    pose proof (answers_length _ _ _ _ Hgs) as Lg.
    exists (geomspace (Pc / 1000) (Pb / 1000) 90), fs, gs.
    split; [reflexivity |]. split; [exact Hlen |]. split; [exact Hhd |].
    split; [exact Hlast |]. split; [exact Hfs |]. split; [exact Hgs |].
    split; [reflexivity |].
    cbn [dome_T_K dome_s_f dome_s_g app]. rewrite !length_map. lia.
Qed.

Lemma dome_rows_are_the_saturation_states_between_condenser_and_boiler_witness :
  exists states metrics dome log,
    run (rankine_ideal toy_steam 10 8000 None) = (Ok (states, metrics, dome), log) /\
    length (dome_T_K dome) = 80%nat /\
    Forall (fun T => T = 320) (dome_T_K dome).
Proof.
  destruct toy_rankine_runs as (states & metrics & dome & log & E).
  exists states, metrics, dome, log. split; [exact E |].
  destruct (proj1 dome_rows_are_the_saturation_states_between_condenser_and_boiler
              _ _ _ _ _ _ _ _ E)
    as (Ps & fs & gs & _ & _ & _ & _ & Hfs & _ & -> & HT & _).
  split; [exact HT |].
  cbn [dome_of dome_T_K]. clear HT E.
  induction Hfs as [| P f Ps fs Hf _ IH]; cbn [map]; constructor.
  - injection Hf as <-. reflexivity.
  - exact IH.
Defined.

(** X21.  A Rankine or reheat run that fails does so in one of three ways:
    at a guard, before any lookup; with a division error, when the heat
    added is zero, after the lookups of the cycle states and before those
    of the dome; or with the error of the provider, unchanged, and then the
    lookup that raised is the last one made. *)
Theorem rankine_failures_are_a_guard_a_zero_heat_or_the_providers_error :
  (forall prov Pc Pb T3_C e log,
      run (rankine_ideal prov Pc Pb T3_C) = (Err e, log) ->
      (log = [] /\ (Pc <= 0 \/ Pb <= 0) /\ e = ValueError "Pressures must be > 0") \/
      (log = [] /\ 0 < Pc /\ Pb <= Pc /\
       e = ValueError "Boiler pressure must be > condenser pressure") \/
      (0 < Pc < Pb /\ length log = 4%nat /\ e = ZeroDivisionError) \/
      (0 < Pc < Pb /\ exists q log0, log = log0 ++ [q] /\ prov q = Err e)) /\
  (forall prov Pc Pb Pr T3_C T5_C e log,
      run (rankine_reheat_ideal prov Pc Pb Pr T3_C T5_C) = (Err e, log) ->
      (log = [] /\ (Pc <= 0 \/ Pb <= 0 \/ Pr <= 0) /\
       e = ValueError "Pressures must be > 0") \/
      (log = [] /\ 0 < Pc /\ (Pb <= Pr \/ Pr <= Pc) /\
       e = ValueError "Need Pb > Pr > Pc") \/
      (0 < Pc < Pr /\ Pr < Pb /\ length log = 6%nat /\ e = ZeroDivisionError) \/
      (0 < Pc < Pr /\ Pr < Pb /\ exists q log0, log = log0 ++ [q] /\ prov q = Err e)).
Proof.
  split.
  - intros prov Pc Pb T3_C e log. unfold run, rankine_ideal. intro H.
    destruct (Rle_dec Pc 0) as [H0 | H0].
    { left. injection H as <- <-. auto. }
    destruct (Rle_dec Pb 0) as [H1 | H1].
    { left. injection H as <- <-. auto. }
    destruct (Rle_dec Pb Pc) as [H2 | H2].
    { right; left. injection H as <- <-. repeat split; [lra | exact H2]. }
    right; right. cbv zeta in H.
    replace (match T3_C with
             | None => IAPWS97 prov (iapws.P_x (Pb / 1000) 1)
             | Some t => IAPWS97 prov (iapws.P_T (Pb / 1000) (t + 273.15))
             end)
      with (IAPWS97 prov (match T3_C with
                          | None => iapws.P_x (Pb / 1000) 1
                          | Some t => iapws.P_T (Pb / 1000) (t + 273.15)
                          end)) in H by (destruct T3_C; reflexivity).
    apply bindL_err in H. destruct H as [H | (st1 & log1 & Hk1 & H)].
    { right. apply IAPWS97_err in H. destruct H as [H ->]. split; [lra | eauto]. }
    apply IAPWS97_ok in Hk1. destruct Hk1 as [_ ->].
    apply bindL_err in H. destruct H as [H | (st2 & log2 & Hk2 & H)].
    { right. apply IAPWS97_err in H. destruct H as [H ->]. split; [lra | eauto]. }
    apply IAPWS97_ok in Hk2. destruct Hk2 as [_ ->].
    apply bindL_err in H. destruct H as [H | (st3 & log3 & Hk3 & H)].
    { right. apply IAPWS97_err in H. destruct H as [H ->]. split; [lra | eauto]. }
    apply IAPWS97_ok in Hk3. destruct Hk3 as [_ ->].
    apply bindL_err in H. destruct H as [H | (st4 & log4 & Hk4 & H)].
    { right. apply IAPWS97_err in H. destruct H as [H ->]. split; [lra | eauto]. }
    apply IAPWS97_ok in Hk4. destruct Hk4 as [_ ->].
    apply bindL_err in H. destruct H as [H | (eta & log5 & Hk5 & H)].
    { left. unfold liftL in H. injection H as H <-.
      apply fdiv_err in H. destruct H as [-> _].
      split; [lra |]. split; reflexivity. }
    unfold liftL in Hk5. injection Hk5 as _ <-.
    apply bindL_err in H. destruct H as [H | (dome & log6 & _ & H)].
    { right. split; [lra |]. eapply dome_loop_err. exact H. }
    discriminate H.
  - intros prov Pc Pb Pr T3_C T5_C e log. unfold run, rankine_reheat_ideal. intro H.
    destruct (Rle_dec Pc 0) as [H0 | H0].
    { left. injection H as <- <-. auto. }
    destruct (Rle_dec Pb 0) as [H1 | H1].
    { left. injection H as <- <-. auto. }
    destruct (Rle_dec Pr 0) as [H2 | H2].
    { left. injection H as <- <-. auto. }
    destruct (Rgt_dec Pb Pr) as [H3 | H3].
    2:{ right; left. injection H as <- <-. repeat split; [lra | left; lra]. }
    destruct (Rgt_dec Pr Pc) as [H4 | H4].
    2:{ right; left. injection H as <- <-. repeat split; [lra | right; lra]. }
    right; right. cbn [negb] in H. cbv zeta in H.
    apply bindL_err in H. destruct H as [H | (st1 & log1 & Hk1 & H)].
    { right. apply IAPWS97_err in H. destruct H as [H ->]. repeat split; [lra.. | eauto]. }
    apply IAPWS97_ok in Hk1. destruct Hk1 as [_ ->].
    apply bindL_err in H. destruct H as [H | (st2 & log2 & Hk2 & H)].
    { right. apply IAPWS97_err in H. destruct H as [H ->]. repeat split; [lra.. | eauto]. }
    apply IAPWS97_ok in Hk2. destruct Hk2 as [_ ->].
    apply bindL_err in H. destruct H as [H | (st3 & log3 & Hk3 & H)].
    { right. apply IAPWS97_err in H. destruct H as [H ->]. repeat split; [lra.. | eauto]. }
    apply IAPWS97_ok in Hk3. destruct Hk3 as [_ ->].
    apply bindL_err in H. destruct H as [H | (st4 & log4 & Hk4 & H)].
    { right. apply IAPWS97_err in H. destruct H as [H ->]. repeat split; [lra.. | eauto]. }
    apply IAPWS97_ok in Hk4. destruct Hk4 as [_ ->].
    apply bindL_err in H. destruct H as [H | (st5 & log5 & Hk5 & H)].
    { right. apply IAPWS97_err in H. destruct H as [H ->]. repeat split; [lra.. | eauto]. }
    apply IAPWS97_ok in Hk5. destruct Hk5 as [_ ->].
    apply bindL_err in H. destruct H as [H | (st6 & log6 & Hk6 & H)].
    { right. apply IAPWS97_err in H. destruct H as [H ->]. repeat split; [lra.. | eauto]. }
    apply IAPWS97_ok in Hk6. destruct Hk6 as [_ ->].
    apply bindL_err in H. destruct H as [H | (eta & log7 & Hk7 & H)].
    { left. unfold liftL in H. injection H as H <-.
      apply fdiv_err in H. destruct H as [-> _].
      repeat split; lra. }
    unfold liftL in Hk7. injection Hk7 as _ <-.
    apply bindL_err in H. destruct H as [H | (dome & log8 & _ & H)].
    { right. repeat split; [lra.. |]. eapply dome_loop_err. exact H. }
    discriminate H.
Qed.

(** A provider that is down: the first lookup raises, and its error is what
    the solver raises. *)
Lemma rankine_failures_are_a_guard_a_zero_heat_or_the_providers_error_witness :
  run (rankine_ideal (fun _ => Err ProviderError) 10 8000 None)
  = (Err ProviderError, [iapws.P_x (10 / 1000) 0]) /\
  exists q log0,
    [iapws.P_x (10 / 1000) 0] = log0 ++ [q] /\
    (fun _ : iapws.query => @Err iapws.IAPWS97 ProviderError) q = Err ProviderError.
Proof.
  assert (E : run (rankine_ideal (fun _ => Err ProviderError) 10 8000 None)
              = (Err ProviderError, [iapws.P_x (10 / 1000) 0])).
  { unfold run, rankine_ideal.
    destruct (Rle_dec 10 0); [lra |]. destruct (Rle_dec 8000 0); [lra |].
    destruct (Rle_dec 8000 10); [lra |]. reflexivity. }
  split; [exact E |].
  destruct (proj1 rankine_failures_are_a_guard_a_zero_heat_or_the_providers_error
              _ _ _ _ _ _ E)
    as [(Hl & _) | [(Hl & _) | [(_ & _ & He) | (_ & Hq)]]].
  - discriminate Hl.
  - discriminate Hl.
  - discriminate He.
  - exact Hq.
Defined.

(** X22.  A returning reheat run closes the first law: the net work it
    reports is the total heat added, in the boiler and in the reheater,
    minus the heat [h6 - h1] rejected in the condenser; the efficiency
    times the total heat added is the net work; the reheat pressure lies
    strictly between the condenser and the boiler pressure; and the table
    lists the pressures condenser, boiler, boiler, reheat, reheat,
    condenser. *)
Theorem reheat_work_and_heat_close_the_first_law :
  forall prov Pc Pb Pr T3_C T5_C states metrics dome log,
    run (rankine_reheat_ideal prov Pc Pb Pr T3_C T5_C)
    = (Ok (states, metrics, dome), log) ->
    0 < Pc /\ Pc < Pr /\ Pr < Pb /\
    exists r1 r2 r3 r4 r5 r6,
      states = [r1; r2; r3; r4; r5; r6] /\
      map fluid_P_kPa states = [Pc; Pb; Pb; Pr; Pr; Pc] /\
      fluid_h_kJ_per_kg r2
      = fluid_h_kJ_per_kg r1 + fluid_v_m3_per_kg r1 * (Pb - Pc) /\
      reheat_wt_total_kJ_per_kg metrics
      = (fluid_h_kJ_per_kg r3 - fluid_h_kJ_per_kg r4)
        + (fluid_h_kJ_per_kg r5 - fluid_h_kJ_per_kg r6) /\
      reheat_Qin_total_kJ_per_kg metrics
      = (fluid_h_kJ_per_kg r3 - fluid_h_kJ_per_kg r2)
        + (fluid_h_kJ_per_kg r5 - fluid_h_kJ_per_kg r4) /\
      reheat_Wnet_kJ_per_kg metrics
      = reheat_Qin_total_kJ_per_kg metrics
        - (fluid_h_kJ_per_kg r6 - fluid_h_kJ_per_kg r1) /\
      reheat_Qin_total_kJ_per_kg metrics <> 0 /\
      reheat_eta_th metrics * reheat_Qin_total_kJ_per_kg metrics
      = reheat_Wnet_kJ_per_kg metrics.
Proof.
  intros prov Pc Pb Pr T3_C T5_C states metrics dome log H.
  apply rankine_reheat_ideal_run in H. cbv zeta in H.
  destruct H as (H0 & H1 & H2 & st1 & st2 & st3 & st4 & st5 & st6
                 & _ & _ & _ & _ & _ & _ & Hq & -> & -> & _).
  split; [exact H0 |]. split; [exact H1 |]. split; [exact H2 |].
  do 6 eexists. split; [reflexivity |]. cbn.
  split; [reflexivity |]. split; [reflexivity |].
  split; [reflexivity |]. split; [reflexivity |].
  split; [ring |]. split; [exact Hq |].
  field. exact Hq.
Qed.

Lemma reheat_work_and_heat_close_the_first_law_witness :
  exists states metrics dome log,
    run (rankine_reheat_ideal toy_steam 10 8000 2000 450 450)
    = (Ok (states, metrics, dome), log) /\
    reheat_eta_th metrics * reheat_Qin_total_kJ_per_kg metrics
    = reheat_Wnet_kJ_per_kg metrics.
Proof.
  destruct toy_reheat_runs as (states & metrics & dome & log & E).
  exists states, metrics, dome, log. split; [exact E |].
  destruct (reheat_work_and_heat_close_the_first_law _ _ _ _ _ _ _ _ _ _ E)
    as (_ & _ & _ & r1 & r2 & r3 & r4 & r5 & r6 & _ & _ & _ & _ & _ & _ & _ & Heta).
  exact Heta.
Defined.

(** ** The vapor-compression solver *)

(** Everything a returning vapor-compression run has looked up. *)
Lemma vcr_ideal_run cp fluid Tevap_C Tcond_C superheat_C subcool_C states metrics sat :
  vcr_ideal cp fluid Tevap_C Tcond_C superheat_C subcool_C = Ok (states, metrics, sat) ->
  let Te := Tevap_C + 273.15 in
  let Tc := Tcond_C + 273.15 in
  Te < Tc /\
  exists Pe Pc H1 S1 V1 H2 T2 S2 V2 H3 S3 V3 T4 S4 V4,
    PropsSI cp "P" "T" Te "Q" 1 fluid = Ok Pe /\
    PropsSI cp "P" "T" Tc "Q" 0 fluid = Ok Pc /\
    PropsSI cp "H" "P" Pe "T" (Te + superheat_C) fluid = Ok H1 /\
    PropsSI cp "S" "P" Pe "T" (Te + superheat_C) fluid = Ok S1 /\
    PropsSI cp "H" "P" Pc "S" S1 fluid = Ok H2 /\
    PropsSI cp "H" "P" Pc "T" (Tc - subcool_C) fluid = Ok H3 /\
    PropsSI cp "T" "P" Pe "H" H3 fluid = Ok T4 /\
    kJ (H2 - H1) <> 0 /\ Pe <> 0 /\
    states =
      [mk_fluid_row 1 (kPa Pe) (Te + superheat_C) (kJ H1) (kJk S1) V1
         (_try_quality cp fluid Pe H1);
       mk_fluid_row 2 (kPa Pc) T2 (kJ H2) (kJk S2) V2 (_try_quality cp fluid Pc H2);
       mk_fluid_row 3 (kPa Pc) (Tc - subcool_C) (kJ H3) (kJk S3) V3
         (_try_quality cp fluid Pc H3);
       mk_fluid_row 4 (kPa Pe) T4 (kJ H3) (kJk S4) V4 (_try_quality cp fluid Pe H3)] /\
    metrics =
      mk_vcr_metrics fluid (kPa Pe) (kPa Pc) (Pc / Pe) (kJ (H2 - H1)) (kJ (H1 - H3))
        (kJ (H2 - H3)) (kJ (H1 - H3) / kJ (H2 - H1)) (_try_quality cp fluid Pe H3).
Proof.
  unfold vcr_ideal. intro H. cbv zeta in H |- *.
  destruct (Rle_dec (Tcond_C + 273.15) (Tevap_C + 273.15)) as [| Hlt]; [discriminate H |].
  split; [lra |].
  apply bind_ok in H. destruct H as (Pe & EPe & H).
  apply bind_ok in H. destruct H as (Pc & EPc & H).
  apply bind_ok in H. destruct H as (H1 & EH1 & H).
  apply bind_ok in H. destruct H as (S1 & ES1 & H).
  apply bind_ok in H. destruct H as (V1 & EV1 & H).
  apply bind_ok in H. destruct H as (H2 & EH2 & H).
  apply bind_ok in H. destruct H as (T2 & ET2 & H).
  apply bind_ok in H. destruct H as (S2 & ES2 & H).
  apply bind_ok in H. destruct H as (V2 & EV2 & H).
  apply bind_ok in H. destruct H as (H3 & EH3 & H).
  apply bind_ok in H. destruct H as (S3 & ES3 & H).
  apply bind_ok in H. destruct H as (V3 & EV3 & H).
  apply bind_ok in H. destruct H as (T4 & ET4 & H).
  apply bind_ok in H. destruct H as (S4 & ES4 & H).
  apply bind_ok in H. destruct H as (V4 & EV4 & H).
  apply bind_ok in H. destruct H as (cop & Ecop & H).
  apply bind_ok in H. destruct H as (ratio & Eratio & H).
  apply bind_ok in H. destruct H as (sat' & Esat & H).
  apply fdiv_inv in Ecop. destruct Ecop as [Hw ->].
  apply fdiv_inv in Eratio. destruct Eratio as [HPe ->].
  injection H as <- <- <-.
  exists Pe, Pc, H1, S1, V1, H2, T2, S2, V2, H3, S3, V3, T4, S4, V4.
  repeat (split; [first [assumption | reflexivity] |]). reflexivity.
Qed.

(** X23.  A returning vapor-compression run closes the first law: the heat
    rejected in the condenser is the heat taken up in the evaporator plus
    the compressor work.  The expansion is a throttle, state 4 has the
    enthalpy of state 3; states 1 and 4 are at the evaporator pressure and
    states 2 and 3 at the condenser pressure; the compressor inlet is the
    superheat above the evaporating temperature and the condenser outlet
    the subcooling below the condensing temperature; the coefficient of
    performance times the compressor work is the refrigeration effect; and
    the reported quality at state 4 is the one in the table. *)
Theorem vcr_heats_and_work_close_the_first_law :
  forall cp fluid Tevap_C Tcond_C superheat_C subcool_C states metrics sat,
    vcr_ideal cp fluid Tevap_C Tcond_C superheat_C subcool_C
    = Ok (states, metrics, sat) ->
    exists r1 r2 r3 r4,
      states = [r1; r2; r3; r4] /\
      map fluid_P_kPa states
      = [vcr_Pe_kPa metrics; vcr_Pc_kPa metrics; vcr_Pc_kPa metrics; vcr_Pe_kPa metrics] /\
      fluid_T_K r1 = Tevap_C + 273.15 + superheat_C /\
      fluid_T_K r3 = Tcond_C + 273.15 - subcool_C /\
      fluid_h_kJ_per_kg r4 = fluid_h_kJ_per_kg r3 /\
      vcr_w_comp_kJ_per_kg metrics = fluid_h_kJ_per_kg r2 - fluid_h_kJ_per_kg r1 /\
      vcr_q_in_kJ_per_kg metrics = fluid_h_kJ_per_kg r1 - fluid_h_kJ_per_kg r4 /\
      vcr_q_out_kJ_per_kg metrics = fluid_h_kJ_per_kg r2 - fluid_h_kJ_per_kg r3 /\
      vcr_q_out_kJ_per_kg metrics
      = vcr_q_in_kJ_per_kg metrics + vcr_w_comp_kJ_per_kg metrics /\
      vcr_w_comp_kJ_per_kg metrics <> 0 /\
      vcr_COP_R metrics * vcr_w_comp_kJ_per_kg metrics = vcr_q_in_kJ_per_kg metrics /\
      vcr_Pe_kPa metrics <> 0 /\
      vcr_pressure_ratio metrics * vcr_Pe_kPa metrics = vcr_Pc_kPa metrics /\
      vcr_x4_quality metrics = x_quality r4.
Proof.
  intros cp fluid Tevap_C Tcond_C superheat_C subcool_C states metrics sat H.
  apply vcr_ideal_run in H. cbv zeta in H.
  destruct H as (_ & Pe & Pc & H1 & S1 & V1 & H2 & T2 & S2 & V2 & H3 & S3 & V3
                 & T4 & S4 & V4 & _ & _ & _ & _ & _ & _ & _ & Hw & HPe & -> & ->).
  do 4 eexists. split; [reflexivity |]. cbn.
  unfold kJ, kPa in *.
  repeat (split; [first [reflexivity | assumption | lra | (field; lra)] |]).
  reflexivity.
Qed.

Lemma vcr_heats_and_work_close_the_first_law_witness :
  exists states metrics sat,
    vcr_ideal (toy_refrigerant 273.15 283.15) "R134a" (-10) 40 5 5
    = Ok (states, metrics, sat) /\
    vcr_q_out_kJ_per_kg metrics
    = vcr_q_in_kJ_per_kg metrics + vcr_w_comp_kJ_per_kg metrics.
Proof.
  destruct toy_vcr_ideal_ok as (states & metrics & sat & E).
  exists states, metrics, sat. split; [exact E |].
  destruct (vcr_heats_and_work_close_the_first_law _ _ _ _ _ _ _ _ _ E)
    as (r1 & r2 & r3 & r4 & _ & _ & _ & _ & _ & _ & _ & _ & Hbal & _).
  exact Hbal.
Defined.

Lemma sat_step_part_way cp fluid acc T :
  fails_part_way cp fluid T ->
  length (Pline (sat_step cp fluid acc T)) = S (length (Pline acc)) /\
  sg (sat_step cp fluid acc T) = sg acc.
Proof.
  unfold fails_part_way, sat_properties, sat_step. intros [[P ->] HN].
  destruct (PropsSI cp "H" "T" T "Q" 0 fluid);
    [| cbn; rewrite length_app; cbn; split; [lia | reflexivity]].
  destruct (PropsSI cp "H" "T" T "Q" 1 fluid);
    [| cbn; rewrite length_app; cbn; split; [lia | reflexivity]].
  destruct (PropsSI cp "S" "T" T "Q" 0 fluid);
    [| cbn; rewrite length_app; cbn; split; [lia | reflexivity]].
  destruct (PropsSI cp "S" "T" T "Q" 1 fluid);
    [discriminate HN | cbn; rewrite length_app; cbn; split; [lia | reflexivity]].
Qed.

Lemma sat_fold_part_way cp fluid l T :
  In T l -> fails_part_way cp fluid T ->
  forall acc,
    (length (sg (fold_left (sat_step cp fluid) l acc)) + length (Pline acc)
     < length (Pline (fold_left (sat_step cp fluid) l acc)) + length (sg acc))%nat.
Proof.
  intros HIn HT. induction l as [| T' l IH]; [destruct HIn |].
  intro acc. cbn [fold_left].
  pose proof (sat_fold_mono cp fluid l (sat_step cp fluid acc T')) as Hm.
  destruct HIn as [-> | HIn].
  - destruct (sat_step_part_way cp fluid acc T HT) as [HP Hs].
    rewrite Hs, HP in Hm. lia.
  - pose proof (IH HIn (sat_step cp fluid acc T')).
    pose proof (sat_step_mono cp fluid acc T'). lia.
Qed.

Lemma sat_loop_part_way cp fluid l T :
  In T l -> fails_part_way cp fluid T ->
  (length (sg (sat_loop cp fluid l)) < length (Pline (sat_loop cp fluid l)))%nat.
Proof.
  intros HIn HT. unfold sat_loop.
  pose proof (sat_fold_part_way cp fluid l T HIn HT (mk_sat_lists [] [] [] [] [])) as Hlt.
  cbn [Pline sg length] in Hlt. lia.
Qed.

(** X24.  When at one of the 80 grid temperatures the saturation pressure is
    found and a later lookup of that temperature raises, the solver does not
    return, whatever the other lookups give: the pressure column has grown
    by one and the last column has not, and the final table cannot be
    built. *)
Theorem vcr_fails_when_a_grid_point_fails_part_way :
  forall cp fluid Tevap_C Tcond_C superheat_C subcool_C T,
    In T (linspace (Tevap_C + 273.15) (Tcond_C + 273.15) 80) ->
    fails_part_way cp fluid T ->
    exists e, vcr_ideal cp fluid Tevap_C Tcond_C superheat_C subcool_C = Err e.
Proof.
  intros cp fluid Tevap_C Tcond_C superheat_C subcool_C T HIn HT.
  destruct (vcr_ideal cp fluid Tevap_C Tcond_C superheat_C subcool_C)
    as [[[states metrics] sat] | e] eqn:E; [exfalso | exists e; reflexivity].
  apply vcr_ideal_inv in E. cbv zeta in E. destruct E as [_ E].
  pose proof (sat_loop_part_way cp fluid _ T HIn HT) as Hlt.
  set (Tline := linspace (Tevap_C + 273.15) (Tcond_C + 273.15) 80) in *.
  clearbody Tline.
  apply sat_DataFrame_inv in E.
  destruct E as (_ & HP & _ & _ & _ & Hs).
  lia.
Qed.

Lemma vcr_fails_when_a_grid_point_fails_part_way_witness :
  exists e, vcr_ideal toy_without_sg "R134a" (-10) 40 5 5 = Err e.
Proof.
  apply (vcr_fails_when_a_grid_point_fails_part_way toy_without_sg "R134a"
           (-10) 40 5 5 (-10 + 273.15)).
  - destruct (linspace_cons (-10 + 273.15) (40 + 273.15) 80) as [rest ->]; [lia |].
    left. reflexivity.
  - split.
    + eexists. reflexivity.
    + unfold sat_properties. cbn.
      destruct (Req_dec_T 0 1); [lra |]. destruct (Req_dec_T 1 1); [| lra].
      reflexivity.
Defined.

Lemma sat_loop_without_Q cp fluid l :
  sat_loop (without_Q cp) fluid l = sat_loop cp fluid l.
Proof. reflexivity. Qed.

(** X25.  No quality lookup can make the vapor-compression solver fail or
    change anything but the quality cells: with a library whose quality
    lookups all raise, the solver fails with the same error, or returns the
    same tables and metrics with the four quality cells and the reported
    quality of state 4 empty. *)
Theorem vcr_quality_lookups_only_fill_the_quality_cells :
  forall cp fluid Tevap_C Tcond_C superheat_C subcool_C,
    vcr_ideal (without_Q cp) fluid Tevap_C Tcond_C superheat_C subcool_C
    = match vcr_ideal cp fluid Tevap_C Tcond_C superheat_C subcool_C with
      | Ok (states, metrics, sat) =>
          Ok (map no_quality states, no_x4_quality metrics, sat)
      | Err e => Err e
      end.
Proof.
  intros cp fluid Tevap_C Tcond_C superheat_C subcool_C.
  unfold vcr_ideal. cbv zeta.
  destruct (Rle_dec (Tcond_C + 273.15) (Tevap_C + 273.15)); [reflexivity |].
  rewrite sat_loop_without_Q.
  set (Tline := linspace (Tevap_C + 273.15) (Tcond_C + 273.15) 80).
  clearbody Tline.
  change (PropsSI (without_Q cp)) with (PropsSI cp).
  repeat match goal with
         | |- context [bind (PropsSI cp ?a ?b ?c ?d ?e ?f) _] =>
             destruct (PropsSI cp a b c d e f) as [? | ?]; cbn [bind]; [| reflexivity]
         end.
  repeat match goal with
         | |- context [bind (fdiv ?a ?b) _] =>
             destruct (fdiv a b) as [? | ?]; cbn [bind]; [| reflexivity]
         end.
  match goal with
  | |- context [bind (sat_DataFrame ?a ?b ?c ?d ?e ?f) _] =>
      destruct (sat_DataFrame a b c d e f) as [? | ?]; cbn [bind]; [| reflexivity]
  end.
  reflexivity.
Qed.

Lemma bind_err {A B : Type} (m : result A) (k : A -> result B) (e : error) :
  bind m k = Err e -> m = Err e \/ exists a, m = Ok a /\ k a = Err e.
Proof.
  destruct m as [a | e']; cbn; intro H.
  - right. exists a. split; [reflexivity | exact H].
  - left. injection H as <-. reflexivity.
Qed.

Lemma sat_DataFrame_err T_K P h_f h_g s_f s_g e :
  sat_DataFrame T_K P h_f h_g s_f s_g = Err e ->
  e = ValueError "All arrays must be of the same length".
Proof.
  unfold sat_DataFrame. destruct (_ && _)%bool; intro H; [discriminate H |].
  now injection H.
Qed.

(** X26.  A vapor-compression run that fails does so in one of four ways:
    at the guard on the two temperatures; with a division error, when the
    compressor work or the evaporator pressure is zero; with the error of a
    property lookup, unchanged; or, when the saturation lists have come out
    with different lengths, with the error of the table constructor. *)
Theorem vcr_failures_are_a_guard_a_division_a_lookup_or_the_table :
  forall cp fluid Tevap_C Tcond_C superheat_C subcool_C e,
    vcr_ideal cp fluid Tevap_C Tcond_C superheat_C subcool_C = Err e ->
    (Tcond_C + 273.15 <= Tevap_C + 273.15 /\ e = ValueError "Tcond must be > Tevap") \/
    (Tevap_C + 273.15 < Tcond_C + 273.15 /\
     (e = ZeroDivisionError \/
      e = ValueError "All arrays must be of the same length" \/
      exists out n1 v1 n2 v2, PropsSI cp out n1 v1 n2 v2 fluid = Err e)).
Proof.
  intros cp fluid Tevap_C Tcond_C superheat_C subcool_C e.
  unfold vcr_ideal. cbv zeta. intro H.
  destruct (Rle_dec (Tcond_C + 273.15) (Tevap_C + 273.15)) as [Hle | Hlt].
  { left. injection H as <-. split; [exact Hle | reflexivity]. }
  right. split; [lra |].
  set (Tline := linspace (Tevap_C + 273.15) (Tcond_C + 273.15) 80) in H.
  clearbody Tline.
  repeat match type of H with
         | bind (PropsSI cp ?a ?b ?c ?d ?f ?g) _ = Err _ =>
             apply bind_err in H; destruct H as [H | (? & _ & H)];
             [right; right; exists a, b, c, d, f; exact H |]
         end.
  apply bind_err in H. destruct H as [H | (? & _ & H)].
  { left. apply fdiv_err in H. tauto. }
  apply bind_err in H. destruct H as [H | (? & _ & H)].
  { left. apply fdiv_err in H. tauto. }
  apply bind_err in H. destruct H as [H | (? & _ & H)].
  { right; left. eapply sat_DataFrame_err. exact H. }
  discriminate H.
Qed.

Lemma vcr_failures_are_a_guard_a_division_a_lookup_or_the_table_witness :
  vcr_ideal coolprop_down "R134a" (-10) 40 5 5 = Err ProviderError /\
  (ProviderError = ZeroDivisionError \/
   ProviderError = ValueError "All arrays must be of the same length" \/
   exists out n1 v1 n2 v2,
     PropsSI coolprop_down out n1 v1 n2 v2 "R134a" = Err ProviderError).
Proof.
  assert (E : vcr_ideal coolprop_down "R134a" (-10) 40 5 5 = Err ProviderError).
  { unfold vcr_ideal. cbv zeta.
    destruct (Rle_dec (40 + 273.15) (-10 + 273.15)); [lra | reflexivity]. }
  split; [exact E |].
  destruct (vcr_failures_are_a_guard_a_division_a_lookup_or_the_table _ _ _ _ _ _ _ E)
    as [[Hle _] | [_ Hc]]; [lra | exact Hc].
Defined.

(** ** The pages: solver and sampler composed *)

Lemma linspace_ends (a b : R) (m : nat) :
  exists mid, length mid = m /\ linspace a b (S (S m)) = a :: mid ++ [b].
Proof.
  unfold linspace. rewrite <- cons_seq. cbn [map app].
  exists (map (fun i => a + INR i * ((b - a) / INR (S m))) (seq 1 m)).
  split; [now rewrite length_map, length_seq |].
  replace (a + INR 0 * ((b - a) / INR (S m))) with a by (cbn [INR]; ring).
  reflexivity.
Qed.

Lemma map_linspace_ends {A : Type} (f : R -> A) (a b : R) (m : nat) :
  exists mid, length mid = m /\
              map f (linspace a b (S (S m))) = f a :: mid ++ [f b].
Proof.
  destruct (linspace_ends a b m) as (mid & Hlen & ->).
  exists (map f mid). split; [now rewrite length_map |].
  cbn [map]. now rewrite map_app.
Qed.

Lemma zip4_app (P1 v1 T1 s1 P2 v2 T2 s2 : list R) :
  length v1 = length P1 -> length T1 = length P1 -> length s1 = length P1 ->
  zip4 (P1 ++ P2) (v1 ++ v2) (T1 ++ T2) (s1 ++ s2)
  = zip4 P1 v1 T1 s1 ++ zip4 P2 v2 T2 s2.
Proof.
  revert v1 T1 s1. induction P1 as [| p P1 IH]; intros [| x v1] [| t T1] [| e s1];
    cbn [length]; intros Hv HT Hs; try discriminate.
  - reflexivity.
  - cbn [app zip4]. f_equal. apply IH; congruence.
Qed.

Lemma zip4_tl (P v T s : list R) :
  zip4 (tl P) (tl v) (tl T) (tl s) = tl (zip4 P v T s).
Proof.
  destruct P as [| p P]; cbn; [reflexivity |].
  destruct v as [| x v]; cbn; [now destruct P |].
  destruct T as [| t T]; cbn; [now destruct P, v |].
  destruct s as [| e s]; cbn; [now destruct P, v, T | reflexivity].
Qed.

Lemma path_samples_iloc_from_1 (seg : path_df) :
  path_samples (iloc_from_1 seg) = tl (path_samples seg).
Proof. unfold path_samples, iloc_from_1. cbn. apply zip4_tl. Qed.

Lemma has_rows_iloc_from_1 (seg : path_df) (n : nat) :
  has_rows seg n -> has_rows (iloc_from_1 seg) (n - 1).
Proof.
  unfold has_rows, iloc_from_1. cbn. rewrite !length_tl.
  intros (-> & -> & -> & ->). repeat split.
Qed.

Lemma path_samples_concat (segs : list path_df) :
  Forall (fun seg => exists n, has_rows seg n) segs ->
  path_samples
    (mk_path_df (concat (map P_kPa segs)) (concat (map v_m3_per_kg segs))
       (concat (map T_K segs)) (concat (map s_kJ_per_kgK segs)))
  = concat (map path_samples segs).
Proof.
  induction 1 as [| seg segs (n & HP & Hv & HT & Hs) _ IH]; [reflexivity |].
  unfold path_samples in *. cbn in *.
  rewrite zip4_app by congruence. now rewrite IH.
Qed.

(** The samples of an isentropic and of a constant-volume leg: the first one,
    the last one, and 88 and 68 in between. *)
Lemma isen_leg_samples states scol gamma Rgas i j seg a b :
  leg_segment states scol gamma Rgas ("isen"%string, i, j) = Ok seg ->
  row states i = Ok a -> row states j = Ok b ->
  has_rows seg 90 /\
  exists mid,
    length mid = 88%nat /\
    path_samples seg
    = isen_point a (entropy_anchor scol a) gamma (cell_v_m3_per_kg a)
        :: mid ++ [isen_point a (entropy_anchor scol a) gamma (cell_v_m3_per_kg b)].
Proof.
  intros H Ha Hb. unfold leg_segment in H. rewrite Ha, Hb in H. cbn [bind] in H.
  change (("isen" =? "isen")%string) with true in H. cbv iota in H.
  injection H as <-. split; [count_rows |].
  rewrite path_isentropic_samples.
  apply (map_linspace_ends
           (fun v => (cell_P_kPa a * fpow (cell_v_m3_per_kg a) gamma / fpow v gamma, v,
                      cell_T_K a * fpow (cell_v_m3_per_kg a / v) (gamma - 1),
                      entropy_anchor scol a))).
Qed.

Lemma cv_leg_samples states scol gamma Rgas i j seg a b :
  leg_segment states scol gamma Rgas ("cv"%string, i, j) = Ok seg ->
  row states i = Ok a -> row states j = Ok b ->
  has_rows seg 70 /\
  exists mid,
    length mid = 68%nat /\
    path_samples seg
    = cv_point a (entropy_anchor scol a) gamma Rgas (cell_T_K a)
        :: mid ++ [cv_point a (entropy_anchor scol a) gamma Rgas (cell_T_K b)].
Proof.
  intros H Ha Hb. unfold leg_segment in H. rewrite Ha, Hb in H. cbn [bind] in H.
  change (("cv" =? "isen")%string) with false in H.
  change (("cv" =? "cv")%string) with true in H. cbv iota in H.
  pose proof (path_const_v_samples _ _ _ _ _ _ _ _ H) as Hs.
  apply path_const_v_ideal_inv in H. destruct H as [_ ->].
  split; [count_rows |].
  rewrite Hs.
  apply (map_linspace_ends
           (fun t => (Rgas * t / cell_v_m3_per_kg a, cell_v_m3_per_kg a, t,
                      entropy_anchor scol a
                      + Rgas / (gamma - 1) * ln (t / cell_T_K a)))).
Qed.

(** The path a page samples: it starts at state 1 as the first leg computes
    it, and each of the four legs contributes its last sample and the
    samples strictly inside it. *)
Lemma page_path_shape states gamma Rgas p a1 a2 a3 a4 :
  row states 1 = Ok a1 -> row states 2 = Ok a2 ->
  row states 3 = Ok a3 -> row states 4 = Ok a4 ->
  smooth_path_ideal states page_legs gamma Rgas = Ok p ->
  let anchor := entropy_anchor (choose_scol states) in
  exists m1 m2 m3 m4,
    length m1 = 88%nat /\ length m2 = 68%nat /\
    length m3 = 88%nat /\ length m4 = 68%nat /\
    path_samples (samples p)
    = isen_point a1 (anchor a1) gamma (cell_v_m3_per_kg a1)
        :: m1 ++ isen_point a1 (anchor a1) gamma (cell_v_m3_per_kg a2)
        :: m2 ++ cv_point a2 (anchor a2) gamma Rgas (cell_T_K a3)
        :: m3 ++ isen_point a3 (anchor a3) gamma (cell_v_m3_per_kg a4)
        :: m4 ++ [cv_point a4 (anchor a4) gamma Rgas (cell_T_K a1)].
Proof.
  intros H1 H2 H3 H4 H anchor.
  apply smooth_path_ideal_inv in H. destruct H as (segs & _ & Hsegs & ->).
  unfold page_legs in Hsegs.
  inversion Hsegs as [| l1 s1 ? ? L1 Hsegs1]; subst; clear Hsegs.
  inversion Hsegs1 as [| l2 s2 ? ? L2 Hsegs2]; subst; clear Hsegs1.
  inversion Hsegs2 as [| l3 s3 ? ? L3 Hsegs3]; subst; clear Hsegs2.
  inversion Hsegs3 as [| l4 s4 ? ? L4 Hsegs4]; subst; clear Hsegs3.
  inversion Hsegs4; subst; clear Hsegs4.
  destruct (isen_leg_samples _ _ _ _ _ _ _ _ _ L1 H1 H2) as (R1 & m1 & Hm1 & E1).
  destruct (cv_leg_samples _ _ _ _ _ _ _ _ _ L2 H2 H3) as (R2 & m2 & Hm2 & E2).
  destruct (isen_leg_samples _ _ _ _ _ _ _ _ _ L3 H3 H4) as (R3 & m3 & Hm3 & E3).
  destruct (cv_leg_samples _ _ _ _ _ _ _ _ _ L4 H4 H1) as (R4 & m4 & Hm4 & E4).
  exists m1, m2, m3, m4. repeat (split; [assumption |]).
  rewrite path_samples_concat.
  2:{ cbn [deduplicated map].
      repeat constructor; eexists;
        first [eassumption | apply has_rows_iloc_from_1; eassumption]. }
  cbn [deduplicated map concat].
  rewrite !path_samples_iloc_from_1, E1, E2, E3, E4. cbn [tl].
  rewrite app_nil_r. cbn [app]. rewrite <- !app_assoc. reflexivity.
Qed.

Lemma page_path_exists states gamma Rgas a1 a2 a3 a4 :
  row states 1 = Ok a1 -> row states 2 = Ok a2 ->
  row states 3 = Ok a3 -> row states 4 = Ok a4 ->
  gamma <> 1 ->
  exists p, smooth_path_ideal states page_legs gamma Rgas = Ok p.
Proof.
  intros H1 H2 H3 H4 Hg.
  destruct (segments_exist states (choose_scol states) gamma Rgas page_legs)
    as [segs Hsegs].
  { unfold page_legs, samplable, resolves.
    repeat constructor; cbn [leg_start leg_end leg_kind fst snd]; eauto; contradiction. }
  eexists. apply smooth_path_ideal_complete; [discriminate | exact Hsegs].
Qed.

Lemma page_inv {M : Type} (solver : result (states_df * M)) states metrics path
    gamma :
  (' (states, metrics) <- solver ;;
   path <- smooth_path_ideal states page_legs gamma 0.287 ;;
   Ok (states, metrics, path)) = Ok (states, metrics, path) ->
  solver = Ok (states, metrics) /\
  smooth_path_ideal states page_legs gamma 0.287 = Ok path.
Proof.
  intro H. apply bind_ok in H. destruct H as ([st m] & Hs & H).
  apply bind_ok in H. destruct H as (p & Hp & H).
  injection H as <- <- <-. split; assumption.
Qed.

Lemma path_entropy_column_rel rws legs gamma Rgas p :
  smooth_path_ideal (mk_states_df false true rws) legs gamma Rgas = Ok p ->
  entropy_column p = "s_rel_kJ_per_kgK"%string.
Proof.
  unfold smooth_path_ideal. intro H.
  apply bind_ok in H. destruct H as (out & _ & H).
  apply bind_ok in H. destruct H as (df & _ & H).
  cbn in H. injection H as <-. reflexivity.
Qed.

Lemma heat_rejection_closes_the_entropy (c T1 T3 F : R) :
  0 < T1 -> 0 < T3 -> 0 < F ->
  0 + c * ln (T3 / (T1 * F)) + c * ln (T1 / (T3 / F)) = 0.
Proof.
  intros H1 H3 HF.
  assert (Ha : 0 < T3 / (T1 * F)) by (apply Rdiv_lt_0_compat; nra).
  assert (Hb : 0 < T1 / (T3 / F)).
  { apply Rdiv_lt_0_compat; [lra |]. apply Rdiv_lt_0_compat; lra. }
  replace (0 + c * ln (T3 / (T1 * F)) + c * ln (T1 / (T3 / F)))
    with (c * (ln (T3 / (T1 * F)) + ln (T1 / (T3 / F)))) by ring.
  rewrite <- ln_mult by assumption.
  replace (T3 / (T1 * F) * (T1 / (T3 / F))) with 1 by (field; repeat split; lra).
  rewrite ln_1. ring.
Qed.

(** X27.  On the Otto page the sampled path is a closed loop through the
    table: for a positive inlet state its 317 samples start at state 1, the
    last sample of each leg is the next state of the table in all four
    columns, pressure, volume, temperature and relative entropy, and the
    last sample of all is state 1 again. *)
Theorem otto_page_path_runs_through_the_table_and_closes :
  forall P1 T1 r T3 gamma states metrics path,
    0 < P1 -> 0 < T1 ->
    otto_page P1 T1 r T3 gamma = Ok (states, metrics, path) ->
    exists a1 a2 a3 a4 m1 m2 m3 m4,
      rows states = [a1; a2; a3; a4] /\
      length m1 = 88%nat /\ length m2 = 68%nat /\
      length m3 = 88%nat /\ length m4 = 68%nat /\
      path_samples (samples path)
      = state_point a1 :: m1 ++ state_point a2 :: m2 ++ state_point a3
          :: m3 ++ state_point a4 :: m4 ++ [state_point a1] /\
      entropy_column path = "s_rel_kJ_per_kgK"%string.
Proof.
  intros P1 T1 r T3 gamma states metrics path HP1 HT1 H.
  unfold otto_page in H. apply page_inv in H. destruct H as [Hs Hp].
  apply otto_cycle_inv in Hs. cbv zeta in Hs.
  destruct Hs as (Hr & HT & Hg & _ & _ & _ & _ & -> & _).
  pose proof (path_entropy_column_rel _ _ _ _ _ Hp) as Hcol.
  eapply page_path_shape in Hp; try reflexivity. cbv zeta in Hp.
  destruct Hp as (m1 & m2 & m3 & m4 & L1 & L2 & L3 & L4 & E).
  do 4 eexists. exists m1, m2, m3, m4.
  split; [reflexivity |]. repeat (split; [assumption |]).
  split; [| exact Hcol].
  rewrite E. clear E.
  pose proof (fpow_pos r (gamma - 1)) as HF.
  pose proof (fpow_pos r gamma) as HG.
  assert (Hv1 : 0 < 0.287 * T1 / P1) by (apply Rdiv_lt_0_compat; nra).
  set (v1 := 0.287 * T1 / P1) in *.
  pose proof (fpow_pos v1 gamma) as HV.
  assert (E1 : fpow (v1 / v1) (gamma - 1) = 1).
  { replace (v1 / v1) with 1 by (field; lra). apply fpow_1_l. }
  assert (E2 : fpow (v1 / r) gamma = fpow v1 gamma / fpow r gamma)
    by (apply fpow_div; lra).
  assert (E3 : fpow (v1 / (v1 / r)) (gamma - 1) = fpow r (gamma - 1)).
  { f_equal. field. lra. }
  assert (E4 : fpow (v1 / r / v1) (gamma - 1) = / fpow r (gamma - 1)).
  { replace (v1 / r / v1) with (1 / r) by (field; lra). apply fpow_recip. lra. }
  unfold isen_point, cv_point, state_point, rel_row, entropy_anchor, choose_scol,
    entropy_cell.
  cbn [cell_P_kPa cell_v_m3_per_kg cell_T_K cell_s_rel has_s_kJ_per_kgK
       has_s_rel_kJ_per_kgK].
  change (("s_rel_kJ_per_kgK" =? "s_kJ_per_kgK")%string) with false. cbv iota.
  rewrite E1, E2, E3, E4.
  rewrite (heat_rejection_closes_the_entropy _ T1 T3 (fpow r (gamma - 1)))
    by lra.
  set (F := fpow r (gamma - 1)) in *. set (G := fpow r gamma) in *.
  set (W := fpow v1 gamma) in *.
  repeat (f_equal; try (field; lra)).
  unfold v1. field. lra.
Qed.

Lemma otto_page_returns P1 T1 r T3 gamma :
  0 < P1 -> 0 < T1 -> 1 < r -> 1 < gamma -> T1 * fpow r (gamma - 1) < T3 ->
  exists states metrics path, otto_page P1 T1 r T3 gamma = Ok (states, metrics, path).
Proof.
  intros HP HT Hr Hg HT3.
  pose proof (fpow_gt_1 r (gamma - 1) Hr ltac:(lra)) as HF.
  destruct (otto_cycle_ok T1 P1 r T3 gamma 0.287) as (st & m & E); try lra; try nra.
  unfold otto_page. rewrite E. cbn [bind].
  pose proof E as E'. apply otto_cycle_inv in E'. cbv zeta in E'.
  destruct E' as (_ & _ & _ & _ & _ & _ & _ & -> & _).
  match goal with
  | |- context [smooth_path_ideal ?st page_legs _ _] =>
      assert (Hp : exists p, smooth_path_ideal st page_legs gamma 0.287 = Ok p)
        by (eapply page_path_exists; first [reflexivity | lra])
  end.
  destruct Hp as [p ->].
  eexists _, _, _. reflexivity.
Qed.

Lemma otto_page_path_runs_through_the_table_and_closes_witness :
  exists states metrics path a1 rest,
    otto_page 100 300 8 1800 1.4 = Ok (states, metrics, path) /\
    rows states = a1 :: rest /\
    hd_error (path_samples (samples path)) = Some (state_point a1) /\
    last (path_samples (samples path)) (0, 0, 0, 0) = state_point a1.
Proof.
  destruct (otto_page_returns 100 300 8 1800 1.4) as (states & metrics & path & E);
    try lra.
  { pose proof fpow_8_04_lt_3. lra. }
  destruct (otto_page_path_runs_through_the_table_and_closes
              100 300 8 1800 1.4 states metrics path ltac:(lra) ltac:(lra) E)
    as (a1 & a2 & a3 & a4 & m1 & m2 & m3 & m4 & Hrows & _ & _ & _ & _ & Hp & _).
  exists states, metrics, path, a1, [a2; a3; a4].
  split; [exact E |]. split; [exact Hrows |]. rewrite Hp. split; [reflexivity |].
  rewrite !app_comm_cons, !app_assoc. apply last_last.
Defined.

(** X28.  On the Diesel page the sampled path is closed and passes through
    states 1, 2 and 4 of the table, but not through state 3: the heat
    addition, which the table has at constant pressure from [v2] to
    [rc * v2], is sampled at constant volume, so the second leg ends at the
    volume of state 2 and at [rc] times its pressure, with the entropy rise
    of a constant-volume process. *)
Theorem diesel_page_path_closes_but_misses_state_3 :
  forall P1 T1 r rc gamma states metrics path,
    0 < P1 -> 0 < T1 ->
    diesel_page P1 T1 r rc gamma = Ok (states, metrics, path) ->
    exists a1 a2 a3 a4 m1 m2 m3 m4 q,
      rows states = [a1; a2; a3; a4] /\
      length m1 = 88%nat /\ length m2 = 68%nat /\
      length m3 = 88%nat /\ length m4 = 68%nat /\
      path_samples (samples path)
      = state_point a1 :: m1 ++ state_point a2 :: m2 ++ q
          :: m3 ++ state_point a4 :: m4 ++ [state_point a1] /\
      q = (rc * cell_P_kPa a2, cell_v_m3_per_kg a2, cell_T_K a3,
           0.287 / (gamma - 1) * ln rc) /\
      state_point a3
      = (cell_P_kPa a2, rc * cell_v_m3_per_kg a2, cell_T_K a3,
         gamma * (0.287 / (gamma - 1)) * ln rc) /\
      q <> state_point a3.
Proof.
  intros P1 T1 r rc gamma states metrics path HP1 HT1 H.
  unfold diesel_page in H. apply page_inv in H. destruct H as [Hs Hp].
  apply diesel_cycle_inv in Hs. cbv zeta in Hs.
  destruct Hs as (Hr & Hc & Hg & _ & _ & _ & _ & -> & _).
  eapply page_path_shape in Hp; try reflexivity. cbv zeta in Hp.
  destruct Hp as (m1 & m2 & m3 & m4 & L1 & L2 & L3 & L4 & E).
  do 4 eexists. exists m1, m2, m3, m4. eexists.
  split; [reflexivity |]. repeat (split; [assumption |]).
  rewrite E. clear E.
  pose proof (fpow_pos r (gamma - 1)) as HF.
  pose proof (fpow_pos r gamma) as HG.
  pose proof (fpow_pos rc gamma) as HC.
  assert (HGF : fpow r gamma = r * fpow r (gamma - 1)) by (apply fpow_succ; lra).
  destruct (expansion_to_v1 r rc gamma Hr Hc) as [HT4 _].
  assert (Hv1 : 0 < 0.287 * T1 / P1) by (apply Rdiv_lt_0_compat; nra).
  set (v1 := 0.287 * T1 / P1) in *.
  pose proof (fpow_pos v1 gamma) as HV.
  assert (Hv3 : 0 < rc * (v1 / r)).
  { apply Rmult_lt_0_compat; [lra |]. apply Rdiv_lt_0_compat; lra. }
  assert (E1 : fpow (v1 / v1) (gamma - 1) = 1).
  { replace (v1 / v1) with 1 by (field; lra). apply fpow_1_l. }
  assert (E2 : fpow (v1 / r) gamma = fpow v1 gamma / fpow r gamma)
    by (apply fpow_div; lra).
  assert (E3 : fpow (v1 / (v1 / r)) (gamma - 1) = fpow r (gamma - 1)).
  { f_equal. field. lra. }
  assert (E4 : fpow (rc * (v1 / r) / v1) gamma
               = fpow (rc * (v1 / r)) gamma / fpow v1 gamma)
    by (apply fpow_div; lra).
  assert (E5 : T1 * fpow r (gamma - 1) * rc * fpow (rc * (v1 / r) / v1) (gamma - 1)
               = T1 * fpow rc gamma).
  { rewrite scale_cancels by lra. rewrite <- HT4. ring. }
  assert (E6 : ln (T1 * fpow r (gamma - 1) * rc / (T1 * fpow r (gamma - 1))) = ln rc).
  { f_equal. field. lra. }
  assert (E7 : ln (T1 / (T1 * fpow rc gamma)) = - (gamma * ln rc)).
  { replace (T1 / (T1 * fpow rc gamma)) with (/ fpow rc gamma) by (field; lra).
    rewrite ln_Rinv by exact HC. now rewrite ln_fpow. }
  unfold isen_point, cv_point, state_point, rel_row, entropy_anchor, choose_scol,
    entropy_cell.
  cbn [cell_P_kPa cell_v_m3_per_kg cell_T_K cell_s_rel has_s_kJ_per_kgK
       has_s_rel_kJ_per_kgK].
  change (("s_rel_kJ_per_kgK" =? "s_kJ_per_kgK")%string) with false. cbv iota.
  rewrite E1, E2, E3, E4, E5, E6, E7, HGF.
  set (F := fpow r (gamma - 1)) in *.
  set (W := fpow v1 gamma) in *.
  set (K := fpow (rc * (v1 / r) / v1) (gamma - 1)) in *.
  set (W3 := fpow (rc * (v1 / r)) gamma) in *.
  assert (Eq1 : 0.287 * T1 / v1 = P1) by (unfold v1; field; lra).
  assert (Eq2 : 0.287 * (T1 * F * rc) / (v1 / r) = rc * (P1 * (r * F))).
  { unfold v1. field. lra. }
  split; [| split; [| split]].
  - rewrite Eq1.
    replace (P1 * W / W) with P1 by (field; lra).
    replace (P1 * W / (W / (r * F))) with (P1 * (r * F)) by (field; lra).
    replace (T1 * 1) with T1 by ring.
    replace (0 + gamma * (0.287 / (gamma - 1)) * ln rc
             + 0.287 / (gamma - 1) * - (gamma * ln rc)) with 0 by (field; lra).
    replace (P1 * (r * F) * W3 / W) with (P1 * (r * F) * (W3 / W)) by (field; lra).
    reflexivity.
  - unfold v1, F in *. rewrite Eq2. f_equal. ring.
  - f_equal. ring.
  - intro Hq. apply (f_equal (fun '(_, v, _, _) => v)) in Hq. cbv beta iota in Hq.
    assert (Hx : 0 < v1 / r) by (apply Rdiv_lt_0_compat; lra).
    unfold v1 in *. set (x := 0.287 * T1 / P1 / r) in *. nra.
Qed.

Lemma diesel_page_returns P1 T1 r rc gamma :
  0 < P1 -> 0 < T1 -> 1 < r -> 1 < rc -> 1 < gamma ->
  exists states metrics path, diesel_page P1 T1 r rc gamma = Ok (states, metrics, path).
Proof.
  intros HP HT Hr Hc Hg.
  destruct (diesel_cycle_ok T1 P1 r rc gamma 0.287) as (st & m & E); try lra.
  unfold diesel_page. rewrite E. cbn [bind].
  pose proof E as E'. apply diesel_cycle_inv in E'. cbv zeta in E'.
  destruct E' as (_ & _ & _ & _ & _ & _ & _ & -> & _).
  match goal with
  | |- context [smooth_path_ideal ?st page_legs _ _] =>
      assert (Hp : exists p, smooth_path_ideal st page_legs gamma 0.287 = Ok p)
        by (eapply page_path_exists; first [reflexivity | lra])
  end.
  destruct Hp as [p ->].
  eexists _, _, _. reflexivity.
Qed.

Lemma diesel_page_path_closes_but_misses_state_3_witness :
  exists states metrics path a1 a2 a3 a4 m q rest,
    diesel_page 100 300 18 2 1.4 = Ok (states, metrics, path) /\
    rows states = [a1; a2; a3; a4] /\
    length m = 158%nat /\
    path_samples (samples path) = m ++ q :: rest /\
    q <> state_point a3.
Proof.
  destruct (diesel_page_returns 100 300 18 2 1.4) as (states & metrics & path & E);
    try lra.
  destruct (diesel_page_path_closes_but_misses_state_3
              100 300 18 2 1.4 states metrics path ltac:(lra) ltac:(lra) E)
    as (a1 & a2 & a3 & a4 & m1 & m2 & m3 & m4 & q
        & Hrows & L1 & L2 & _ & _ & Hp & _ & _ & Hq).
  exists states, metrics, path, a1, a2, a3, a4.
  exists (state_point a1 :: m1 ++ state_point a2 :: m2), q.
  eexists. split; [exact E |]. split; [exact Hrows |].
  split; [cbn [length]; rewrite length_app; cbn [length]; lia |].
  split; [| exact Hq].
  rewrite Hp. cbn [app]. rewrite <- app_assoc. reflexivity.
Defined.

(** X29.  On the Brayton page both heat exchanges, which the table has at
    constant pressure, are sampled at constant volume: the second leg ends
    at the temperature of state 3 with the volume of state 2, the fourth at
    the temperature of state 1 with the volume of state 4, and in a
    returned table these volumes differ from those of states 3 and 1.  The
    path neither passes through state 3 nor returns to state 1. *)
Theorem brayton_page_path_keeps_the_volume_where_the_table_keeps_the_pressure :
  forall P1 T1 rp T3 gamma states metrics path,
    brayton_page P1 T1 rp T3 gamma = Ok (states, metrics, path) ->
    exists a1 a2 a3 a4 m1 m2 m3 m4 p0 p1 p3 P3' s3' P1' s1',
      rows states = [a1; a2; a3; a4] /\
      length m1 = 88%nat /\ length m2 = 68%nat /\
      length m3 = 88%nat /\ length m4 = 68%nat /\
      path_samples (samples path)
      = p0 :: m1 ++ p1 :: m2 ++ (P3', cell_v_m3_per_kg a2, cell_T_K a3, s3')
          :: m3 ++ p3 :: m4 ++ [(P1', cell_v_m3_per_kg a4, cell_T_K a1, s1')] /\
      cell_P_kPa a3 = cell_P_kPa a2 /\
      cell_v_m3_per_kg a3 <> cell_v_m3_per_kg a2 /\
      cell_P_kPa a1 = cell_P_kPa a4 /\
      cell_v_m3_per_kg a1 <> cell_v_m3_per_kg a4.
Proof.
  intros P1 T1 rp T3 gamma states metrics path H.
  unfold brayton_page in H. apply page_inv in H. destruct H as [Hs Hp].
  apply brayton_ideal_inv in Hs. cbv zeta in Hs.
  destruct Hs as (Hrp & Hg & HP & HT1 & HT3 & HQ & HW & -> & _).
  eapply page_path_shape in Hp; try reflexivity. cbv zeta in Hp.
  destruct Hp as (m1 & m2 & m3 & m4 & L1 & L2 & L3 & L4 & E).
  unfold cv_point in E.
  do 4 eexists. exists m1, m2, m3, m4. do 7 eexists.
  split; [reflexivity |]. repeat (split; [assumption |]).
  split; [exact E |].
  cbn [rel_row cell_P_kPa cell_v_m3_per_kg].
  rewrite fpow_recip in * by lra.
  pose proof (fpow_pos rp ((gamma - 1) / gamma)) as HF.
  set (F := fpow rp ((gamma - 1) / gamma)) in *.
  assert (H32 : T3 <> T1 * F) by (intro E'; apply HQ; rewrite E'; ring).
  split; [reflexivity |]. split; [| split; [reflexivity |]].
  - intro E'. apply H32.
    replace T3 with (0.287 * T3 / (P1 * rp) * (P1 * rp) / 0.287) by (field; lra).
    rewrite E'. field. lra.
  - intro E'. apply H32.
    replace (T1 * F) with (0.287 * T1 / P1 * P1 / 0.287 * F) by (field; lra).
    rewrite E'. field. lra.
Qed.

Lemma brayton_page_returns :
  exists states metrics path,
    brayton_page 100 300 10 1400 1.4 = Ok (states, metrics, path).
Proof.
  destruct brayton_ideal_default_ok as (st & m & E).
  unfold brayton_page. rewrite E. cbn [bind].
  pose proof E as E'. apply brayton_ideal_inv in E'. cbv zeta in E'.
  destruct E' as (_ & _ & _ & _ & _ & _ & _ & -> & _).
  match goal with
  | |- context [smooth_path_ideal ?st page_legs _ _] =>
      assert (Hp : exists p, smooth_path_ideal st page_legs 1.4 0.287 = Ok p)
        by (eapply page_path_exists; first [reflexivity | lra])
  end.
  destruct Hp as [p ->].
  eexists _, _, _. reflexivity.
Qed.

Lemma brayton_page_path_keeps_the_volume_where_the_table_keeps_the_pressure_witness :
  exists states metrics path a1 a2 a3 a4,
    brayton_page 100 300 10 1400 1.4 = Ok (states, metrics, path) /\
    rows states = [a1; a2; a3; a4] /\
    cell_v_m3_per_kg a3 <> cell_v_m3_per_kg a2 /\
    cell_v_m3_per_kg a1 <> cell_v_m3_per_kg a4.
Proof.
  destruct brayton_page_returns as (states & metrics & path & E).
  destruct (brayton_page_path_keeps_the_volume_where_the_table_keeps_the_pressure
              _ _ _ _ _ _ _ _ E)
    as (a1 & a2 & a3 & a4 & m1 & m2 & m3 & m4 & p0 & p1 & p3 & P3' & s3' & P1' & s1'
        & Hrows & _ & _ & _ & _ & _ & _ & H32 & _ & H14).
  exists states, metrics, path, a1, a2, a3, a4.
  repeat split; assumption.
Defined.

(** X30.  The Dual page passes the four-state leg list with a table of five
    states: state 5 is on no leg, and the fourth leg leaves state 4 at
    constant volume, so the path ends at the temperature of state 1 with
    the volume of state 4, [rc * v1 / r].  That is the volume of state 1
    only when the cutoff ratio equals the compression ratio. *)
Theorem dual_page_path_ends_at_the_volume_of_state_4 :
  forall P1 T1 r alpha rc gamma states metrics path,
    dual_page P1 T1 r alpha rc gamma = Ok (states, metrics, path) ->
    exists a1 a2 a3 a4 a5 m1 m2 m3 m4 p0 p1 p2 p3 P' s',
      rows states = [a1; a2; a3; a4; a5] /\
      length m1 = 88%nat /\ length m2 = 68%nat /\
      length m3 = 88%nat /\ length m4 = 68%nat /\
      path_samples (samples path)
      = p0 :: m1 ++ p1 :: m2 ++ p2 :: m3 ++ p3
          :: m4 ++ [(P', cell_v_m3_per_kg a4, cell_T_K a1, s')] /\
      cell_v_m3_per_kg a4 = rc * (cell_v_m3_per_kg a1 / r) /\
      cell_v_m3_per_kg a5 = cell_v_m3_per_kg a1 /\
      (cell_v_m3_per_kg a4 = cell_v_m3_per_kg a1 <-> rc = r).
Proof.
  intros P1 T1 r alpha rc gamma states metrics path H.
  unfold dual_page in H. apply page_inv in H. destruct H as [Hs Hp].
  apply dual_cycle_inv in Hs. cbv zeta in Hs.
  destruct Hs as (Hr & Ha & Hc & Hg & HP & Hv1 & _ & _ & _ & -> & _).
  eapply page_path_shape in Hp; try reflexivity. cbv zeta in Hp.
  destruct Hp as (m1 & m2 & m3 & m4 & L1 & L2 & L3 & L4 & E).
  unfold cv_point in E.
  do 5 eexists. exists m1, m2, m3, m4. do 6 eexists.
  split; [reflexivity |]. repeat (split; [assumption |]).
  split; [exact E |].
  cbn [rel_row cell_P_kPa cell_v_m3_per_kg].
  split; [reflexivity |]. split; [reflexivity |].
  set (v1 := 0.287 * T1 / P1) in *.
  split.
  - intro E'. assert (Hx : rc * v1 = r * v1).
    { replace (rc * v1) with (rc * (v1 / r) * r) by (field; lra).
      rewrite E'. ring. }
    apply Rmult_eq_reg_r in Hx; assumption.
  - intros ->. field. lra.
Qed.

Lemma dual_page_returns P1 T1 r alpha rc gamma :
  0 < P1 -> 0 < T1 -> 1 < r -> 1 < alpha -> 1 < rc -> 1 < gamma ->
  exists states metrics path,
    dual_page P1 T1 r alpha rc gamma = Ok (states, metrics, path).
Proof.
  intros HP HT Hr Ha Hc Hg.
  destruct (dual_cycle_ok T1 P1 r alpha rc gamma 0.287) as (st & m & E); try lra.
  unfold dual_page. rewrite E. cbn [bind].
  pose proof E as E'. apply dual_cycle_inv in E'. cbv zeta in E'.
  destruct E' as (_ & _ & _ & _ & _ & _ & _ & _ & _ & -> & _).
  match goal with
  | |- context [smooth_path_ideal ?st page_legs _ _] =>
      assert (Hp : exists p, smooth_path_ideal st page_legs gamma 0.287 = Ok p)
        by (eapply page_path_exists; first [reflexivity | lra])
  end.
  destruct Hp as [p ->].
  eexists _, _, _. reflexivity.
Qed.

Lemma dual_page_path_ends_at_the_volume_of_state_4_witness :
  exists states metrics path a1 a2 a3 a4 a5,
    dual_page 100 300 14 1.5 1.3 1.4 = Ok (states, metrics, path) /\
    rows states = [a1; a2; a3; a4; a5] /\
    cell_v_m3_per_kg a4 <> cell_v_m3_per_kg a1.
Proof.
  destruct (dual_page_returns 100 300 14 1.5 1.3 1.4)
    as (states & metrics & path & E); try lra.
  destruct (dual_page_path_ends_at_the_volume_of_state_4 _ _ _ _ _ _ _ _ _ E)
    as (a1 & a2 & a3 & a4 & a5 & m1 & m2 & m3 & m4 & p0 & p1 & p2 & p3 & P' & s'
        & Hrows & _ & _ & _ & _ & _ & _ & _ & Hiff).
  exists states, metrics, path, a1, a2, a3, a4, a5.
  split; [exact E |]. split; [exact Hrows |].
  intro Hv. apply Hiff in Hv. lra.
Defined.
